(** * A shallow embedding of the mypypdf reader

    The development follows [src/mypypdf/_reader.py], [src/mypypdf/generic.py]
    and [src/mypypdf/_page.py].  Python [bytes] are lists of bytes, Python
    [str] values are lists of code points, Python integers are [Z], the
    reader object is a record threaded through the methods that mutate it,
    and exceptions are an explicit result type. *)

From Stdlib Require Import Strings.String Strings.Byte.
From Stdlib Require Import ZArith List Bool Lia.
From Stdlib Require DecimalN.
From stdpp Require Import base option list gmap.

Local Open Scope Z_scope.
Local Set Warnings "-register-all".

(** ** Python values: bytes, str, results *)

Abbreviation bytes := (list byte).

(** A Python [str]: its code points.  Latin-1 decoding of a byte is the
    code point of the same number; [chr] of an octal escape may exceed 255. *)
Abbreviation str := (list Z).

Definition code (c : byte) : Z := Z.of_N (Byte.to_N c).

(** Bytes literals. *)
Definition b (s : string) : bytes := list_byte_of_string s.

(** [data.decode] as latin-1. *)
Definition latin1 (data : bytes) : str := map code data.

(** [str] literals (ASCII text). *)
Definition u (s : string) : str := latin1 (b s).

Definition blen {A} (l : list A) : Z := Z.of_nat (length l).

Definition bytes_eqb (x y : bytes) : bool :=
  bool_decide (map code x = map code y).

Definition str_eqb (x y : str) : bool := bool_decide (x = y).

(** The exceptions the modelled code raises. *)
Inductive exn : Type :=
| EmptyFileError (msg : string)
| PdfReadError (msg : string)
| ValueError
| TypeError
| AttributeError
| IndexError
| KeyError
| OverflowError.

(** The outcome of a call: a value, an exception, or (fuel exhausted)
    recursion that has not returned within the given depth. *)
Inductive res (A : Type) : Type :=
| Ret (a : A)
| Raise (e : exn)
| Diverge.
Arguments Ret {A} a.
Arguments Raise {A} e.
Arguments Diverge {A}.

#[global] Instance res_bind : MBind res := fun A B k m =>
  match m with
  | Ret a => k a
  | Raise e => Raise e
  | Diverge => Diverge
  end.

(** [try: ... except ValueError: handler]. *)
Definition except_ValueError {A} (m : res A) (handler : res A) : res A :=
  match m with
  | Raise ValueError => handler
  | _ => m
  end.

(** ** Slices and searches *)

(** Normalisation of a slice bound: negative bounds count from the end,
    and every bound is clipped to [0, len]. *)
Definition slice_bound (len i : Z) : Z :=
  if i <? 0 then Z.max 0 (i + len) else Z.min i len.

(** [l[lo:hi]]. *)
Definition py_slice {A} (l : list A) (lo hi : Z) : list A :=
  let lo' := slice_bound (blen l) lo in
  let hi' := slice_bound (blen l) hi in
  take (Z.to_nat (hi' - lo')) (drop (Z.to_nat lo') l).

(** [l[lo:]]. *)
Definition py_slice_from {A} (l : list A) (lo : Z) : list A :=
  drop (Z.to_nat (slice_bound (blen l) lo)) l.

(** [l[:hi]]. *)
Definition py_slice_to {A} (l : list A) (hi : Z) : list A :=
  py_slice l 0 hi.

Fixpoint startswith (data prefix : bytes) : bool :=
  match prefix, data with
  | [], _ => true
  | p :: prefix', d :: data' => (code p =? code d) && startswith data' prefix'
  | _ :: _, [] => false
  end.

(** Offset of the first occurrence of [sub] in [data], if any. *)
Fixpoint find_in (sub data : bytes) : option Z :=
  if startswith data sub then Some 0
  else match data with
       | [] => None
       | _ :: data' => match find_in sub data' with
                       | Some i => Some (i + 1)
                       | None => None
                       end
       end.

(** [data.find(sub, start)] for a non-negative [start]: lowest index at or
    after [start] where [sub] occurs, or -1. *)
Definition find (data sub : bytes) (start : Z) : Z :=
  if blen data <? start then -1
  else match find_in sub (drop (Z.to_nat start) data) with
       | Some i => start + i
       | None => -1
       end.

(** ** Character classes *)

(** ASCII whitespace of [bytes.strip], [bytes.split], [int] and the byte
    regex class \s: space, \t, \n, \v, \f, \r. *)
Definition is_space (c : Z) : bool :=
  (c =? 32) || ((9 <=? c) && (c <=? 13)).

(** Whitespace of [int(str)] for the code points a decoded PDF string can
    hold (below 512): the ASCII ones, NEL and NBSP.  The separators
    0x1c-0x1f, which [str.strip] removes, are not whitespace for [int]. *)
Definition is_uspace (c : Z) : bool :=
  is_space c || (c =? 133) || (c =? 160).

Definition is_digit (c : Z) : bool := (48 <=? c) && (c <=? 57).

(** Membership of a one-byte slice in a bytes constant, as in
    [data[idx:idx + 1] in ws] (the slice is one byte long wherever
    the source tests it: the index has been checked against [len(data)]). *)
Definition byte_in (c : Z) (set : list Z) : bool := bool_decide (c ∈ set).

(** The whitespace the parser skips: space, tab, CR, LF. *)
Definition pdf_ws : list Z := [32; 9; 13; 10].

(** The bytes that end a name: space, tab, CR, LF and the delimiters
    < > [ ] ( ) { } / %. *)
Definition name_end : list Z :=
  [32; 9; 13; 10; 60; 62; 91; 93; 40; 41; 123; 125; 47; 37].

(** The bytes that start a number: the digits, +, - and the dot. *)
Definition number_start : list Z :=
  [48; 49; 50; 51; 52; 53; 54; 55; 56; 57; 43; 45; 46].

(** [data[idx]] as a code, when [0 <= idx < len(data)]. *)
Definition at_ (data : bytes) (idx : Z) : option Z :=
  if idx <? 0 then None else code <$> (data !! Z.to_nat idx).

(** Number of leading elements satisfying [p]. *)
Fixpoint span_len (p : Z -> bool) (l : list Z) : Z :=
  match l with
  | c :: l' => if p c then 1 + span_len p l' else 0
  | [] => 0
  end.

Fixpoint lstrip (data : bytes) : bytes :=
  match data with
  | c :: data' => if is_space (code c) then lstrip data' else data
  | [] => []
  end.

(** [data.strip()]. *)
Definition strip (data : bytes) : bytes := rev (lstrip (rev (lstrip data))).

(** [data.split()]: the maximal runs of non-whitespace bytes. *)
Fixpoint split_go (data cur : bytes) : list bytes :=
  match data with
  | c :: data' =>
      if is_space (code c)
      then match cur with
           | [] => split_go data' []
           | _ => rev cur :: split_go data' []
           end
      else split_go data' (c :: cur)
  | [] => match cur with [] => [] | _ => [rev cur] end
  end.

Definition split (data : bytes) : list bytes := split_go data [].

(** ** Conversions to integers *)

Fixpoint lstrip_with (ws : Z -> bool) (s : str) : str :=
  match s with
  | c :: s' => if ws c then lstrip_with ws s' else s
  | [] => []
  end.

(** The digits of an integer literal: decimal digits, where a single
    underscore may stand between two digits. *)
Fixpoint int_digits (s : str) (acc : Z) (after_digit : bool) : option Z :=
  match s with
  | [] => if after_digit then Some acc else None
  | c :: s' =>
      if is_digit c then int_digits s' (10 * acc + (c - 48)) true
      else if (c =? 95) && after_digit
           then match s' with
                | d :: _ => if is_digit d then int_digits s' acc false else None
                | [] => None
                end
           else None
  end.

(** [int(text)] in base 10: surrounding whitespace, an optional sign, the
    digits; [ValueError] otherwise.  The conversion is the one of an
    interpreter without a limit on the number of digits (before 3.11, or
    with [sys.set_int_max_str_digits(0)]); under the default limit a
    literal of more than 4300 digits raises [ValueError] instead. *)
Definition py_int (ws : Z -> bool) (text : str) : res Z :=
  let s := rev (lstrip_with ws (rev (lstrip_with ws text))) in
  let '(neg, s) := match s with
                   | 45 :: r => (true, r)
                   | 43 :: r => (false, r)
                   | _ => (false, s)
                   end in
  match int_digits s 0 false with
  | Some n => Ret (if neg : bool then - n else n)
  | None => Raise ValueError
  end.

(** [int(data)] for [bytes]. *)
Definition int_of_bytes (data : bytes) : res Z := py_int is_space (latin1 data).

(** [int(text)] for [str]. *)
Definition int_of_str (text : str) : res Z := py_int is_uspace text.

(** [int(octal, 8)]: the source passes one to three characters taken from
    the ten decimal digits; the digits 8 and 9 are not octal. *)
Fixpoint int_octal (s : str) (acc : Z) : res Z :=
  match s with
  | [] => Ret acc
  | c :: s' => if (48 <=? c) && (c <=? 55) then int_octal s' (8 * acc + (c - 48))
               else Raise ValueError
  end.

(** [int.from_bytes(data, big)]. *)
Definition int_from_bytes (data : bytes) : Z :=
  fold_left (fun acc c => 256 * acc + code c) data 0.

(** ** The object model ([generic.py]) *)

(** The value of a [NumberObject]: an [int], or a [float].  A float is kept
    as the decimal literal it was read from: [float(num_str)] is the double
    nearest to that decimal, and no modelled path depends on more of it
    than its conversion back to [int]. *)
Inductive number : Type :=
| NInt (z : Z)
| NReal (literal : str).

(** [a / d] rounded to the nearest integer, a tie to the even one
    ([0 <= a], [0 < d]). *)
Definition round_half_even (a d : Z) : Z :=
  let q := a / d in
  let r := a mod d in
  if 2 * r <? d then q
  else if d <? 2 * r then q + 1
  else if Z.even q then q else q + 1.

(** The double nearest to the rational [m / d] ([0 < m], [0 < d]), ties to
    even, as the pair [(n, p)] of the integer [n <= 2^53] and the exponent
    [p >= -1074] with value [n * 2^p]: 53 bits of precision at the binary
    exponent [e] of [m / d], the spacing of the subnormal range below it.
    The value is a double when it is below [2^1024], and stands for
    infinity otherwise. *)
Definition binary64 (m d : Z) : Z * Z :=
  let e0 := Z.log2 m - Z.log2 d in
  let below := if 0 <=? e0 then m <? d * 2 ^ e0 else m * 2 ^ (- e0) <? d in
  let e := if below : bool then e0 - 1 else e0 in
  let p := Z.max (e - 52) (-1074) in
  let n := if 0 <=? p then round_half_even m (d * 2 ^ p)
           else round_half_even (m * 2 ^ (- p)) d in
  (n, p).

Definition decimal_value (digits : str) : Z :=
  fold_left (fun acc c => 10 * acc + (c - 48)) digits 0.

(** [int(x)] for the float [x] read from [literal] ([[+-]digits.digits]):
    the literal is rounded to the nearest double and the double truncated
    toward zero; [OverflowError] when the double is infinite. *)
Definition int_of_float (literal : str) : res Z :=
  let '(neg, s) := match literal with
                   | 45 :: r => (true, r)
                   | 43 :: r => (false, r)
                   | _ => (false, literal)
                   end in
  let whole := take (Z.to_nat (span_len is_digit s)) s in
  let fraction := match drop (Z.to_nat (span_len is_digit s)) s with
                  | 46 :: r => take (Z.to_nat (span_len is_digit r)) r
                  | _ => []
                  end in
  let m := decimal_value (whole ++ fraction) in
  let d := 10 ^ blen fraction in
  if m =? 0 then Ret 0
  else
    let '(n, p) := binary64 m d in
    if 2 ^ 1024 <=? n * 2 ^ p then Raise OverflowError
    else
      let t := if 0 <=? p then n * 2 ^ p else n / 2 ^ (- p) in
      Ret (if neg : bool then - t else t).

(** [int(value)] for the value of a [NumberObject]. *)
Definition int_of_number (n : number) : res Z :=
  match n with
  | NInt z => Ret z
  | NReal lit => int_of_float lit
  end.

(** The classes of [generic.py].  [MkNameObject] holds the stored [name];
    the class constructor is [NameObject] below.  A dictionary is the list
    of its items in insertion order, keys being objects as in the source
    (the parser only ever inserts names).  A stream is a dictionary with
    its raw [_data] and its [_decoded_data] cache.  [IndirectObject] holds
    whether its [pdf] attribute is set (the reader) or [None]. *)
Inductive PdfObject : Type :=
| NullObject
| BooleanObject (value : bool)
| NumberObject (value : number)
| MkNameObject (name : str)
| StringObject (value : str)
| HexStringObject (value : str)
| ArrayObject (elems : list PdfObject)
| DictionaryObject (items : list (PdfObject * PdfObject))
| StreamObject (items : list (PdfObject * PdfObject))
               (_data : bytes) (_decoded_data : option bytes)
| IndirectObject (object_number generation : Z) (pdf : bool).

Abbreviation dict := (list (PdfObject * PdfObject)).

(** [NameObject(name)]: the name is stored with its leading slash. *)
Definition NameObject (name : str) : PdfObject :=
  match name with
  | 47 :: _ => MkNameObject name
  | _ => MkNameObject (47 :: name)
  end.

(** Python's [None] is the [None] of [option PdfObject]. *)
Abbreviation pyobj := (option PdfObject).

(** Truth value of an object: [BooleanObject] defines [__bool__], arrays,
    dictionaries and streams are truthy when non-empty (they subclass
    [list] and [dict]), any other object is truthy. *)
Definition truthy (o : PdfObject) : bool :=
  match o with
  | BooleanObject v => v
  | ArrayObject l => negb (bool_decide (l = []))
  | DictionaryObject d | StreamObject d _ _ => match d with [] => false | _ => true end
  | _ => true
  end.

(** Truth value of an object or [None]. *)
Definition py_truthy (o : pyobj) : bool :=
  match o with
  | Some o => truthy o
  | None => false
  end.

(** *** Dictionaries *)

(** Equality of dictionary keys: [NameObject] compares names and
    [IndirectObject] compares number and generation; the other classes
    inherit identity, and two distinct objects are never identical. *)
Definition key_eqb (k1 k2 : PdfObject) : bool :=
  match k1, k2 with
  | MkNameObject n1, MkNameObject n2 => str_eqb n1 n2
  | IndirectObject n1 g1 _, IndirectObject n2 g2 _ => (n1 =? n2) && (g1 =? g2)
  | _, _ => false
  end.

(** Arrays, dictionaries and streams subclass [list] and [dict]: unhashable. *)
Definition hashable (k : PdfObject) : bool :=
  match k with
  | ArrayObject _ | DictionaryObject _ | StreamObject _ _ _ => false
  | _ => true
  end.

Fixpoint dict_replace (d : dict) (key value : PdfObject) : option dict :=
  match d with
  | [] => None
  | (k, v) :: d' =>
      if key_eqb k key then Some ((k, value) :: d')
      else match dict_replace d' key value with
           | Some d'' => Some ((k, v) :: d'')
           | None => None
           end
  end.

(** [d[key] = value]. *)
Definition dict_setitem (d : dict) (key value : PdfObject) : res dict :=
  if hashable key
  then Ret (match dict_replace d key value with
            | Some d' => d'
            | None => d ++ [(key, value)]
            end)
  else Raise TypeError.

(** [d.get(key)] for a [str] key: the value stored under the name [key],
    or [None]. *)
Fixpoint dict_get (d : dict) (key : str) : pyobj :=
  match d with
  | [] => None
  | (MkNameObject n, v) :: d' => if str_eqb n key then Some v else dict_get d' key
  | _ :: d' => dict_get d' key
  end.

(** [d.update(other)] for the items of a dictionary [other]. *)
Fixpoint dict_update (d other : dict) : res dict :=
  match other with
  | [] => Ret d
  | (k, v) :: other' => d' ← dict_setitem d k v; dict_update d' other'
  end.

(** ** The object parser ([_reader.py]) *)

(** *** Regular expressions of the parser, matched at the start of [s] *)

Definition digits1 (s : str) : option Z :=
  let n := span_len is_digit s in if 0 <? n then Some n else None.

Definition spaces1 (s : str) : option Z :=
  let n := span_len is_space s in if 0 <? n then Some n else None.

Definition sdrop (n : Z) (s : str) : str := drop (Z.to_nat n) s.
Definition stake (n : Z) (s : str) : str := take (Z.to_nat n) s.

(** The value of a run of decimal digits, [int(match.group(i))]. *)
Definition digits_value (s : str) : Z :=
  fold_left (fun acc c => 10 * acc + (c - 48)) s 0.

(** [re.match] of the pattern [[+-]?\d+\.?\d* ] (one group): the end of
    the match. *)
Definition re_number (s : str) : option Z :=
  let sign := match s with
              | c :: _ => if (c =? 43) || (c =? 45) then 1 else 0
              | [] => 0
              end in
  d1 ← digits1 (sdrop sign s);
  let dot := match sdrop (sign + d1) s with
             | 46 :: _ => 1
             | _ => 0
             end in
  Some (sign + d1 + dot + span_len is_digit (sdrop (sign + d1 + dot) s)).

(** [re.match] of the pattern [(\d+)\s+(\d+)\s+R]: the two groups as integers
    and the end of the match. *)
Definition re_ref (s : str) : option (Z * Z * Z) :=
  d1 ← digits1 s;
  w1 ← spaces1 (sdrop d1 s);
  d2 ← digits1 (sdrop (d1 + w1) s);
  w2 ← spaces1 (sdrop (d1 + w1 + d2) s);
  match sdrop (d1 + w1 + d2 + w2) s with
  | 82 :: _ => Some (digits_value (stake d1 s),
                     digits_value (stake d2 (sdrop (d1 + w1) s)),
                     d1 + w1 + d2 + w2 + 1)
  | _ => None
  end.

(** The loop [while idx < len(data) and data[idx:idx + 1] in] whitespace. *)
Definition skip_ws (data : bytes) (idx : Z) : Z :=
  idx + span_len (fun c => byte_in c pdf_ws) (latin1 (py_slice_from data idx)).

(** *** Literal strings *)

(** One round of the octal loop: take the next byte if it is in
    the ten decimal digits. *)
Definition octal_more (data : bytes) (idx : Z) (octal : str) : option (Z * str) :=
  match at_ data (idx + 1) with
  | Some d => if is_digit d then Some (idx + 1, octal ++ [d]) else None
  | None => None
  end.

(** The [while idx < len(data) and depth > 0] loop of
    [_parse_literal_string]. *)
Fixpoint literal_loop (fuel : nat) (data : bytes) (idx depth : Z) (result : str)
  : res (PdfObject * Z) :=
  match fuel with
  | O => Diverge
  | S fuel' =>
      match at_ data idx with
      | Some char =>
          if depth <=? 0 then Ret (StringObject result, idx)
          else if char =? 92 then
            let idx := idx + 1 in
            match at_ data idx with
            | None => Ret (StringObject result, idx)
            | Some esc =>
                if esc =? 110 then literal_loop fuel' data (idx + 1) depth (result ++ [10])
                else if esc =? 114 then literal_loop fuel' data (idx + 1) depth (result ++ [13])
                else if esc =? 116 then literal_loop fuel' data (idx + 1) depth (result ++ [9])
                else if esc =? 98 then literal_loop fuel' data (idx + 1) depth (result ++ [8])
                else if esc =? 102 then literal_loop fuel' data (idx + 1) depth (result ++ [12])
                else if esc =? 40 then literal_loop fuel' data (idx + 1) depth (result ++ [40])
                else if esc =? 41 then literal_loop fuel' data (idx + 1) depth (result ++ [41])
                else if esc =? 92 then literal_loop fuel' data (idx + 1) depth (result ++ [92])
                else if is_digit esc then
                  let '(idx, octal) :=
                    match octal_more data idx [esc] with
                    | Some (idx1, octal1) =>
                        match octal_more data idx1 octal1 with
                        | Some r => r
                        | None => (idx1, octal1)
                        end
                    | None => (idx, [esc])
                    end in
                  n ← int_octal octal 0;
                  literal_loop fuel' data (idx + 1) depth (result ++ [n])
                else literal_loop fuel' data (idx + 1) depth result
            end
          else if char =? 40 then literal_loop fuel' data (idx + 1) (depth + 1) (result ++ [40])
          else if char =? 41 then
            literal_loop fuel' data (idx + 1) (depth - 1)
                         (if 0 <? depth - 1 then result ++ [41] else result)
          else literal_loop fuel' data (idx + 1) depth (result ++ [char])
      | None => Ret (StringObject result, idx)
      end
  end.

Definition _parse_literal_string (data : bytes) (idx : Z) : res (PdfObject * Z) :=
  literal_loop (S (length data)) data (idx + 1) 1 [].

(** *** Hexadecimal strings *)

Definition hexval (c : Z) : option Z :=
  if is_digit c then Some (c - 48)
  else if (97 <=? c) && (c <=? 102) then Some (c - 87)
  else if (65 <=? c) && (c <=? 70) then Some (c - 55)
  else None.

(** [bytes.fromhex(text)]: pairs of hexadecimal digits, ASCII whitespace
    allowed before a pair; [None] stands for the [ValueError]. *)
Fixpoint fromhex (s : str) : option str :=
  match s with
  | [] => Some []
  | c :: s1 =>
      if is_space c then fromhex s1
      else match hexval c, s1 with
           | Some top, d :: s2 =>
               match hexval d with
               | Some bot => cons (16 * top + bot) <$> fromhex s2
               | None => None
               end
           | _, _ => None
           end
  end.

Definition _parse_hex_string (data : bytes) (idx : Z) : res (PdfObject * Z) :=
  let idx := idx + 1 in
  let end_ := find data (b ">") idx in
  let end_ := if end_ =? -1 then blen data else end_ in
  let hex_data :=
    filter (fun c => c <> 32 /\ c <> 10 /\ c <> 13) (latin1 (py_slice data idx end_)) in
  let hex_data := if Z.odd (blen hex_data) then hex_data ++ [48] else hex_data in
  (* a byte above 0x7f fails in [hex_data.decode()] or in [fromhex]; either
     way the bare [except] leaves the empty string *)
  let decoded := default [] (fromhex hex_data) in
  Ret (HexStringObject decoded, end_ + 1).

(** *** Objects, arrays and dictionaries *)

(** The number branch of [_parse_object], entered when the byte at [idx]
    starts a number; [s] is [data[idx:]].  [None] when the branch falls
    through to the code below it. *)
Definition parse_number (s : str) (idx : Z) : option (res (PdfObject * Z)) :=
  let could_be_reference :=
    match re_ref s with
    | Some (obj_num, gen_num, e) =>
        Some (Ret (IndirectObject obj_num gen_num true, idx + e))
    | None => None
    end in
  match re_number s with
  | Some e =>
      let num_str := stake e s in
      if bool_decide (46 ∈ num_str)
      then Some (Ret (NumberObject (NReal num_str), idx + e))
      else match py_int is_space num_str with
           | Ret n => Some (Ret (NumberObject (NInt n), idx + e))
           | Raise ValueError => could_be_reference
           | Raise e => Some (Raise e)
           | Diverge => Some Diverge
           end
  | None => could_be_reference
  end.

(** [_parse_object], with the loops of [_parse_array] and
    [_parse_dictionary] as mutually recursive functions.  [fuel] bounds the
    depth of the recursion. *)
Fixpoint _parse_object (fuel : nat) (data : bytes) (idx : Z) {struct fuel}
  : res (PdfObject * Z) :=
  match fuel with
  | O => Diverge
  | S fuel' =>
      let idx := skip_ws data idx in
      match at_ data idx with
      | None => Ret (NullObject, idx)
      | Some char =>
          let s := py_slice_from data idx in
          if startswith s (b "null") then Ret (NullObject, idx + 4)
          else if startswith s (b "true") then Ret (BooleanObject true, idx + 4)
          else if startswith s (b "false") then Ret (BooleanObject false, idx + 5)
          else
            match (if byte_in char number_start then parse_number (latin1 s) idx
                   else None) with
            | Some r => r
            | None =>
                if char =? 47 then
                  let end_ := idx + 1 + span_len (fun c => negb (byte_in c name_end))
                                                 (latin1 (py_slice_from data (idx + 1))) in
                  Ret (NameObject (latin1 (py_slice data idx end_)), end_)
                else if char =? 40 then _parse_literal_string data idx
                else if char =? 60 then
                  if bool_decide (at_ data (idx + 1) = Some 60)
                  then _parse_dictionary_loop fuel' data (idx + 2) []
                  else _parse_hex_string data idx
                else if char =? 91 then _parse_array_loop fuel' data (idx + 1) []
                else if startswith s (b "<<") then _parse_dictionary_loop fuel' data (idx + 2) []
                else match re_ref (latin1 s) with
                     | Some (obj_num, gen_num, e) =>
                         Ret (IndirectObject obj_num gen_num true, idx + e)
                     | None => Ret (NullObject, idx + 1)
                     end
            end
      end
  end

(** The [while idx < len(data)] loop of [_parse_array]. *)
with _parse_array_loop (fuel : nat) (data : bytes) (idx : Z) (arr : list PdfObject)
       {struct fuel} : res (PdfObject * Z) :=
  match fuel with
  | O => Diverge
  | S fuel' =>
      if idx <? blen data then
        let idx := skip_ws data idx in
        if (blen data <=? idx) || bool_decide (at_ data idx = Some 93)
        then Ret (ArrayObject arr, idx + 1)
        else
          '(obj, idx) ← _parse_object fuel' data idx;
          _parse_array_loop fuel' data idx (arr ++ [obj])
      else Ret (ArrayObject arr, idx)
  end

(** The [while idx < len(data)] loop of [_parse_dictionary]. *)
with _parse_dictionary_loop (fuel : nat) (data : bytes) (idx : Z) (d : dict)
       {struct fuel} : res (PdfObject * Z) :=
  match fuel with
  | O => Diverge
  | S fuel' =>
      if idx <? blen data then
        let idx := skip_ws data idx in
        if (blen data <=? idx) || startswith (py_slice_from data idx) (b ">>")
        then Ret (DictionaryObject d, idx + 2)
        else if negb (bool_decide (at_ data idx = Some 47))
        then _parse_dictionary_loop fuel' data (idx + 1) d
        else
          '(key, idx) ← _parse_object fuel' data idx;
          let idx := skip_ws data idx in
          '(value, idx) ← _parse_object fuel' data idx;
          d ← dict_setitem d key value;
          _parse_dictionary_loop fuel' data idx d
      else Ret (DictionaryObject d, idx)
  end.

Definition _parse_array (fuel : nat) (data : bytes) (idx : Z) :=
  _parse_array_loop fuel data (idx + 1) [].

Definition _parse_dictionary (fuel : nat) (data : bytes) (idx : Z) :=
  _parse_dictionary_loop fuel data (idx + 2) [].

(** Fuel for which the object parser returns on every input: every call and
    every loop round consumes a byte.  The interpreter's own recursion
    limit is not modelled. *)
Definition parse_fuel (data : bytes) : nat := S (S (2 * length data)).
Arguments parse_fuel : simpl never.

(** ** Attribute access on objects *)

(** [o.get(key)]: only dictionaries (and streams) have the method. *)
Definition obj_get (o : PdfObject) (key : str) : res pyobj :=
  match o with
  | DictionaryObject d | StreamObject d _ _ => Ret (dict_get d key)
  | _ => Raise AttributeError
  end.

(** [int(x.value)] for the classes that have a [value]: booleans, numbers
    and strings. *)
Definition int_of_value (o : PdfObject) : option (res Z) :=
  match o with
  | BooleanObject v => Some (Ret (if v then 1 else 0))
  | NumberObject v => Some (int_of_number v)
  | StringObject s | HexStringObject s => Some (int_of_str s)
  | _ => None
  end.

(** [int(x.value if hasattr(x, value) else x)]: no class without a [value]
    converts to [int]. *)
Definition int_value (o : PdfObject) : res Z :=
  default (Raise TypeError) (int_of_value o).

(** [int(x.value)]. *)
Definition value_int (o : PdfObject) : res Z :=
  default (Raise AttributeError) (int_of_value o).

(** [for x in o]: arrays yield their elements, dictionaries their keys;
    nothing else (nor [None]) is iterable. *)
Definition py_iter (o : pyobj) : res (list PdfObject) :=
  match o with
  | Some (ArrayObject l) => Ret l
  | Some (DictionaryObject d) | Some (StreamObject d _ _) => Ret (map fst d)
  | _ => Raise TypeError
  end.

(** [for_each f l s]: a [for] loop over [l] whose body [f] updates [s]. *)
Fixpoint for_each {A S} (f : S -> A -> res S) (l : list A) (s : S) : res S :=
  match l with
  | [] => Ret s
  | x :: l' => s' ← f s x; for_each f l' s'
  end.

(** [stream_obj.update(obj)] on the fresh, empty stream dictionary: a
    dictionary contributes its items, an array must hold key/value pairs
    (iterables of length two), anything else is not iterable. *)
Definition update_from (obj : PdfObject) : res dict :=
  match obj with
  | DictionaryObject d | StreamObject d _ _ => dict_update [] d
  | ArrayObject l =>
      for_each (fun d item =>
                  pair ← py_iter (Some item);
                  match pair with
                  | [k; v] => dict_setitem d k v
                  | _ => Raise ValueError
                  end) l []
  | _ => Raise TypeError
  end.

(** ** The reader ([_reader.py]) and its pages ([_page.py]) *)

(** A [PageObject]: a dictionary with the attributes [pdf] (whether a
    reader is attached) and [indirect_ref]. *)
Record PageObject : Type := {
  page_pdf : bool;
  indirect_ref : pyobj;
  page_items : dict
}.

(** The attributes of a [PdfReader].  [parse_calls] is instrumentation, not
    an attribute of the source: the offsets at which
    [_parse_indirect_object] was entered, latest first. *)
Record PdfReader : Type := {
  _data : bytes;
  _objects : gmap Z pyobj;
  _xref : gmap Z (Z * Z);
  _trailer : pyobj;
  _is_encrypted : bool;
  _decrypted : bool;
  _pages : option (list PageObject);
  parse_calls : list Z
}.

Definition set_objects (self : PdfReader) (objects : gmap Z pyobj) : PdfReader :=
  {| _data := _data self; _objects := objects; _xref := _xref self;
     _trailer := _trailer self; _is_encrypted := _is_encrypted self;
     _decrypted := _decrypted self; _pages := _pages self;
     parse_calls := parse_calls self |}.

Definition set_xref (self : PdfReader) (xref : gmap Z (Z * Z)) : PdfReader :=
  {| _data := _data self; _objects := _objects self; _xref := xref;
     _trailer := _trailer self; _is_encrypted := _is_encrypted self;
     _decrypted := _decrypted self; _pages := _pages self;
     parse_calls := parse_calls self |}.

Definition set_trailer (self : PdfReader) (trailer : pyobj) : PdfReader :=
  {| _data := _data self; _objects := _objects self; _xref := _xref self;
     _trailer := trailer; _is_encrypted := _is_encrypted self;
     _decrypted := _decrypted self; _pages := _pages self;
     parse_calls := parse_calls self |}.

Definition set_is_encrypted (self : PdfReader) (v : bool) : PdfReader :=
  {| _data := _data self; _objects := _objects self; _xref := _xref self;
     _trailer := _trailer self; _is_encrypted := v;
     _decrypted := _decrypted self; _pages := _pages self;
     parse_calls := parse_calls self |}.

Definition set_decrypted (self : PdfReader) (v : bool) : PdfReader :=
  {| _data := _data self; _objects := _objects self; _xref := _xref self;
     _trailer := _trailer self; _is_encrypted := _is_encrypted self;
     _decrypted := v; _pages := _pages self;
     parse_calls := parse_calls self |}.

Definition set_pages (self : PdfReader) (pages : option (list PageObject)) : PdfReader :=
  {| _data := _data self; _objects := _objects self; _xref := _xref self;
     _trailer := _trailer self; _is_encrypted := _is_encrypted self;
     _decrypted := _decrypted self; _pages := pages;
     parse_calls := parse_calls self |}.

Definition log_parse (self : PdfReader) (offset : Z) : PdfReader :=
  {| _data := _data self; _objects := _objects self; _xref := _xref self;
     _trailer := _trailer self; _is_encrypted := _is_encrypted self;
     _decrypted := _decrypted self; _pages := _pages self;
     parse_calls := offset :: parse_calls self |}.

(** *** Regular expressions of the indirect-object parser *)

(** [re.match] of the object header [(\d+)\s+(\d+)\s+obj\s*]: the two
    groups and the end of the match. *)
Definition re_header (s : str) : option (Z * Z * Z) :=
  d1 ← digits1 s;
  w1 ← spaces1 (sdrop d1 s);
  d2 ← digits1 (sdrop (d1 + w1) s);
  w2 ← spaces1 (sdrop (d1 + w1 + d2) s);
  let e := d1 + w1 + d2 + w2 in
  if bool_decide (stake 3 (sdrop e s) = u "obj")
  then Some (digits_value (stake d1 s),
             digits_value (stake d2 (sdrop (d1 + w1) s)),
             e + 3 + span_len is_space (sdrop (e + 3) s))
  else None.

(** [re.match] of the stream keyword [\s*stream\r?\n]: the end of the match. *)
Definition re_stream (s : str) : option Z :=
  let w := span_len is_space s in
  if bool_decide (stake 6 (sdrop w s) = u "stream")
  then match sdrop (w + 6) s with
       | 10 :: _ => Some (w + 7)
       | 13 :: 10 :: _ => Some (w + 8)
       | _ => None
       end
  else None.

(** [re.search] of [\r?\nendstream]: start and end of the leftmost match.
    [pos] is the offset of [s] in the searched bytes. *)
Fixpoint re_endstream (s : str) (pos : Z) : option (Z * Z) :=
  match s with
  | [] => None
  | c :: s' =>
      if (c =? 13) && bool_decide (take 10 s' = 10 :: u "endstream")
      then Some (pos, pos + 11)
      else if (c =? 10) && bool_decide (take 9 s' = u "endstream")
      then Some (pos, pos + 10)
      else re_endstream s' (pos + 1)
  end.

(** *** Indirect objects *)

(** The body of [_parse_indirect_object] after the value has been parsed
    and the stream keyword matched: cut the stream data and wrap [obj] as a
    stream.  [length] is [None] when no length was found. *)
Definition read_stream (data : bytes) (idx : Z) (obj : PdfObject) (length : option Z)
  : res (PdfObject * Z) :=
  let scan_for_endstream :=
    match re_endstream (latin1 (py_slice_from data idx)) 0 with
    | Some (start, stop) => (py_slice data idx (idx + start), idx + stop)
    | None => ([], idx)
    end in
  let '(stream_data, idx) :=
    match length with
    | Some len => if len =? 0 then scan_for_endstream
                  else (py_slice data idx (idx + len), idx + len)
    | None => scan_for_endstream
    end in
  items ← update_from obj;
  Ret (StreamObject items stream_data None, idx).

(** [get_object] and [_parse_indirect_object] call each other (an indirect
    stream length is resolved through [get_object]); [fuel] bounds the
    depth of that recursion. *)
Fixpoint get_object (fuel : nat) (self : PdfReader) (ref : PdfObject) {struct fuel}
  : res (pyobj * PdfReader) :=
  match fuel with
  | O => Diverge
  | S fuel' =>
      obj_num ← match ref with
                | IndirectObject object_number _ _ => Ret object_number
                | NumberObject v => int_of_number v
                | _ => Raise TypeError
                end;
      match _objects self !! obj_num with
      | Some cached => Ret (cached, self)
      | None =>
          match _xref self !! obj_num with
          | None => Ret (None, self)
          | Some (offset, gen) =>
              '(obj, _, self) ← _parse_indirect_object fuel' self offset;
              Ret (obj, set_objects self (<[obj_num := obj]> (_objects self)))
          end
      end
  end

with _parse_indirect_object (fuel : nat) (self : PdfReader) (offset : Z) {struct fuel}
  : res (pyobj * Z * PdfReader) :=
  match fuel with
  | O => Diverge
  | S fuel' =>
      let self := log_parse self offset in
      let data := py_slice_from (_data self) offset in
      match re_header (latin1 data) with
      | None => Ret (None, offset, self)
      | Some (obj_num, gen_num, idx) =>
          '(obj, idx) ← _parse_object (parse_fuel data) data idx;
          match re_stream (latin1 (py_slice_from data idx)) with
          | Some e =>
              let idx := idx + e in
              '(length, self) ←
                match obj with
                | DictionaryObject d | StreamObject d _ _ =>
                    match dict_get d (u "/Length") with
                    | Some (NumberObject v) => len ← int_of_number v; Ret (Some len, self)
                    | Some (IndirectObject n g p) =>
                        '(length_ref, self) ← get_object fuel' self (IndirectObject n g p);
                        match length_ref with
                        | Some r => if truthy r
                                    then len ← int_value r; Ret (Some len, self)
                                    else Ret (None, self)
                        | None => Ret (None, self)
                        end
                    | _ => Ret (None, self)
                    end
                | _ => Ret (None, self)
                end;
              '(obj, idx) ← read_stream data idx obj length;
              Ret (Some obj, offset + idx, self)
          | None => Ret (Some obj, offset + idx, self)
          end
      end
  end.

(** *** Stream filters ([StreamObject.decode_data]) *)

Section Reader.

(** [zlib.decompress]: the inflated bytes, or [None] for [zlib.error]. *)
Variable zlib_decompress : bytes -> option bytes.

(** [str(f) in (/FlateDecode, /Fl)]: names and strings print their text;
    the other classes print their class name, never a filter name. *)
Definition is_flate (f : PdfObject) : bool :=
  match f with
  | MkNameObject s | StringObject s | HexStringObject s =>
      str_eqb s (u "/FlateDecode") || str_eqb s (u "/Fl")
  | _ => false
  end.

(** The [for f in filters] loop. *)
Fixpoint apply_filters (filters : list PdfObject) (data : bytes) : bytes :=
  match filters with
  | [] => data
  | f :: filters' =>
      apply_filters filters'
        (if is_flate f
         then match zlib_decompress data with
              | Some inflated => inflated
              | None => data
              end
         else data)
  end.

(** [decode_data] of the stream with dictionary [d], raw bytes [raw] and
    cache [decoded]: the decoded bytes and the stream with its cache set. *)
Definition decode_data (d : dict) (raw : bytes) (decoded : option bytes)
  : res (bytes * PdfObject) :=
  match decoded with
  | Some cached => Ret (cached, StreamObject d raw decoded)
  | None =>
      data ←
        match dict_get d (u "/Filter") with
        | Some filters =>
            if truthy filters then
              filters ← match filters with
                        | MkNameObject _ => Ret [filters]
                        | ArrayObject l => Ret l
                        | _ => py_iter (Some filters)
                        end;
              Ret (apply_filters filters raw)
            else Ret raw
        | None => Ret raw
        end;
      Ret (data, StreamObject d raw (Some data))
  end.

(** *** The cross-reference table *)

(** The [for i in range(count)] loop over the 20-byte entries; [i] is the
    loop variable and [n] the number of rounds left. *)
Fixpoint table_entries (n : nat) (data : bytes) (start_obj i idx : Z)
  (xref : gmap Z (Z * Z)) : Z * gmap Z (Z * Z) :=
  match n with
  | O => (idx, xref)
  | S n' =>
      let entry_line := py_slice data idx (idx + 20) in
      let idx := idx + 20 in
      let xref :=
        if 18 <=? blen entry_line then
          match (entry_offset ← int_of_bytes (py_slice_to entry_line 10);
                 entry_gen ← int_of_bytes (py_slice entry_line 11 16);
                 Ret (entry_offset, entry_gen)) with
          | Ret (entry_offset, entry_gen) =>
              let entry_type := py_slice entry_line 17 18 in
              let obj_num := start_obj + i in
              if bytes_eqb entry_type (b "n") && bool_decide (xref !! obj_num = None)
              then <[obj_num := (entry_offset, entry_gen)]> xref
              else xref
          | _ => xref
          end
        else xref in
      table_entries n' data start_obj (i + 1) idx xref
  end.

Definition newline : bytes := [x0a].

(** The [while True] loop over the lines of the table: the index after the
    loop and the map.  Every round moves [idx] past a newline, so
    [S (length data)] rounds are never exceeded. *)
Fixpoint table_lines (fuel : nat) (data : bytes) (idx : Z) (xref : gmap Z (Z * Z))
  : res (Z * gmap Z (Z * Z)) :=
  match fuel with
  | O => Diverge
  | S fuel' =>
      let line_end := find data newline idx in
      if line_end =? -1 then Ret (idx, xref)
      else
        let line := strip (py_slice data idx line_end) in
        let idx := line_end + 1 in
        if startswith line (b "trailer") then Ret (idx, xref)
        else if bytes_eqb line [] || bytes_eqb line (b "xref")
        then table_lines fuel' data idx xref
        else
          match split line with
          | [part0; part1] =>
              match (start_obj ← int_of_bytes part0;
                     count ← int_of_bytes part1;
                     Ret (start_obj, count)) with
              | Ret (start_obj, count) =>
                  let '(idx, xref) :=
                    table_entries (Z.to_nat count) data start_obj 0 idx xref in
                  table_lines fuel' data idx xref
              | _ => table_lines fuel' data idx xref
              end
          | _ => table_lines fuel' data idx xref
          end
  end.

(** [re.search] of [trailer\s*<<(.+?)>>] with DOTALL: the group of the
    leftmost match. *)
Definition re_trailer_here (s : bytes) : option bytes :=
  if startswith s (b "trailer") then
    let s1 := drop 7 s in
    let s2 := drop (Z.to_nat (span_len is_space (latin1 s1))) s1 in
    if startswith s2 (b "<<") then
      match drop 2 s2 with
      | c :: body =>
          match find_in (b ">>") body with
          | Some k => Some (c :: take (Z.to_nat k) body)
          | None => None
          end
      | [] => None
      end
    else None
  else None.

Fixpoint re_trailer (s : bytes) : option bytes :=
  match re_trailer_here s with
  | Some group => Some group
  | None => match s with
            | [] => None
            | _ :: s' => re_trailer s'
            end
  end.

(** The first half of [_parse_xref_table], up to the end of the [while]
    loop: the index reached and the reader with the entries recorded. *)
Definition xref_table_entries (self : PdfReader) (offset : Z) : res (Z * PdfReader) :=
  let data := py_slice_from (_data self) offset in
  let idx := find data newline 4 + 1 in
  '(idx, xref) ← table_lines (S (length data)) data idx (_xref self);
  Ret (idx, set_xref self xref).

(** [_parse_xref_table]; [parse_xref] is the method it calls back for the
    previous section. *)
Definition _parse_xref_table (parse_xref : PdfReader -> Z -> res PdfReader)
  (self : PdfReader) (offset : Z) : res PdfReader :=
  let data := py_slice_from (_data self) offset in
  '(idx, self) ← xref_table_entries self offset;
  match re_trailer (py_slice_from data (idx - 100)) with
  | Some group =>
      let trailer_data := b "<<" ++ group ++ b ">>" in
      '(trailer, _) ← _parse_object (parse_fuel trailer_data) trailer_data 0;
      let self := set_trailer self (Some trailer) in
      if truthy trailer then
        prev ← obj_get trailer (u "/Prev");
        match prev with
        | Some prev =>
            if truthy prev
            then prev_offset ← int_value prev; parse_xref self prev_offset
            else Ret self
        | None => Ret self
        end
      else Ret self
  | None => Ret self
  end.

(** *** The cross-reference stream *)

(** A list comprehension [[f(x) for x in l]]. *)
Fixpoint map_res {A B} (f : A -> res B) (l : list A) : res (list B) :=
  match l with
  | [] => Ret []
  | x :: l' => y ← f x; ys ← map_res f l'; Ret (y :: ys)
  end.

(** [[(int(index[i].value), int(index[i + 1].value)) for i in range(0,
    len(index), 2)]] over the elements of an array. *)
Fixpoint index_pairs (index : list PdfObject) : res (list (Z * Z)) :=
  match index with
  | [] => Ret []
  | [first] => _ ← value_int first; Raise IndexError
  | first :: second :: index' =>
      start ← value_int first;
      count ← value_int second;
      rest ← index_pairs index';
      Ret ((start, count) :: rest)
  end.

(** The [for width in w] loop: the fields of one entry and the index after
    them. *)
Fixpoint read_fields (data : bytes) (w : list Z) (data_idx : Z) (fields : list Z)
  : list Z * Z :=
  match w with
  | [] => (fields, data_idx)
  | width :: w' =>
      if width =? 0 then read_fields data w' data_idx (fields ++ [0])
      else read_fields data w' (data_idx + width)
             (fields ++ [int_from_bytes (py_slice data data_idx (data_idx + width))])
  end.

(** [l[i]] for a list and a small non-negative index. *)
Definition py_index {A} (l : list A) (i : nat) : res A :=
  match l !! i with
  | Some x => Ret x
  | None => Raise IndexError
  end.

(** The [for i in range(count)] loop of one subsection; it stops at the
    first entry that does not fit in the data. *)
Fixpoint stream_entries (n : nat) (data : bytes) (w : list Z) (entry_size : Z)
  (start i data_idx : Z) (xref : gmap Z (Z * Z)) : res (Z * gmap Z (Z * Z)) :=
  match n with
  | O => Ret (data_idx, xref)
  | S n' =>
      if blen data <? data_idx + entry_size then Ret (data_idx, xref)
      else
        let '(fields, data_idx) := read_fields data w data_idx [] in
        let obj_num := start + i in
        w0 ← py_index w 0;
        entry_type ← (if 0 <? w0 then py_index fields 0 else Ret 1);
        xref ← (if (entry_type =? 1) && bool_decide (xref !! obj_num = None)
                then field1 ← py_index fields 1;
                     Ret (<[obj_num := (field1, default 0 (fields !! 2%nat))]> xref)
                else Ret xref);
        stream_entries n' data w entry_size start (i + 1) data_idx xref
  end.

(** The [for start, count in subsections] loop. *)
Fixpoint stream_subsections (subsections : list (Z * Z)) (data : bytes) (w : list Z)
  (entry_size data_idx : Z) (xref : gmap Z (Z * Z)) : res (Z * gmap Z (Z * Z)) :=
  match subsections with
  | [] => Ret (data_idx, xref)
  | (start, count) :: subsections' =>
      '(data_idx, xref) ←
        stream_entries (Z.to_nat count) data w entry_size start 0 data_idx xref;
      stream_subsections subsections' data w entry_size data_idx xref
  end.

(** The first half of [_parse_xref_stream], up to the end of the loop
    over the subsections: the stream dictionary and the reader with the
    trailer set and the entries recorded.  [fuel] is what is left for
    resolving the stream object. *)
Definition xref_stream_entries (fuel : nat) (self : PdfReader) (offset : Z)
  : res (dict * PdfReader) :=
  '(obj, _, self) ← _parse_indirect_object fuel self offset;
  match obj with
  | Some (StreamObject d raw decoded) =>
      '(data, obj) ← decode_data d raw decoded;
      let self := set_trailer self (Some obj) in
      w ← match dict_get d (u "/W") with
          | Some w => elems ← py_iter (Some w); map_res int_value elems
          | None => Ret [1; 2; 1]
          end;
      size ← match dict_get d (u "/Size") with
             | Some size => value_int size
             | None => Ret 0
             end;
      subsections ←
        match dict_get d (u "/Index") with
        | Some index =>
            if truthy index then
              match index with
              | ArrayObject l => index_pairs l
              | DictionaryObject _ | StreamObject _ _ _ => Raise KeyError
              | _ => Raise TypeError
              end
            else Ret [(0, size)]
        | None => Ret [(0, size)]
        end;
      let entry_size := fold_left Z.add w 0 in
      '(_, xref) ← stream_subsections subsections data w entry_size 0 (_xref self);
      Ret (d, set_xref self xref)
  | _ => Raise (PdfReadError "Invalid xref stream")
  end.

(** [_parse_xref_stream]. *)
Definition _parse_xref_stream (parse_xref : PdfReader -> Z -> res PdfReader)
  (fuel : nat) (self : PdfReader) (offset : Z) : res PdfReader :=
  '(d, self) ← xref_stream_entries fuel self offset;
  match dict_get d (u "/Prev") with
  | Some prev =>
      if truthy prev
      then prev_offset ← int_value prev; parse_xref self prev_offset
      else Ret self
  | None => Ret self
  end.

(** [_parse_xref]; [fuel] bounds the length of the chain of previous
    sections that is followed. *)
Fixpoint _parse_xref (fuel : nat) (self : PdfReader) (offset : Z) : res PdfReader :=
  match fuel with
  | O => Diverge
  | S fuel' =>
      let data := py_slice_from (_data self) offset in
      if startswith data (b "xref")
      then _parse_xref_table (_parse_xref fuel') self offset
      else _parse_xref_stream (_parse_xref fuel') fuel' self offset
  end.

(** The reader after the entries of the section at [offset] have been
    recorded, before its trailer is followed to an older section. *)
Definition xref_section (fuel : nat) (self : PdfReader) (offset : Z) : res PdfReader :=
  if startswith (py_slice_from (_data self) offset) (b "xref")
  then '(_, self) ← xref_table_entries self offset; Ret self
  else '(_, self) ← xref_stream_entries fuel self offset; Ret self.

(** [re.search] of [startxref\s+(\d+)]: the group of the leftmost match,
    as an integer. *)
Definition re_startxref_here (s : bytes) : option Z :=
  if startswith s (b "startxref") then
    let s1 := latin1 (drop 9 s) in
    w ← spaces1 s1;
    d ← digits1 (sdrop w s1);
    Some (digits_value (stake d (sdrop w s1)))
  else None.

Fixpoint re_startxref (s : bytes) : option Z :=
  match re_startxref_here s with
  | Some n => Some n
  | None => match s with
            | [] => None
            | _ :: s' => re_startxref s'
            end
  end.

(** [_parse]. *)
Definition _parse (fuel : nat) (self : PdfReader) : res PdfReader :=
  match re_startxref (py_slice_from (_data self) (-1024)) with
  | None => Raise (PdfReadError "Cannot find startxref")
  | Some startxref =>
      self ← _parse_xref fuel self startxref;
      match _trailer self with
      | Some trailer =>
          if truthy trailer then
            encrypt ← obj_get trailer (u "/Encrypt");
            if py_truthy encrypt then Ret (set_is_encrypted self true) else Ret self
          else Ret self
      | None => Ret self
      end
  end.

(** [decrypt]. *)
Definition decrypt (self : PdfReader) (password : str) : PdfReader :=
  if _is_encrypted self then set_decrypted self true else self.

(** The attributes as [__init__] sets them before parsing. *)
Definition new_reader (stream : bytes) : PdfReader :=
  {| _data := stream; _objects := ∅; _xref := ∅; _trailer := None;
     _is_encrypted := false; _decrypted := false; _pages := None;
     parse_calls := [] |}.

(** [__init__] for a [bytes] argument; [password] is [None] or a [str]. *)
Definition __init__ (fuel : nat) (stream : bytes) (password : option str)
  : res PdfReader :=
  let self := new_reader stream in
  match stream with
  | [] => Raise (EmptyFileError "PDF file is empty")
  | _ =>
      self ← _parse fuel self;
      match password with
      | Some (c :: password') =>
          if _is_encrypted self then Ret (decrypt self (c :: password')) else Ret self
      | _ => Ret self
      end
  end.

End Reader.

(** *** The page tree *)

(** [x == NameObject(name)]: only a name object with that name is equal. *)
Definition is_name (x : pyobj) (name : str) : bool :=
  match x, NameObject name with
  | Some (MkNameObject n), MkNameObject n' => str_eqb n n'
  | _, _ => false
  end.

(** [PageObject(pdf)] followed by [page.update(node)]. *)
Definition new_page (node : dict) : res PageObject :=
  items ← dict_update [(NameObject (u "Type"), NameObject (u "Page"))] node;
  Ret {| page_pdf := true; indirect_ref := None; page_items := items |}.

(** [_collect_pages]; [fuel] bounds the depth of the recursion. *)
Fixpoint _collect_pages (fuel : nat) (self : PdfReader) (node : pyobj) {struct fuel}
  : res PdfReader :=
  match fuel with
  | O => Diverge
  | S fuel' =>
      '(node, self) ← match node with
                      | Some (IndirectObject n g p) =>
                          get_object fuel' self (IndirectObject n g p)
                      | _ => Ret (node, self)
                      end;
      match node with
      | Some (DictionaryObject d) | Some (StreamObject d _ _) =>
          if negb (match d with [] => false | _ => true end) then Ret self
          else
            let node_type := dict_get d (u "/Type") in
            if is_name node_type (u "Page") then
              page ← new_page d;
              match _pages self with
              | Some collected => Ret (set_pages self (Some (collected ++ [page])))
              | None => Raise AttributeError
              end
            else if is_name node_type (u "Pages") then
              '(kids, self) ←
                match dict_get d (u "/Kids") with
                | Some (IndirectObject n g p) =>
                    '(kids, self) ← get_object fuel' self (IndirectObject n g p);
                    kids ← py_iter kids;
                    Ret (kids, self)
                | Some kids => kids ← py_iter (Some kids); Ret (kids, self)
                | None => Ret ([], self)
                end;
              for_each (fun self kid => _collect_pages fuel' self (Some kid)) kids self
            else Ret self
      | _ => Ret self
      end
  end.

(** The [pages] property: the list of pages and the reader after the call. *)
Definition pages (fuel : nat) (self : PdfReader) : res (list PageObject * PdfReader) :=
  match _pages self with
  | Some cached => Ret (cached, self)
  | None =>
      let self := set_pages self (Some []) in
      let done (self : PdfReader) := Ret (default [] (_pages self), self) in
      match _trailer self with
      | None => done self
      | Some trailer =>
          if negb (truthy trailer) then done self
          else
            root_ref ← obj_get trailer (u "/Root");
            match root_ref with
            | None => done self
            | Some root_ref =>
                if negb (truthy root_ref) then done self
                else
                  '(root, self) ← get_object fuel self root_ref;
                  match root with
                  | None => done self
                  | Some root =>
                      if negb (truthy root) then done self
                      else
                        pages_ref ← obj_get root (u "/Pages");
                        match pages_ref with
                        | None => done self
                        | Some pages_ref =>
                            if negb (truthy pages_ref) then done self
                            else
                              '(pages, self) ← get_object fuel self pages_ref;
                              if negb (py_truthy pages) then done self
                              else
                                self ← _collect_pages fuel self pages;
                                done self
                        end
                  end
            end
      end
  end.

(** [num_pages]. *)
Definition num_pages (fuel : nat) (self : PdfReader) : res (Z * PdfReader) :=
  '(pages, self) ← pages fuel self;
  Ret (blen pages, self).

(** *** The media box ([_page.py]) *)

(** [ref.get_object()] on an [IndirectObject]: resolved by the reader it is
    attached to, [None] without one. *)
Definition IndirectObject_get_object (fuel : nat) (self : PdfReader)
  (object_number generation : Z) (pdf : bool) : res (pyobj * PdfReader) :=
  if pdf then get_object fuel self (IndirectObject object_number generation pdf)
  else Ret (None, self).

Definition number_of (n : Z) : PdfObject := NumberObject (NInt n).

(** [RectangleObject(arr)]: the first four elements of a non-empty array,
    four zeros for a falsy argument; a truthy argument that is no array
    cannot be sliced. *)
Definition RectangleObject (arr : pyobj) : res PdfObject :=
  match arr with
  | Some (ArrayObject (x :: l)) => Ret (ArrayObject (take 4 (x :: l)))
  | Some arr =>
      if truthy arr then Raise TypeError
      else Ret (ArrayObject (replicate 4 (number_of 0)))
  | None => Ret (ArrayObject (replicate 4 (number_of 0)))
  end.

(** [RectangleObject([0, 0, 612, 792])]. *)
Definition us_letter : PdfObject :=
  ArrayObject [number_of 0; number_of 0; number_of 612; number_of 792].

(** The [mediabox] property of a page read by [self]. *)
Definition mediabox (fuel : nat) (self : PdfReader) (page : PageObject)
  : res (PdfObject * PdfReader) :=
  '(box, self) ←
    match dict_get (page_items page) (u "/MediaBox") with
    | None =>
        if page_pdf page then
          '(parent, self) ←
            match dict_get (page_items page) (u "/Parent") with
            | Some (IndirectObject n g p) => IndirectObject_get_object fuel self n g p
            | parent => Ret (parent, self)
            end;
          match parent with
          | Some parent =>
              if truthy parent
              then box ← obj_get parent (u "/MediaBox"); Ret (box, self)
              else Ret (None, self)
          | None => Ret (None, self)
          end
        else Ret (None, self)
    | Some box => Ret (Some box, self)
    end;
  match box with
  | None => Ret (us_letter, self)
  | Some (IndirectObject n g p) =>
      '(box, self) ← IndirectObject_get_object fuel self n g p;
      rect ← RectangleObject box;
      Ret (rect, self)
  | Some box => rect ← RectangleObject (Some box); Ret (rect, self)
  end.

(** ** Sample documents *)

(** The lines of a file, each ended by a newline. *)
Definition lines (l : list bytes) : bytes := concat (map (fun x => x ++ newline) l).

(** A minimal one-page document: a catalog, a page tree node, one page and
    its content stream, one classic cross-reference table whose offsets
    are those of the four objects, and the trailer. *)
Definition minimal_pdf : bytes :=
  lines
    [b "%PDF-1.4";
     b "1 0 obj";
     b "<< /Type /Catalog /Pages 2 0 R >>";
     b "endobj";
     b "2 0 obj";
     b "<< /Type /Pages /Kids [3 0 R] /Count 1 >>";
     b "endobj";
     b "3 0 obj";
     b "<< /Type /Page /Parent 2 0 R /MediaBox [0 0 612 792] /Contents 4 0 R >>";
     b "endobj";
     b "4 0 obj";
     b "<< /Length 10 >>";
     b "stream";
     b "(Hello) Tj";
     b "endstream";
     b "endobj";
     b "xref";
     b "0 5";
     b "0000000000 65535 f ";
     b "0000000009 00000 n ";
     b "0000000058 00000 n ";
     b "0000000115 00000 n ";
     b "0000000202 00000 n ";
     b "trailer";
     b "<< /Size 5 /Root 1 0 R >>";
     b "startxref";
     b "262";
     b "%%EOF"].

(** [minimal_pdf] after an incremental update.  A comment line pads the
    update so that the first section's startxref lies more than 1024 bytes
    before the end; a replacement for object 3 follows at offset 1427, then
    a second cross-reference section that lists the five objects again,
    whose trailer points back to the first section at 262 and names an
    /Encrypt dictionary. *)
Definition updated_pdf : bytes :=
  minimal_pdf ++
  lines
    [b "%" ++ replicate 1000 "x"%byte;
     b "3 0 obj";
     b "<< /Type /Page /Parent 2 0 R /MediaBox [0 0 200 300] /Contents 4 0 R >>";
     b "endobj";
     b "xref";
     b "0 5";
     b "0000000000 65535 f ";
     b "0000000009 00000 n ";
     b "0000000058 00000 n ";
     b "0000001427 00000 n ";
     b "0000000202 00000 n ";
     b "trailer";
     b "<< /Size 5 /Root 1 0 R /Prev 262 /Encrypt 5 0 R >>";
     b "startxref";
     b "1514";
     b "%%EOF"].

(** [minimal_pdf] after an incremental update that is not padded: the
    replacement for object 3 follows at offset 425 and the second
    cross-reference section at 512; its trailer points back to the first
    section at 262.  The file is 685 bytes long, so both startxref lines
    lie in its last 1024 bytes. *)
Definition short_update_pdf : bytes :=
  minimal_pdf ++
  lines
    [b "3 0 obj";
     b "<< /Type /Page /Parent 2 0 R /MediaBox [0 0 200 300] /Contents 4 0 R >>";
     b "endobj";
     b "xref";
     b "0 5";
     b "0000000000 65535 f ";
     b "0000000009 00000 n ";
     b "0000000058 00000 n ";
     b "0000000425 00000 n ";
     b "0000000202 00000 n ";
     b "trailer";
     b "<< /Size 5 /Root 1 0 R /Prev 262 >>";
     b "startxref";
     b "512";
     b "%%EOF"].

(** A decompressor that rejects every input.  The sample documents hold no
    filtered stream, so nothing computed from them depends on it. *)
Definition no_zlib : bytes -> option bytes := fun _ => None.

(** A stream dictionary naming the Flate filter, for a corrupt payload. *)
Definition flate_dict : dict := [(NameObject (u "Filter"), NameObject (u "FlateDecode"))].

(** Readers whose objects are already resolved. *)
Definition reader_of (objects : list (Z * PdfObject)) : PdfReader :=
  set_pages
    (set_objects (new_reader [])
                 (list_to_map (map (fun '(n, o) => (n, Some o)) objects)))
    (Some []).

Definition name_entry (key value : string) : PdfObject * PdfObject :=
  (NameObject (u key), NameObject (u value)).

Definition ref (n : Z) : PdfObject := IndirectObject n 0 true.

Definition rect (x0 y0 x1 y1 : Z) : PdfObject :=
  ArrayObject [number_of x0; number_of y0; number_of x1; number_of y1].


(** The same tree without the link back to the root. *)
Definition plain_tree : PdfReader :=
  reader_of
    [(2, DictionaryObject [name_entry "Type" "Pages";
                           (NameObject (u "Kids"), ArrayObject [ref 3])]);
     (3, DictionaryObject [name_entry "Type" "Page";
                           (NameObject (u "Parent"), ref 2)])].

(** A page (with a reader attached) that has no media box of its own and
    whose parent is object 2. *)
Definition boxless_page : PageObject :=
  {| page_pdf := true; indirect_ref := None;
     page_items := [name_entry "Type" "Page"; (NameObject (u "Parent"), ref 2)] |}.

(** Its parent defines the media box. *)
Definition parent_box : PdfReader :=
  reader_of
    [(1, DictionaryObject [name_entry "Type" "Pages";
                           (NameObject (u "Kids"), ArrayObject [ref 2])]);
     (2, DictionaryObject [name_entry "Type" "Pages";
                           (NameObject (u "Parent"), ref 1);
                           (NameObject (u "MediaBox"), rect 0 0 200 300)])].

(** Only its grandparent (object 1) defines the media box. *)
Definition grandparent_box : PdfReader :=
  reader_of
    [(1, DictionaryObject [name_entry "Type" "Pages";
                           (NameObject (u "Kids"), ArrayObject [ref 2]);
                           (NameObject (u "MediaBox"), rect 0 0 200 300)]);
     (2, DictionaryObject [name_entry "Type" "Pages";
                           (NameObject (u "Parent"), ref 1)])].

(** ** Predicates used in the statements *)

(** [s'] differs from [s] at most in the object cache and in the record of
    parses: what resolving an object may change. *)
Definition same_document (s s' : PdfReader) : Prop :=
  _data s' = _data s /\ _xref s' = _xref s /\ _trailer s' = _trailer s /\
  _is_encrypted s' = _is_encrypted s /\ _decrypted s' = _decrypted s /\
  _pages s' = _pages s.

(** Whether [trailer] is a truthy dictionary whose /Encrypt entry is
    truthy: the test [_parse] makes on [self._trailer]. *)
Definition trailer_names_encrypt (trailer : pyobj) : bool :=
  match trailer with
  | Some t => truthy t && match obj_get t (u "/Encrypt") with
                          | Ret e => py_truthy e
                          | _ => false
                          end
  | None => false
  end.

(** [s'] still binds [k] to [e] if [s] did. *)
Definition keeps_entry (k : Z) (e : Z * Z) (s s' : PdfReader) : Prop :=
  _xref s !! k = Some e -> _xref s' !! k = Some e.

(** [s'] has the data, the flags and the page list of [s]. *)
Definition keeps_flags (s s' : PdfReader) : Prop :=
  _data s' = _data s /\ _is_encrypted s' = _is_encrypted s /\
  _decrypted s' = _decrypted s /\ _pages s' = _pages s.

(** Whether an object is, or holds, an indirect reference. *)
Fixpoint has_indirect (o : PdfObject) : bool :=
  match o with
  | IndirectObject _ _ _ => true
  | ArrayObject l => existsb has_indirect l
  | DictionaryObject d | StreamObject d _ _ =>
      existsb (fun kv => has_indirect kv.1 || has_indirect kv.2) d
  | _ => false
  end.

(** No key and no value of [d] is or holds an indirect reference. *)
Definition clean_dict (d : dict) : Prop :=
  existsb (fun kv : PdfObject * PdfObject => has_indirect kv.1 || has_indirect kv.2) d = false.

(** [f] applied to the value of a computation that returns. *)
Definition res_map {A B} (f : A -> B) (m : res A) : res B := x ← m; Ret (f x).

(** The reader with every generation number of its cross-reference map
    replaced through [h]. *)
Definition map_generations (h : Z -> Z) (self : PdfReader) : PdfReader :=
  set_xref self ((fun e : Z * Z => (e.1, h e.2)) <$> _xref self).

(** What a node resolves to through the object cache. *)
Definition resolve (objects : gmap Z pyobj) (node : pyobj) : pyobj :=
  match node with
  | Some (IndirectObject n _ _) => default None (objects !! n)
  | _ => node
  end.

(** The elements [for x in o] yields, none when [o] is not iterable. *)
Definition iter_list (o : pyobj) : list PdfObject :=
  match py_iter o with
  | Ret l => l
  | _ => []
  end.

(** The kids [_collect_pages] descends into from [node]. *)
Definition tree_kids (objects : gmap Z pyobj) (node : pyobj) : list PdfObject :=
  match resolve objects node with
  | Some (DictionaryObject d) | Some (StreamObject d _ _) =>
      let node_type := dict_get d (u "/Type") in
      if is_name node_type (u "Page") then []
      else if is_name node_type (u "Pages")
           then iter_list (match dict_get d (u "/Kids") with
                           | Some kids => resolve objects (Some kids)
                           | None => Some (ArrayObject [])
                           end)
           else []
  | _ => []
  end.


(** Every object the cross-reference map knows is in the cache. *)
Definition resolved (self : PdfReader) : Prop :=
  forall n, _objects self !! n = None -> _xref self !! n = None.

(** The outcome is a value or an exception. *)
Definition terminates {A} (m : res A) : Prop := m <> Diverge.

(** [_collect_pages] returns or raises from every reader whose cache is
    [objects] and complete, and a reader it returns is such a reader. *)
Definition collect_ok (objects : gmap Z pyobj) (fuel : nat) (node : pyobj) : Prop :=
  forall s, _objects s = objects -> resolved s ->
    (exists s', _collect_pages fuel s node = Ret s' /\ _objects s' = objects /\ resolved s') \/
    (exists e, _collect_pages fuel s node = Raise e).

(** ** Further predicates *)

(** The keys of [d] are names with their leading slash, no two the same. *)
Definition name_keys (d : dict) : Prop :=
  NoDup (map fst d) /\ Forall (fun k => exists n, k = MkNameObject (47 :: n)) (map fst d).

(** ** More of the page ([_page.py]) *)

(** [page.rotate(angle)] for an [int] angle: the page with its /Rotate
    entry set (the source updates the page in place and returns it).  An
    entry that is no number counts as zero. *)
Definition rotate (page : PageObject) (angle : Z) : res PageObject :=
  current ← match dict_get (page_items page) (u "/Rotate") with
            | Some (NumberObject v) => int_of_number v
            | _ => Ret 0
            end;
  let new_angle := (current + angle) mod 360 in
  items ← dict_setitem (page_items page) (NameObject (u "Rotate")) (number_of new_angle);
  Ret {| page_pdf := page_pdf page; indirect_ref := indirect_ref page; page_items := items |}.

(** The body shared by [cropbox], [trimbox], [bleedbox] and [artbox]: the
    page's own entry under [key], else the box [fallback] gives. *)
Definition box_or (key : str)
  (fallback : nat -> PdfReader -> PageObject -> res (PdfObject * PdfReader))
  (fuel : nat) (self : PdfReader) (page : PageObject) : res (PdfObject * PdfReader) :=
  match dict_get (page_items page) key with
  | None => fallback fuel self page
  | Some (IndirectObject n g p) =>
      '(box, self) ← IndirectObject_get_object fuel self n g p;
      rect ← RectangleObject box;
      Ret (rect, self)
  | Some box => rect ← RectangleObject (Some box); Ret (rect, self)
  end.

Definition cropbox := box_or (u "/CropBox") mediabox.
Definition trimbox := box_or (u "/TrimBox") cropbox.
Definition bleedbox := box_or (u "/BleedBox") cropbox.
Definition artbox := box_or (u "/ArtBox") cropbox.

(** [create_blank_page(width, height)] for [int] dimensions: a page with no
    reader attached, its media box set through the setter (the value is a
    [RectangleObject] already) and an empty resource dictionary. *)
Definition create_blank_page (width height : Z) : res PageObject :=
  let page := {| page_pdf := false; indirect_ref := None;
                 page_items := [(NameObject (u "Type"), NameObject (u "Page"))] |} in
  items ← dict_setitem (page_items page) (NameObject (u "MediaBox"))
                       (ArrayObject (map number_of [0; 0; width; height]));
  items ← dict_setitem items (NameObject (u "Resources")) (DictionaryObject []);
  Ret {| page_pdf := false; indirect_ref := None; page_items := items |}.

(** ** Writing objects ([generic.py]) *)

(** The byte with code [c], for [0 <= c < 256]. *)
Definition byte_of (c : Z) : byte := default x00 (Byte.of_N (Z.to_N c)).

(** The UTF-8 bytes of one code point; a surrogate has none. *)
Definition utf8 (c : Z) : option (list Z) :=
  if c <? 0 then None
  else if c <? 128 then Some [c]
  else if c <? 2048 then Some [192 + c / 64; 128 + c mod 64]
  else if c <? 65536 then
    if (55296 <=? c) && (c <=? 57343) then None
    else Some [224 + c / 4096; 128 + (c / 64) mod 64; 128 + c mod 64]
  else if c <? 1114112 then
    Some [240 + c / 262144; 128 + (c / 4096) mod 64; 128 + (c / 64) mod 64; 128 + c mod 64]
  else None.

(** [text.encode()]: UTF-8; the [UnicodeEncodeError] a surrogate raises is
    a [ValueError]. *)
Fixpoint encode (text : str) : res bytes :=
  match text with
  | [] => Ret []
  | c :: text' =>
      match utf8 c with
      | Some l => rest ← encode text'; Ret (map byte_of l ++ rest)
      | None => Raise ValueError
      end
  end.

(** [text.replace(old, new)] for a one-character [old]. *)
Definition str_replace (old : Z) (new : str) (text : str) : str :=
  flat_map (fun c => if c =? old then new else [c]) text.

(** [text.rstrip(chars)] for a one-character [chars]. *)
Definition str_rstrip (c : Z) (text : str) : str :=
  rev (lstrip_with (fun x => x =? c) (rev text)).

Fixpoint uint_codes (d : Decimal.uint) : str :=
  match d with
  | Decimal.Nil => []
  | Decimal.D0 d => 48 :: uint_codes d
  | Decimal.D1 d => 49 :: uint_codes d
  | Decimal.D2 d => 50 :: uint_codes d
  | Decimal.D3 d => 51 :: uint_codes d
  | Decimal.D4 d => 52 :: uint_codes d
  | Decimal.D5 d => 53 :: uint_codes d
  | Decimal.D6 d => 54 :: uint_codes d
  | Decimal.D7 d => 55 :: uint_codes d
  | Decimal.D8 d => 56 :: uint_codes d
  | Decimal.D9 d => 57 :: uint_codes d
  end.

(** [str(n)] for an [int]: the decimal digits, after a minus sign when
    [n] is negative. *)
Definition str_of_int (n : Z) : str :=
  (if n <? 0 then [45] else []) ++ uint_codes (N.to_uint (Z.abs_N n)).

(** [data.hex()]: two lower-case digits a byte. *)
Definition hex_digit (n : Z) : Z := if n <? 10 then 48 + n else 87 + n.

Definition hex (data : bytes) : str :=
  flat_map (fun c => [hex_digit (code c / 16); hex_digit (code c mod 16)]) data.

Section Writer.

(** The text [f"{value:.6f}"] of the float read from a literal: the
    interpreter's rounding of the double to six decimals. *)
Variable format_float : str -> str.

(** [obj.write_to_stream(stream)] for an object of any class: the bytes the
    call writes.  [fuel] bounds the nesting depth.  A stream sets its
    /Length entry before it writes its dictionary; a dictionary key that is
    no name is passed to [NameObject], which wants a [str]. *)
Fixpoint write_to_stream (fuel : nat) (o : PdfObject) : res bytes :=
  match fuel with
  | O => Diverge
  | S fuel' =>
      let write_dictionary (d : dict) : res bytes :=
        out ← for_each (fun (out : bytes) (item : PdfObject * PdfObject) =>
                          k ← match item.1 with
                              | MkNameObject name => encode name
                              | _ => Raise AttributeError
                              end;
                          v ← write_to_stream fuel' item.2;
                          Ret (out ++ newline ++ k ++ b " " ++ v))
                       d (b "<<");
        Ret (out ++ newline ++ b ">>") in
      match o with
      | NullObject => Ret (b "null")
      | BooleanObject value => Ret (if value then b "true" else b "false")
      | NumberObject (NInt value) => encode (str_of_int value)
      | NumberObject (NReal literal) =>
          encode (str_rstrip 46 (str_rstrip 48 (format_float literal)))
      | MkNameObject name => encode name
      | StringObject value =>
          let escaped := str_replace 92 [92; 92] value in
          let escaped := str_replace 40 [92; 40] escaped in
          let escaped := str_replace 41 [92; 41] escaped in
          encode ([40] ++ escaped ++ [41])
      | HexStringObject value =>
          data ← encode value;
          encode ([60] ++ hex data ++ [62])
      | ArrayObject elems =>
          out ← for_each (fun (acc : bytes * Z) (item : PdfObject) =>
                            w ← write_to_stream fuel' item;
                            Ret (acc.1 ++ (if 0 <? acc.2 then b " " else []) ++ w,
                                 acc.2 + 1))
                         elems (b "[", 0);
          Ret (out.1 ++ b "]")
      | DictionaryObject items => write_dictionary items
      | StreamObject items data _ =>
          items ← dict_setitem items (NameObject (u "Length")) (number_of (blen data));
          out ← write_dictionary items;
          Ret (out ++ newline ++ b "stream" ++ newline ++ data ++ newline ++ b "endstream")
      | IndirectObject object_number generation _ =>
          encode (str_of_int object_number ++ [32] ++ str_of_int generation ++ [32; 82])
      end
  end.

End Writer.

(** ** Objects that survive writing and reading *)

(** A code of the ASCII range. *)
Definition is_ascii (c : Z) : bool := (0 <=? c) && (c <? 128).

(** A name made of a slash and ASCII characters of which none ends a name. *)
Definition plain_name (o : PdfObject) : bool :=
  match o with
  | MkNameObject (47 :: name) =>
      forallb (fun c => is_ascii c && negb (byte_in c name_end)) name
  | _ => false
  end.

Definition key_name (o : PdfObject) : str :=
  match o with
  | MkNameObject name => name
  | _ => []
  end.

(** The objects made of null, booleans, integers, plain names, ASCII
    strings, and arrays and dictionaries of such, the dictionaries keyed
    by plain names of which no two are the same. *)
Fixpoint plain (o : PdfObject) : bool :=
  match o with
  | NullObject | BooleanObject _ | NumberObject (NInt _) => true
  | MkNameObject _ => plain_name o
  | StringObject value | HexStringObject value => forallb is_ascii value
  | ArrayObject elems => forallb plain elems
  | DictionaryObject items =>
      forallb (fun item => plain_name item.1 && plain item.2) items
      && bool_decide (NoDup (map (fun item => key_name item.1) items))
  | _ => false
  end.

(** What may follow the text of an object: nothing, or a byte that ends a
    name (white space or a delimiter). *)
Definition ends_token (rest : bytes) : Prop :=
  match rest with
  | [] => True
  | c :: _ => byte_in (code c) name_end = true
  end.

(** The outcome [r] of a parse with its index moved by [n]. *)
Definition shift (n : Z) (r : res (PdfObject * Z)) : res (PdfObject * Z) :=
  '(o, e) ← r; Ret (o, n + e).

(** The text [w] reads back as [o]: it starts with a byte that is neither
    white space nor a closing bracket, and whatever token-ending text
    follows it, the parser returns [o] and the index after [w] at every
    depth from some depth on. *)
Definition reads_back (o : PdfObject) (w : bytes) : Prop :=
  (exists c, at_ w 0 = Some c /\ byte_in c pdf_ws = false /\ c <> 93) /\
  forall rest, ends_token rest ->
    exists depth, forall fuel, (depth <= fuel)%nat ->
      _parse_object fuel (w ++ rest) 0 = Ret (o, blen w).

(** ** More of the reader ([_reader.py]) *)

(** What one 20-byte line of a cross-reference subsection stands for: the
    offset and generation of an in-use entry whose two numbers parse; the
    body of the [for i in range(count)] loop without the map. *)
Definition table_entry (entry_line : bytes) : option (Z * Z) :=
  if 18 <=? blen entry_line then
    match (entry_offset ← int_of_bytes (py_slice_to entry_line 10);
           entry_gen ← int_of_bytes (py_slice entry_line 11 16);
           Ret (entry_offset, entry_gen)) with
    | Ret entry =>
        if bytes_eqb (py_slice entry_line 17 18) (b "n") then Some entry else None
    | _ => None
    end
  else None.

(** The [metadata] property: the items of the [DocumentInformation] it
    returns, and the reader after the call. *)
Definition metadata (fuel : nat) (self : PdfReader) : res (dict * PdfReader) :=
  match _trailer self with
  | None => Ret ([], self)
  | Some trailer =>
      if negb (truthy trailer) then Ret ([], self)
      else
        info_ref ← obj_get trailer (u "/Info");
        match info_ref with
        | None => Ret ([], self)
        | Some info_ref =>
            if negb (truthy info_ref) then Ret ([], self)
            else
              '(info, self) ← get_object fuel self info_ref;
              match info with
              | None => Ret ([], self)
              | Some info =>
                  if negb (truthy info) then Ret ([], self)
                  else doc_info ← update_from info; Ret (doc_info, self)
              end
        end
  end.

(** The [outline] property: the list it returns and the reader after the
    call. *)
Definition outline (fuel : nat) (self : PdfReader) : res (list PdfObject * PdfReader) :=
  match _trailer self with
  | None => Ret ([], self)
  | Some trailer =>
      if negb (truthy trailer) then Ret ([], self)
      else
        root_ref ← obj_get trailer (u "/Root");
        match root_ref with
        | None => Ret ([], self)
        | Some root_ref =>
            if negb (truthy root_ref) then Ret ([], self)
            else
              '(root, self) ← get_object fuel self root_ref;
              match root with
              | None => Ret ([], self)
              | Some root =>
                  if negb (truthy root) then Ret ([], self)
                  else
                    outlines_ref ← obj_get root (u "/Outlines");
                    if negb (py_truthy outlines_ref) then Ret ([], self)
                    else Ret ([], self)
              end
        end
  end.

(** ** Readers that hold no reference *)

(** How deep arrays and dictionaries nest in an object. *)
Fixpoint nesting (o : PdfObject) : nat :=
  match o with
  | ArrayObject l => S (fold_right (fun x acc => Nat.max (nesting x) acc) 0%nat l)
  | DictionaryObject d | StreamObject d _ _ =>
      S (fold_right (fun item acc => Nat.max (Nat.max (nesting item.1) (nesting item.2)) acc)
                    0%nat d)
  | _ => 0%nat
  end.

(** Neither the trailer nor a cached object is or holds an indirect
    reference. *)
Definition reference_free (self : PdfReader) : Prop :=
  (forall n o, _objects self !! n = Some (Some o) -> has_indirect o = false) /\
  (forall t, _trailer self = Some t -> has_indirect t = false).

(** ** The content of a page ([_page.py]) *)

(** [sep.join(parts)]. *)
Fixpoint join (sep : bytes) (parts : list bytes) : bytes :=
  match parts with
  | [] => []
  | [part] => part
  | part :: parts' => part ++ sep ++ join sep parts'
  end.

Section Content.

Variable zlib_decompress : bytes -> option bytes.

(** What [extract_text] makes of a non-empty content stream: the decoding
    and the regular expressions over the text operators. *)
Variable text_of_content : bytes -> str.

(** [_get_content_stream]: the decoded bytes and the reader after the
    references have been resolved.  The decoded bytes a stream caches in
    itself are not written back to the reader's copy of the stream: a
    later call decodes the same bytes again. *)
Definition _get_content_stream (fuel : nat) (self : PdfReader) (page : PageObject)
  : res (bytes * PdfReader) :=
  match dict_get (page_items page) (u "/Contents") with
  | None => Ret ([], self)
  | Some contents =>
      '(contents, self) ←
        match contents with
        | IndirectObject n g p => IndirectObject_get_object fuel self n g p
        | _ => Ret (Some contents, self)
        end;
      match contents with
      | Some (StreamObject d raw decoded) =>
          '(data, _) ← decode_data zlib_decompress d raw decoded;
          Ret (data, self)
      | Some (ArrayObject elems) =>
          '(parts, self) ←
            for_each (fun (acc : list bytes * PdfReader) (item : PdfObject) =>
                        '(item, self) ←
                          match item with
                          | IndirectObject n g p =>
                              IndirectObject_get_object fuel acc.2 n g p
                          | _ => Ret (Some item, acc.2)
                          end;
                        match item with
                        | Some (StreamObject d raw decoded) =>
                            '(data, _) ← decode_data zlib_decompress d raw decoded;
                            Ret (acc.1 ++ [data], self)
                        | _ => Ret (acc.1, self)
                        end)
                     elems ([], self);
          Ret (join newline parts, self)
      | _ => Ret ([], self)
      end
  end.

(** [extract_text] without a visitor: the empty string for an empty
    content stream. *)
Definition extract_text (fuel : nat) (self : PdfReader) (page : PageObject)
  : res (str * PdfReader) :=
  '(content, self) ← _get_content_stream fuel self page;
  match content with
  | [] => Ret ([], self)
  | _ => Ret (text_of_content content, self)
  end.

End Content.

(** Whether an object is, or holds, a stream. *)
Fixpoint has_stream (o : PdfObject) : bool :=
  match o with
  | StreamObject _ _ _ => true
  | ArrayObject l => existsb has_stream l
  | DictionaryObject d => existsb (fun kv => has_stream kv.1 || has_stream kv.2) d
  | _ => false
  end.

(** Neither a key nor a value of [d] is or holds a reference or a stream. *)
Definition inert_dict (d : dict) : Prop :=
  clean_dict d /\ existsb (fun kv : PdfObject * PdfObject => has_stream kv.1 || has_stream kv.2) d = false.

(** An object as the reader caches them: a stream whose dictionary is
    inert, or an object that holds neither a reference nor a stream. *)
Definition inert_object (o : PdfObject) : Prop :=
  match o with
  | StreamObject d _ _ => inert_dict d
  | _ => has_indirect o = false /\ has_stream o = false
  end.

(** Every cached object is such an object, and every page collected so
    far has an inert dictionary. *)
Definition inert_reader (self : PdfReader) : Prop :=
  (forall n o, _objects self !! n = Some (Some o) -> inert_object o) /\
  (forall collected, _pages self = Some collected ->
                     Forall (fun page => inert_dict (page_items page)) collected).

(** A document whose page stands inline in the /Kids array of the page
    tree node, with its content stream in object 4. *)
Definition inline_page_pdf : bytes :=
  lines
    [b "%PDF-1.4";
     b "1 0 obj";
     b "<< /Type /Catalog /Pages 2 0 R >>";
     b "endobj";
     b "2 0 obj";
     b "<< /Type /Pages /Kids [<< /Type /Page /Contents 4 0 R >>] /Count 1 >>";
     b "endobj";
     b "3 0 obj";
     b "<< /Title (Sample) >>";
     b "endobj";
     b "4 0 obj";
     b "<< /Length 10 >>";
     b "stream";
     b "(Hello) Tj";
     b "endstream";
     b "endobj";
     b "xref";
     b "0 5";
     b "0000000000 65535 f ";
     b "0000000009 00000 n ";
     b "0000000058 00000 n ";
     b "0000000143 00000 n ";
     b "0000000180 00000 n ";
     b "trailer";
     b "<< /Size 5 /Root 1 0 R >>";
     b "startxref";
     b "240";
     b "%%EOF"].

(** * Properties *)

(** ** The result type *)

Lemma bind_Ret {A B} (m : res A) (k : A -> res B) (r : B) :
  m ≫= k = Ret r -> exists a, m = Ret a /\ k a = Ret r.
Proof. destruct m as [a| |]; simpl; intros H; [eauto | discriminate..]. Qed.

Lemma bind_Diverge {A B} (m : res A) (k : A -> res B) :
  m ≫= k = Diverge -> m = Diverge \/ exists a, m = Ret a /\ k a = Diverge.
Proof. destruct m as [a| |]; simpl; intros H; [eauto | discriminate | auto]. Qed.

(** Inversion of a successful monadic computation in hypothesis [H]. *)
Ltac inv_bind H :=
  let a := fresh "a" in
  let Ha := fresh "Ha" in
  apply bind_Ret in H; destruct H as (a & Ha & H).

(** Case analysis along a computation known to return. *)
Ltac res_inv :=
  repeat (simplify_eq;
          match goal with
          | H : _ ≫= _ = Ret _ |- _ => inv_bind H
          | H : (if ?c then _ else _) = Ret _ |- _ => destruct c eqn:?
          | H : match ?x with _ => _ end = Ret _ |- _ => destruct x eqn:?
          end); simplify_eq.

(** ** Conversion of numbers *)

(** [int] of a number returns or raises [OverflowError]. *)
Lemma int_of_number_returns v : int_of_number v <> Diverge.
Proof.
  destruct v as [z | lit]; simpl; [discriminate |].
  unfold int_of_float. repeat case_match; discriminate.
Qed.

Lemma int_of_number_raises v e :
  int_of_number v = Raise e -> e = OverflowError /\ exists lit, v = NReal lit.
Proof.
  destruct v as [z | lit]; simpl; [discriminate |].
  intros H. split; [| eauto]. unfold int_of_float in H. repeat case_match; congruence.
Qed.

(** ** The object parser *)

(** C1: at the bare reference [1 0 R] the object parser returns the leading
    digits as a plain number and stops after them (index 1); it does not
    return an indirect reference. *)
Theorem parse_object_bare_reference :
  _parse_object (parse_fuel (b "1 0 R")) (b "1 0 R") 0
  = Ret (NumberObject (NInt 1), 1).
Proof. vm_compute. reflexivity. Qed.

(** ** Opening the minimal document *)

(** C2: opening [minimal_pdf] succeeds and its [pages] list is empty: the
    kid [3 0 R] was read as the numbers 3 and 0 and a null, none of which
    is a dictionary, so no page is collected. *)
Theorem minimal_pdf_pages :
  forall zlib,
    (self ← __init__ zlib 10 minimal_pdf None;
     '(found, _) ← pages 10 self;
     Ret found) = Ret [].
Proof. intros zlib. vm_compute. reflexivity. Qed.

(** ** Construction errors *)

(** C5 (counterexample): a buffer that is not empty and holds a startxref
    token whose target is neither a table nor a stream object; construction
    raises [PdfReadError], whatever the fuel it never returns a reader. *)
Lemma init_invalid_xref_stream_raises :
  b "startxref 0" <> [] /\
  re_startxref (py_slice_from (b "startxref 0") (-1024)) = Some 0 /\
  __init__ no_zlib 2 (b "startxref 0") None = Raise (PdfReadError "Invalid xref stream") /\
  ~ exists fuel self, __init__ no_zlib fuel (b "startxref 0") None = Ret self.
Proof.
  split; [discriminate |].
  split; [vm_compute; reflexivity |].
  split; [vm_compute; reflexivity |].
  intros (fuel & self & H).
  destruct fuel as [| [| fuel]]; vm_compute in H; discriminate.
Qed.

(** A trailer whose /Prev is a string that is no number. *)
Example init_bad_prev_raises :
  forall zlib,
    __init__ zlib 5 (lines [b "xref"; b "trailer"; b "<< /Prev (x) >>"; b "startxref"; b "0"]) None
    = Raise ValueError.
Proof. intros zlib. vm_compute. reflexivity. Qed.

(** C5 (amended): construction raises [EmptyFileError] for an empty
    buffer, [PdfReadError] when no startxref token is found in the last 1024
    bytes, and [PdfReadError] again when the bytes at the startxref offset
    do not start a classic table and the object parsed there is no stream. *)
Theorem init_failures (zlib : bytes -> option bytes) (fuel : nat) (stream : bytes)
  (password : option str) :
  (stream = [] ->
   __init__ zlib fuel stream password = Raise (EmptyFileError "PDF file is empty")) /\
  (stream <> [] ->
   re_startxref (py_slice_from stream (-1024)) = None ->
   __init__ zlib fuel stream password = Raise (PdfReadError "Cannot find startxref")) /\
  (forall offset obj stop self,
     stream <> [] ->
     re_startxref (py_slice_from stream (-1024)) = Some offset ->
     startswith (py_slice_from stream offset) (b "xref") = false ->
     _parse_indirect_object fuel (new_reader stream) offset = Ret (obj, stop, self) ->
     (forall d raw decoded, obj <> Some (StreamObject d raw decoded)) ->
     __init__ zlib (S fuel) stream password = Raise (PdfReadError "Invalid xref stream")).
Proof.
  split; [| split].
  - intros ->. reflexivity.
  - intros Hne Hre. destruct stream as [| c stream]; [congruence |].
    unfold __init__, _parse. simpl _data. rewrite Hre. reflexivity.
  - intros offset obj stop self Hne Hre Hx Hobj Hstream.
    destruct stream as [| c stream]; [congruence |].
    unfold __init__, _parse. simpl _data. rewrite Hre.
    unfold _parse_xref. simpl _data. rewrite Hx.
    unfold _parse_xref_stream, xref_stream_entries. rewrite Hobj. simpl.
    destruct obj as [[]|]; try reflexivity.
    exfalso. eapply Hstream. reflexivity.
Qed.

Lemma init_failures_witness :
  __init__ no_zlib 2 (b "startxref 0") None = Raise (PdfReadError "Invalid xref stream").
Proof.
  refine (proj2 (proj2 (init_failures no_zlib 1 (b "startxref 0") None))
            0 None 0 (log_parse (new_reader (b "startxref 0")) 0) _ _ _ _ _).
  - discriminate.
  - vm_compute. reflexivity.
  - vm_compute. reflexivity.
  - vm_compute. reflexivity.
  - intros d raw decoded. discriminate.
Defined.

(** ** Stream filters *)

Lemma apply_filters_invalid (zlib : bytes -> option bytes) (raw : bytes) :
  zlib raw = None -> forall filters, apply_filters zlib filters raw = raw.
Proof.
  intros Hz filters. induction filters as [| f filters IH]; simpl; [reflexivity |].
  destruct (is_flate f); [rewrite Hz |]; exact IH.
Qed.

(** C7: a stream whose /Filter is the name /FlateDecode or /Fl (or an array
    of filters) and whose raw bytes the decompressor rejects decodes to its
    raw bytes; the call returns (no exception) and caches them, so a second
    call returns them again. *)
Theorem decode_data_flate_fallback (zlib : bytes -> option bytes) (d : dict)
  (raw : bytes) (filters : PdfObject) :
  dict_get d (u "/Filter") = Some filters ->
  (filters = NameObject (u "FlateDecode") \/ filters = NameObject (u "Fl") \/
   exists l, filters = ArrayObject l) ->
  zlib raw = None ->
  decode_data zlib d raw None = Ret (raw, StreamObject d raw (Some raw)) /\
  decode_data zlib d raw (Some raw) = Ret (raw, StreamObject d raw (Some raw)).
Proof.
  intros Hget Hf Hz. split; [| reflexivity].
  unfold decode_data. rewrite Hget.
  destruct Hf as [-> | [-> | [l ->]]].
  - simpl. rewrite Hz. reflexivity.
  - simpl. rewrite Hz. reflexivity.
  - simpl. destruct (bool_decide (l = [])); simpl; [reflexivity |].
    rewrite (apply_filters_invalid zlib raw Hz). reflexivity.
Qed.

Lemma decode_data_flate_fallback_witness :
  decode_data no_zlib flate_dict (b "corrupt") None
  = Ret (b "corrupt", StreamObject flate_dict (b "corrupt") (Some (b "corrupt"))).
Proof.
  refine (proj1 (decode_data_flate_fallback no_zlib flate_dict (b "corrupt")
                   (NameObject (u "FlateDecode")) _ _ _)).
  - reflexivity.
  - left. reflexivity.
  - reflexivity.
Defined.

(** ** Resolving objects leaves the document alone *)

Lemma same_document_refl s : same_document s s.
Proof. repeat split. Qed.

Lemma same_document_trans s1 s2 s3 :
  same_document s1 s2 -> same_document s2 s3 -> same_document s1 s3.
Proof.
  unfold same_document. intros (?&?&?&?&?&?) (?&?&?&?&?&?). repeat split; congruence.
Qed.

Lemma resolve_same_document fuel :
  (forall self ref r self',
     get_object fuel self ref = Ret (r, self') -> same_document self self') /\
  (forall self offset r e self',
     _parse_indirect_object fuel self offset = Ret (r, e, self') ->
     same_document self self').
Proof.
  induction fuel as [| fuel [IHg IHp]]; [split; intros; discriminate |].
  split.
  - intros self ref r self' H. simpl in H.
    inv_bind H.
    destruct (_objects self !! a); [simplify_eq; apply same_document_refl |].
    destruct (_xref self !! a) as [[offset gen] |]; [| simplify_eq; apply same_document_refl].
    inv_bind H. destruct a0 as [[obj e] s1]. simplify_eq.
    apply IHp in Ha0. destruct Ha0 as (?&?&?&?&?&?). repeat split; assumption.
  - intros self offset r e self' H. simpl in H.
    destruct (re_header _) as [[[obj_num gen_num] idx] |]; [| simplify_eq; repeat split].
    inv_bind H. destruct a as [obj idx1].
    destruct (re_stream _); [| simplify_eq; repeat split].
    inv_bind H. destruct a as [len s1]. inv_bind H. destruct a as [obj' idx2]. simplify_eq.
    assert (Hs : same_document (log_parse self offset) self').
    { clear Ha Ha1.
      repeat match type of Ha0 with
             | (if ?c then _ else _) = _ => destruct c
             | match ?x with _ => _ end = _ => destruct x
             | _ ≫= _ = _ => let a := fresh in let Hb := fresh in
                             apply bind_Ret in Ha0; destruct Ha0 as (a & Hb & Ha0);
                             try (destruct a as [? ?]; apply IHg in Hb)
             end;
        first [ discriminate
              | injection Ha0 as <- <-; first [apply same_document_refl | assumption] ]. }
    destruct Hs as (?&?&?&?&?&?). repeat split; assumption.
Qed.

(** ** Cross-reference precedence *)

Lemma table_entries_mono n :
  forall data start i idx (xref : gmap Z (Z * Z)) k e,
    xref !! k = Some e -> (table_entries n data start i idx xref).2 !! k = Some e.
Proof.
  induction n as [| n IH]; intros data start i idx xref k e Hk; simpl; [exact Hk |].
  apply IH.
  destruct (18 <=? blen (py_slice data idx (idx + 20))); [| exact Hk].
  destruct (_ ≫= _) as [[o g] | |]; try exact Hk.
  destruct (_ && _) eqn:Hc; [| exact Hk].
  apply andb_true_iff in Hc as [_ Hn]. apply bool_decide_eq_true in Hn.
  rewrite lookup_insert_ne; [exact Hk | congruence].
Qed.

Lemma table_lines_mono fuel :
  forall data idx (xref : gmap Z (Z * Z)) idx' xref' k e,
    table_lines fuel data idx xref = Ret (idx', xref') ->
    xref !! k = Some e -> xref' !! k = Some e.
Proof.
  induction fuel as [| fuel IH]; intros data idx xref idx' xref' k e H Hk;
    simpl in H; [discriminate |].
  repeat case_match; simplify_eq; eauto.
  eapply IH; [eassumption |].
  match goal with
  | E : table_entries ?n ?d ?s ?i ?x ?m = (_, ?m') |- ?m' !! _ = _ =>
      pose proof (table_entries_mono n d s i x m _ _ Hk) as Hm;
      rewrite E in Hm; exact Hm
  end.
Qed.

Lemma stream_entries_mono n :
  forall data w size start i data_idx (xref : gmap Z (Z * Z)) data_idx' xref' k e,
    stream_entries n data w size start i data_idx xref = Ret (data_idx', xref') ->
    xref !! k = Some e -> xref' !! k = Some e.
Proof.
  induction n as [| n IH];
    intros data w size start i data_idx xref data_idx' xref' k e H Hk;
    simpl in H; [congruence |].
  destruct (blen data <? data_idx + size); [congruence |].
  destruct (read_fields data w data_idx []) as [fields di].
  inv_bind H. inv_bind H. inv_bind H.
  eapply IH; [eassumption |].
  destruct (_ && _) eqn:Hc; [| congruence].
  inv_bind Ha1. simplify_eq.
  apply andb_true_iff in Hc as [_ Hn]. apply bool_decide_eq_true in Hn.
  rewrite lookup_insert_ne; [exact Hk | congruence].
Qed.

Lemma stream_subsections_mono subs :
  forall data w size data_idx (xref : gmap Z (Z * Z)) data_idx' xref' k e,
    stream_subsections subs data w size data_idx xref = Ret (data_idx', xref') ->
    xref !! k = Some e -> xref' !! k = Some e.
Proof.
  induction subs as [| [start count] subs IH];
    intros data w size data_idx xref data_idx' xref' k e H Hk;
    simpl in H; [congruence |].
  inv_bind H. destruct a as [di x]. eapply IH; [eassumption |].
  eapply stream_entries_mono; eassumption.
Qed.

(** ** Walking the chain of sections *)

Section ChainInvariant.

Variable zlib : bytes -> option bytes.
Variable R : PdfReader -> PdfReader -> Prop.
Hypothesis R_refl : forall s, R s s.
Hypothesis R_trans : forall s1 s2 s3, R s1 s2 -> R s2 s3 -> R s1 s3.
Hypothesis R_resolve : forall s s', same_document s s' -> R s s'.
Hypothesis R_trailer : forall s t, R s (set_trailer s t).
Hypothesis R_xref :
  forall s x, (forall k e, _xref s !! k = Some e -> x !! k = Some e) -> R s (set_xref s x).

Lemma xref_table_entries_R self offset idx self' :
  xref_table_entries self offset = Ret (idx, self') -> R self self'.
Proof.
  unfold xref_table_entries. intros H. inv_bind H. destruct a as [i x]. simplify_eq.
  apply R_xref. intros k e Hk. eapply table_lines_mono; eassumption.
Qed.

Lemma xref_stream_entries_R fuel self offset d self' :
  xref_stream_entries zlib fuel self offset = Ret (d, self') -> R self self'.
Proof.
  unfold xref_stream_entries. intros H. inv_bind H. destruct a as [[obj stop] s1].
  apply (proj2 (resolve_same_document fuel)) in Ha.
  destruct obj as [[]|]; try discriminate.
  inv_bind H. destruct a as [data obj]. inv_bind H. inv_bind H. inv_bind H. inv_bind H.
  destruct a2 as [di x]. simplify_eq.
  eapply R_trans; [apply R_resolve; exact Ha |].
  eapply R_trans; [apply (R_trailer s1 (Some obj)) |].
  apply (R_xref (set_trailer s1 (Some obj))).
  intros k e Hk. eapply stream_subsections_mono; eassumption.
Qed.

Lemma table_tail_R (rec : PdfReader -> Z -> res PdfReader) data idx s1 self' :
  (forall s o s', rec s o = Ret s' -> R s s') ->
  match re_trailer (py_slice_from data (idx - 100)) with
  | Some group =>
      let trailer_data := b "<<" ++ group ++ b ">>" in
      '(trailer, _) ← _parse_object (parse_fuel trailer_data) trailer_data 0;
      let self := set_trailer s1 (Some trailer) in
      if truthy trailer then
        prev ← obj_get trailer (u "/Prev");
        match prev with
        | Some prev =>
            if truthy prev
            then prev_offset ← int_value prev; rec self prev_offset
            else Ret self
        | None => Ret self
        end
      else Ret self
  | None => Ret s1
  end = Ret self' ->
  R s1 self'.
Proof.
  intros Hrec H.
  destruct (re_trailer _) as [group |]; [| simplify_eq; apply R_refl].
  cbv zeta in H. inv_bind H. destruct a as [trailer stop].
  destruct (truthy trailer); [| simplify_eq; apply R_trailer].
  inv_bind H. destruct a as [prev |]; [| simplify_eq; apply R_trailer].
  destruct (truthy prev); [| simplify_eq; apply R_trailer].
  inv_bind H. eapply R_trans; [apply R_trailer | eapply Hrec; eassumption].
Qed.

Lemma stream_tail_R (rec : PdfReader -> Z -> res PdfReader) (d : dict) s1 self' :
  (forall s o s', rec s o = Ret s' -> R s s') ->
  match dict_get d (u "/Prev") with
  | Some prev =>
      if truthy prev
      then prev_offset ← int_value prev; rec s1 prev_offset
      else Ret s1
  | None => Ret s1
  end = Ret self' ->
  R s1 self'.
Proof.
  intros Hrec H.
  destruct (dict_get _ _) as [prev |]; [| simplify_eq; apply R_refl].
  destruct (truthy prev); [| simplify_eq; apply R_refl].
  inv_bind H. eapply Hrec; eassumption.
Qed.

Lemma parse_xref_R fuel :
  forall self offset self', _parse_xref zlib fuel self offset = Ret self' -> R self self'.
Proof.
  induction fuel as [| fuel IH]; intros self offset self' H; simpl in H; [discriminate |].
  destruct (startswith _ _).
  - unfold _parse_xref_table in H. inv_bind H. destruct a as [idx s1].
    eapply R_trans; [eapply xref_table_entries_R; eassumption |].
    eapply table_tail_R; [| exact H]. exact IH.
  - unfold _parse_xref_stream in H. inv_bind H. destruct a as [d s1].
    eapply R_trans; [eapply xref_stream_entries_R; eassumption |].
    eapply stream_tail_R; [| exact H]. exact IH.
Qed.

Lemma section_then_chain_R fuel self offset newest self' :
  xref_section zlib fuel self offset = Ret newest ->
  _parse_xref zlib (S fuel) self offset = Ret self' ->
  R newest self'.
Proof.
  intros Hsec H. simpl in H. unfold xref_section in Hsec.
  destruct (startswith _ _).
  - unfold _parse_xref_table in H. inv_bind H. destruct a as [idx s1].
    rewrite Ha in Hsec. simpl in Hsec. simplify_eq.
    eapply table_tail_R; [| exact H]. apply parse_xref_R.
  - unfold _parse_xref_stream in H. inv_bind H. destruct a as [d s1].
    rewrite Ha in Hsec. simpl in Hsec. simplify_eq.
    eapply stream_tail_R; [| exact H]. apply parse_xref_R.
Qed.

End ChainInvariant.

Lemma keeps_entry_chain zlib k e fuel self offset self' :
  _parse_xref zlib fuel self offset = Ret self' -> keeps_entry k e self self'.
Proof.
  apply (parse_xref_R zlib (keeps_entry k e)); unfold keeps_entry.
  - auto.
  - auto.
  - intros s s' (_ & Hx & _). rewrite Hx. auto.
  - intros s t. simpl. auto.
  - intros s x Hx. simpl. auto.
Qed.

Lemma keeps_flags_chain zlib fuel self offset self' :
  _parse_xref zlib fuel self offset = Ret self' -> keeps_flags self self'.
Proof.
  apply (parse_xref_R zlib keeps_flags); unfold keeps_flags.
  - auto.
  - intros s1 s2 s3 (?&?&?&?) (?&?&?&?). repeat split; congruence.
  - intros s s' (?&?&?&?&?&?). auto.
  - intros s t. simpl. auto.
  - intros s x Hx. simpl. auto.
Qed.

(** The walk itself keeps the first binding it meets: a binding of the
    cross-reference map is never replaced while the chain of sections is
    walked, in the table branch and in the stream branch alike; so what the
    section the walk starts at binds an object number to is what the map
    binds it to when the walk returns, whatever the older sections say. *)
Lemma xref_newest_wins zlib fuel self offset :
  (forall self' k e,
     _parse_xref zlib fuel self offset = Ret self' ->
     _xref self !! k = Some e -> _xref self' !! k = Some e) /\
  (forall newest self' k e,
     xref_section zlib fuel self offset = Ret newest ->
     _xref newest !! k = Some e ->
     _parse_xref zlib (S fuel) self offset = Ret self' ->
     _xref self' !! k = Some e).
Proof.
  split.
  - intros self' k e H. exact (keeps_entry_chain zlib k e fuel self offset self' H).
  - intros newest self' k e Hsec Hk H.
    cut (keeps_entry k e newest self'); [intros Hkeep; exact (Hkeep Hk) |].
    eapply (section_then_chain_R zlib (keeps_entry k e)); [.. | exact Hsec | exact H];
      unfold keeps_entry.
    + auto.
    + auto.
    + intros s s' (_ & Hx & _). rewrite Hx. auto.
    + intros s t. simpl. auto.
    + intros s x Hx. simpl. auto.
Qed.

Example xref_newest_wins_witness :
  exists s, _parse_xref no_zlib 3 (new_reader updated_pdf) 1514 = Ret s /\
            _xref s !! 3 = Some (1427, 0).
Proof.
  destruct (_parse_xref no_zlib 3 (new_reader updated_pdf) 1514) as [s | |] eqn:E;
    [| vm_compute in E; discriminate..].
  exists s. split; [reflexivity |].
  refine (proj2 (xref_newest_wins no_zlib 2 (new_reader updated_pdf) 1514)
            (set_xref (new_reader updated_pdf)
               (<[4:=(202,0)]> (<[3:=(1427,0)]> (<[2:=(58,0)]> (<[1:=(9,0)]> ∅)))))
            s 3 (1427, 0) _ _ E).
  - vm_compute. reflexivity.
  - vm_compute. reflexivity.
Defined.

(** C3: the walk does not start at the newest section when the update is
    short.  In [short_update_pdf] the last startxref of the file points to
    the section at 512, which binds object 3 to offset 425; [_parse] takes
    the leftmost startxref of the last 1024 bytes, which is the first
    section's, so construction starts at 262, never reads the newest
    section, and binds object 3 to the older offset 115. *)
Theorem short_update_older_section_wins :
  re_startxref (py_slice_from short_update_pdf (-1024)) = Some 262 /\
  re_startxref (py_slice_from short_update_pdf (-20)) = Some 512 /\
  (s ← xref_section no_zlib 2 (new_reader short_update_pdf) 512; Ret (_xref s !! 3))
    = Ret (Some (425, 0)) /\
  (s ← _parse_xref no_zlib 3 (new_reader short_update_pdf) 512; Ret (_xref s !! 3))
    = Ret (Some (425, 0)) /\
  (s ← __init__ no_zlib 3 short_update_pdf None; Ret (_xref s !! 3))
    = Ret (Some (115, 0)).
Proof. repeat split; vm_compute; reflexivity. Qed.

(** After construction the flag is set exactly when the trailer the reader
    holds at the end names a truthy /Encrypt. *)
Lemma is_encrypted_last_trailer zlib fuel stream password self :
  __init__ zlib fuel stream password = Ret self ->
  _is_encrypted self = trailer_names_encrypt (_trailer self).
Proof.
  unfold __init__. intros H. destruct stream as [| c stream]; [discriminate |].
  inv_bind H.
  assert (Hp : _is_encrypted a = trailer_names_encrypt (_trailer a)).
  { unfold _parse in Ha. destruct (re_startxref _) as [startxref |]; [| discriminate].
    inv_bind Ha. apply keeps_flags_chain in Ha0. destruct Ha0 as (_ & He & _).
    simpl in He. unfold trailer_names_encrypt.
    destruct (_trailer a0) as [t |] eqn:Ht; [| simplify_eq; rewrite Ht; exact He].
    destruct (truthy t) eqn:Htt; [| simplify_eq; rewrite Ht, Htt; exact He].
    inv_bind Ha.
    destruct (py_truthy a1) eqn:Hpt; simplify_eq; simpl; rewrite Ht, Htt, Ha0, Hpt; simpl; auto. }
  destruct password as [[| c' pw] |]; simplify_eq; try exact Hp.
  destruct (_is_encrypted a) eqn:He; simplify_eq.
  - unfold decrypt. rewrite He. simpl. rewrite He. exact Hp.
  - rewrite He. exact Hp.
Qed.

Example is_encrypted_last_trailer_witness :
  exists self, __init__ no_zlib 3 updated_pdf None = Ret self /\
               _is_encrypted self = trailer_names_encrypt (_trailer self).
Proof.
  destruct (__init__ no_zlib 3 updated_pdf None) as [self | |] eqn:E;
    [| vm_compute in E; discriminate..].
  exists self. split; [reflexivity |].
  exact (is_encrypted_last_trailer no_zlib 3 updated_pdf None self E).
Defined.

(** C8: the flag does not follow the newest trailer.  In [updated_pdf] the
    section startxref points to has a trailer naming /Encrypt; construction
    follows /Prev, where the older section's trailer replaces the newest
    one instead of being merged under it, ends holding the older trailer,
    and leaves the flag unset. *)
Theorem newest_encrypt_is_lost :
  (exists newest, xref_section no_zlib 2 (new_reader updated_pdf) 1514 = Ret newest) /\
  re_startxref (py_slice_from updated_pdf (-1024)) = Some 1514 /\
  re_trailer (py_slice_from (py_slice_from updated_pdf 1514) 17)
    = Some (b " /Size 5 /Root 1 0 R /Prev 262 /Encrypt 5 0 R ") /\
  (s ← __init__ no_zlib 3 updated_pdf None; Ret (_is_encrypted s, _trailer s))
    = Ret (false, Some (DictionaryObject
                          [(NameObject (u "Size"), number_of 5);
                           (NameObject (u "Root"), number_of 1)])).
Proof.
  split; [| split; [| split]].
  - destruct (xref_section no_zlib 2 (new_reader updated_pdf) 1514) as [s | |] eqn:E;
      [eauto | vm_compute in E; discriminate..].
  - vm_compute. reflexivity.
  - vm_compute. reflexivity.
  - vm_compute. reflexivity.
Qed.

(** ** The object parser yields no indirect reference *)

Lemma span_len_nonneg p l : 0 <= span_len p l.
Proof. induction l as [| c l IH]; simpl; [lia |]. destruct (p c); lia. Qed.

Lemma span_len_take p l : Forall (fun c => p c = true) (take (Z.to_nat (span_len p l)) l).
Proof.
  induction l as [| c l IH]; simpl; [constructor |].
  destruct (p c) eqn:Hc; [| constructor].
  pose proof (span_len_nonneg p l).
  replace (Z.to_nat (1 + span_len p l)) with (S (Z.to_nat (span_len p l))) by lia.
  simpl. constructor; assumption.
Qed.

Lemma span_len_drop p l : span_len p (drop (Z.to_nat (span_len p l)) l) = 0.
Proof.
  induction l as [| c l IH]; simpl; [reflexivity |].
  destruct (p c) eqn:Hc; [| simpl; rewrite Hc; reflexivity].
  pose proof (span_len_nonneg p l).
  replace (Z.to_nat (1 + span_len p l)) with (S (Z.to_nat (span_len p l))) by lia.
  simpl. exact IH.
Qed.

Lemma span_len_le p l : span_len p l <= blen l.
Proof.
  unfold blen. induction l as [| c l IH]; simpl length; simpl span_len; [lia |].
  destruct (p c); lia.
Qed.

(** Matches on integer literals, as tests. *)
Lemma dot_match (l : str) :
  match l with 46 :: _ => 1 | _ => 0 end
  = match l with c :: _ => if c =? 46 then 1 else 0 | [] => 0 end.
Proof.
  destruct l as [| c l]; [reflexivity |].
  destruct c as [| p | p]; try reflexivity.
  do 7 (try (destruct p as [p | p |]; try reflexivity)).
Qed.

Lemma sign_match (c : Z) (r : str) :
  match c :: r with
  | 45 :: r' => (true, r')
  | 43 :: r' => (false, r')
  | _ => (false, c :: r)
  end
  = if c =? 45 then (true, r) else if c =? 43 then (false, r) else (false, c :: r).
Proof.
  destruct c as [| p | p]; try reflexivity.
  do 7 (try (destruct p as [p | p |]; try reflexivity)).
Qed.

Lemma int_digits_all (ds : str) :
  Forall (fun c => is_digit c = true) ds ->
  forall acc after, ds <> [] \/ after = true -> exists n, int_digits ds acc after = Some n.
Proof.
  induction 1 as [| c ds Hc Hds IH]; intros acc after Hne; simpl.
  - destruct Hne as [Hne | ->]; [congruence | eauto].
  - rewrite Hc. apply IH. right. reflexivity.
Qed.

Lemma digit_not_space c : is_digit c = true -> is_space c = false.
Proof. unfold is_digit, is_space. lia. Qed.

Lemma rstrip_last (ws : Z -> bool) (l : str) (x : Z) :
  ws x = false -> rev (lstrip_with ws (rev (l ++ [x]))) = l ++ [x].
Proof.
  intros Hx. rewrite rev_app_distr. simpl. rewrite Hx. simpl. rewrite rev_involutive. reflexivity.
Qed.

Lemma py_int_digits (pre ds : str) :
  (pre = [] \/ pre = [43] \/ pre = [45]) ->
  ds <> [] -> Forall (fun c => is_digit c = true) ds ->
  exists n, py_int is_space (pre ++ ds) = Ret n.
Proof.
  intros Hpre Hne Hds.
  destruct (exists_last Hne) as (ds' & x & ->).
  assert (Hx : is_space x = false).
  { apply digit_not_space. rewrite Forall_app in Hds. destruct Hds as [_ Hx].
    inversion Hx; assumption. }
  unfold py_int.
  assert (Hstrip : rev (lstrip_with is_space (rev (lstrip_with is_space (pre ++ ds' ++ [x]))))
                   = pre ++ ds' ++ [x]).
  { assert (Hl : lstrip_with is_space (pre ++ ds' ++ [x]) = pre ++ ds' ++ [x]).
    { destruct Hpre as [-> | [-> | ->]]; try reflexivity.
      simpl. destruct ds' as [| d ds']; simpl.
      - rewrite Hx. reflexivity.
      - inversion Hds as [| ? ? Hd _]; subst. rewrite (digit_not_space _ Hd). reflexivity. }
    rewrite Hl. rewrite app_assoc. apply rstrip_last. exact Hx. }
  rewrite Hstrip.
  destruct (int_digits_all (ds' ++ [x]) Hds 0 false) as [n Hn].
  { left. destruct ds'; discriminate. }
  destruct Hpre as [-> | [-> | ->]].
  - rewrite app_nil_l. destruct (ds' ++ [x]) as [| c r] eqn:E; [destruct ds'; discriminate |].
    rewrite sign_match.
    inversion Hds as [| ? ? Hc _]; subst.
    assert (H45 : (c =? 45) = false) by (unfold is_digit in Hc; lia).
    assert (H43 : (c =? 43) = false) by (unfold is_digit in Hc; lia).
    rewrite H45, H43. rewrite Hn. eauto.
  - simpl. rewrite Hn. eauto.
  - simpl. rewrite Hn. eauto.
Qed.

Lemma digits1_head (s : str) n :
  digits1 s = Some n -> exists c r, s = c :: r /\ is_digit c = true.
Proof.
  unfold digits1. destruct s as [| c r]; simpl; [discriminate |].
  destruct (is_digit c) eqn:Hc; [eauto | discriminate].
Qed.

Lemma re_number_int (s : str) e :
  re_number s = Some e -> 46 ∉ stake e s -> exists n, py_int is_space (stake e s) = Ret n.
Proof.
  unfold re_number, stake, sdrop. intros H Hdot.
  set (sign := match s with c :: _ => if (c =? 43) || (c =? 45) then 1 else 0 | [] => 0 end) in *.
  assert (Hsign : sign = 0 \/ sign = 1).
  { subst sign. destruct s as [| c r]; [auto |]. destruct (_ || _); auto. }
  destruct (digits1 (drop (Z.to_nat sign) s)) as [d1 |] eqn:Hd1; [| discriminate].
  simpl in H. rewrite dot_match in H.
  assert (Hd1' : d1 = span_len is_digit (drop (Z.to_nat sign) s) /\ 0 < d1).
  { unfold digits1 in Hd1. destruct (0 <? _) eqn:Hpos; [| discriminate].
    simplify_eq. split; [reflexivity | lia]. }
  destruct Hd1' as [Hd1eq Hd1pos].
  assert (Hsplit : drop (Z.to_nat (sign + d1)) s
                   = drop (Z.to_nat d1) (drop (Z.to_nat sign) s)).
  { rewrite drop_drop. f_equal. lia. }
  rewrite Hsplit in H.
  remember (drop (Z.to_nat sign) s) as rest eqn:Erest.
  remember (drop (Z.to_nat d1) rest) as tail eqn:Etail.
  assert (Htail : span_len is_digit tail = 0).
  { subst tail. rewrite Hd1eq. apply span_len_drop. }
  assert (Hnodot : match tail with [] => 0 | c :: _ => if c =? 46 then 1 else 0 end = 0).
  { destruct tail as [| c tl]; [reflexivity |].
    destruct (c =? 46) eqn:Hc; [| reflexivity]. exfalso. apply Hdot.
    apply Z.eqb_eq in Hc. subst c.
    pose proof (span_len_nonneg is_digit
                  (drop (Z.to_nat (sign + d1 + 1)) s)) as Hd2.
    apply (list_elem_of_lookup_2 _ (Z.to_nat (sign + d1))).
    rewrite lookup_take_lt by (simplify_eq; lia).
    rewrite <- (Nat.add_0_r (Z.to_nat (sign + d1))), <- lookup_drop, Hsplit.
    try rewrite <- Etail. reflexivity. }
  rewrite Hnodot in H. rewrite Z.add_0_r in H. rewrite Hsplit in H.
  rewrite Htail in H. simplify_eq.
  replace (Z.to_nat (sign + span_len is_digit (drop (Z.to_nat sign) s) + 0))
    with (Z.to_nat sign + Z.to_nat (span_len is_digit (drop (Z.to_nat sign) s)))%nat by lia.
  rewrite <- take_take_drop.
  apply py_int_digits.
  - subst sign. destruct s as [| c r]; [auto |].
    destruct (c =? 43) eqn:H43; [apply Z.eqb_eq in H43; subst; auto |].
    destruct (c =? 45) eqn:H45; [apply Z.eqb_eq in H45; subst; auto |].
    auto.
  - destruct (drop (Z.to_nat sign) s) as [| c r]; [simpl in Hd1pos; lia |].
    pose proof (span_len_nonneg is_digit r).
    simpl in Hd1pos |- *. destruct (is_digit c); [| lia].
    replace (Z.to_nat (1 + span_len is_digit r)) with (S (Z.to_nat (span_len is_digit r))) by lia.
    discriminate.
  - apply span_len_take.
Qed.

Lemma parse_number_no_indirect (s : str) idx o e :
  parse_number s idx = Some (Ret (o, e)) -> has_indirect o = false.
Proof.
  unfold parse_number. intros H.
  destruct (re_number s) as [stop |] eqn:Hn.
  - destruct (bool_decide (46 ∈ stake stop s)) eqn:Hdot; [simplify_eq; reflexivity |].
    apply bool_decide_eq_false in Hdot.
    destruct (re_number_int s stop Hn Hdot) as [n Hint]. rewrite Hint in H.
    simplify_eq. reflexivity.
  - exfalso. destruct (re_ref s) as [[[a b'] c] |] eqn:Hr; [| discriminate].
    unfold re_ref in Hr. destruct (digits1 s) as [d1 |] eqn:Hd1; [| discriminate].
    destruct (digits1_head s d1 Hd1) as (c0 & r & -> & Hc0).
    unfold re_number in Hn. 
    assert (Hs : (c0 =? 43) || (c0 =? 45) = false) by (unfold is_digit in Hc0; lia).
    rewrite Hs in Hn. unfold sdrop in Hn. simpl drop in Hn. rewrite Hd1 in Hn. discriminate.
Qed.

Lemma parse_number_none (s : str) idx :
  parse_number s idx = None -> re_ref s = None.
Proof.
  unfold parse_number. intros H.
  destruct (re_ref s) as [[[a b'] c] |]; [| reflexivity]. exfalso.
  destruct (re_number s); [| discriminate].
  destruct (bool_decide _); [discriminate |].
  destruct (py_int _ _) as [n | [] |]; discriminate.
Qed.

Lemma literal_loop_no_indirect fuel :
  forall data idx depth result o e,
    literal_loop fuel data idx depth result = Ret (o, e) -> has_indirect o = false.
Proof.
  induction fuel as [| fuel IH]; intros data idx depth result o e H; simpl in H; [discriminate |].
  repeat match type of H with
         | (if ?c then _ else _) = _ => destruct c
         | match ?x with _ => _ end = _ => destruct x
         | _ ≫= _ = _ => let a := fresh in let Ha := fresh in
                         apply bind_Ret in H; destruct H as (a & Ha & H)
         end;
    solve [inversion H; reflexivity | eapply IH; exact H].
Qed.

Lemma dict_replace_clean d : forall k v d',
  clean_dict d -> has_indirect v = false ->
  dict_replace d k v = Some d' -> clean_dict d'.
Proof.
  unfold clean_dict.
  induction d as [| [k0 v0] d IH]; intros k v d' Hd Hv H; simpl in H; [discriminate |].
  simpl in Hd. apply orb_false_iff in Hd as [Hkv Hd]. apply orb_false_iff in Hkv as [Hk0 Hv0].
  destruct (key_eqb k0 k).
  - simplify_eq. simpl. rewrite Hk0, Hv, Hd. reflexivity.
  - destruct (dict_replace d k v) as [d'' |] eqn:E; [| discriminate]. simplify_eq.
    simpl. rewrite Hk0, Hv0. simpl. eapply IH; eassumption.
Qed.

Lemma dict_setitem_clean d k v d' :
  clean_dict d -> has_indirect k = false -> has_indirect v = false ->
  dict_setitem d k v = Ret d' -> clean_dict d'.
Proof.
  unfold dict_setitem. intros Hd Hk Hv H.
  destruct (hashable k); [| discriminate].
  destruct (dict_replace d k v) as [d'' |] eqn:E; simplify_eq.
  - eapply dict_replace_clean; eassumption.
  - unfold clean_dict in *. rewrite existsb_app. simpl. rewrite Hd, Hk, Hv. reflexivity.
Qed.

Lemma at_slice data idx c :
  at_ data idx = Some c -> exists rest, latin1 (py_slice_from data idx) = c :: rest.
Proof.
  unfold at_, py_slice_from, slice_bound, latin1, blen. intros H.
  destruct (idx <? 0) eqn:Hneg; [discriminate |].
  destruct (data !! Z.to_nat idx) as [x |] eqn:Hx; [| discriminate]. simpl in H. simplify_eq.
  pose proof (lookup_lt_Some _ _ _ Hx) as Hlt.
  replace (Z.to_nat (Z.min idx (Z.of_nat (length data)))) with (Z.to_nat idx) by lia.
  rewrite (drop_S _ _ _ Hx). simpl. eauto.
Qed.

Lemma number_start_digit c : is_digit c = true -> byte_in c number_start = true.
Proof.
  intros Hc. unfold is_digit in Hc.
  assert (Hcases : c = 48 \/ c = 49 \/ c = 50 \/ c = 51 \/ c = 52 \/ c = 53 \/ c = 54 \/
                   c = 55 \/ c = 56 \/ c = 57) by lia.
  repeat (destruct Hcases as [-> | Hcases]; [reflexivity |]). subst. reflexivity.
Qed.

(** When neither the number branch nor anything else applies, the closing
    reference test cannot match. *)
Lemma no_reference_left data idx char :
  at_ data idx = Some char ->
  (if byte_in char number_start then parse_number (latin1 (py_slice_from data idx)) idx
   else None) = None ->
  re_ref (latin1 (py_slice_from data idx)) = None.
Proof.
  intros Hat H. destruct (at_slice data idx char Hat) as [rest Hs].
  destruct (byte_in char number_start) eqn:Hin.
  - eapply parse_number_none; eassumption.
  - rewrite Hs. unfold re_ref.
    destruct (digits1 (char :: rest)) as [d1 |] eqn:Hd; [| reflexivity].
    destruct (digits1_head _ _ Hd) as (c & r & Heq & Hc). simplify_eq.
    rewrite (number_start_digit _ Hc) in Hin. discriminate.
Qed.

Lemma NameObject_no_indirect name : has_indirect (NameObject name) = false.
Proof. unfold NameObject. repeat case_match; reflexivity. Qed.

Lemma parse_no_indirect fuel :
  (forall data idx o e,
     _parse_object fuel data idx = Ret (o, e) -> has_indirect o = false) /\
  (forall data idx arr o e,
     existsb has_indirect arr = false ->
     _parse_array_loop fuel data idx arr = Ret (o, e) -> has_indirect o = false) /\
  (forall data idx d o e,
     clean_dict d ->
     _parse_dictionary_loop fuel data idx d = Ret (o, e) -> has_indirect o = false).
Proof.
  induction fuel as [| fuel (IHo & IHa & IHd)];
    [split; [| split]; intros; discriminate |].
  split; [| split].
  - intros data idx o e H. simpl in H.
    destruct (at_ data (skip_ws data idx)) as [char |] eqn:Hat; [| simplify_eq; reflexivity].
    destruct (startswith _ (b "null")); [simplify_eq; reflexivity |].
    destruct (startswith _ (b "true")); [simplify_eq; reflexivity |].
    destruct (startswith _ (b "false")); [simplify_eq; reflexivity |].
    destruct (if byte_in char number_start then _ else None) as [r |] eqn:Hnum.
    + destruct (byte_in char number_start); [| discriminate]. subst r.
      eapply parse_number_no_indirect; eassumption.
    + pose proof (no_reference_left _ _ _ Hat Hnum) as Hnoref.
      destruct (char =? 47); [simplify_eq; apply NameObject_no_indirect |].
      destruct (char =? 40); [eapply literal_loop_no_indirect; exact H |].
      destruct (char =? 60).
      { destruct (bool_decide _); [(eapply IHd; [| exact H]; reflexivity) |].
        unfold _parse_hex_string in H. simplify_eq. reflexivity. }
      destruct (char =? 91); [(eapply IHa; [| exact H]; reflexivity) |].
      destruct (startswith _ (b "<<")); [(eapply IHd; [| exact H]; reflexivity) |].
      rewrite Hnoref in H. simplify_eq. reflexivity.
  - intros data idx arr o e Harr H. simpl in H.
    destruct (idx <? blen data); [| simplify_eq; exact Harr].
    destruct (_ || _); [simplify_eq; exact Harr |].
    inv_bind H. destruct a as [obj idx1].
    eapply IHa; [| exact H]. rewrite existsb_app. simpl. rewrite Harr.
    rewrite (IHo _ _ _ _ Ha). reflexivity.
  - intros data idx d o e Hd H. simpl in H.
    destruct (idx <? blen data); [| simplify_eq; exact Hd].
    destruct (_ || _); [simplify_eq; exact Hd |].
    destruct (negb _); [eapply IHd; eassumption |].
    inv_bind H. destruct a as [key idx1]. inv_bind H. destruct a as [value idx2].
    inv_bind H. eapply IHd; [| exact H].
    eapply (dict_setitem_clean d key value); eauto.
Qed.

(** ** Resolution and its cache *)

Lemma dict_get_clean d key v :
  clean_dict d -> dict_get d key = Some v -> has_indirect v = false.
Proof.
  unfold clean_dict. induction d as [| [k0 v0] d IH]; simpl; [discriminate |].
  intros Hd H. apply orb_false_iff in Hd as [Hkv Hd]. apply orb_false_iff in Hkv as [_ Hv0].
  destruct k0; eauto. destruct (str_eqb name key); simplify_eq; eauto.
Qed.

#[local] Opaque parse_fuel.

(** The indirect-object parser never resolves a length through the reader:
    the object parser yields no reference. *)
Lemma parse_indirect_object_state fuel self offset r e self' :
  _parse_indirect_object fuel self offset = Ret (r, e, self') ->
  self' = log_parse self offset.
Proof.
  destruct fuel as [| fuel]; [discriminate |]. simpl. intros H.
  destruct (re_header _) as [[[obj_num gen_num] idx] |]; [| simplify_eq; reflexivity].
  inv_bind H. destruct a as [obj idx1].
  apply (proj1 (parse_no_indirect _)) in Ha.
  destruct (re_stream _); [| simplify_eq; reflexivity].
  inv_bind H. destruct a as [len s1]. inv_bind H. destruct a as [obj' idx2]. simplify_eq.
  destruct obj; simplify_eq; try reflexivity.
  - destruct (dict_get items (u "/Length")) as [v |] eqn:Hl; [| simplify_eq; reflexivity].
    pose proof (dict_get_clean _ _ _ Ha Hl) as Hv.
    destruct v; simplify_eq; try reflexivity. inv_bind Ha0. simplify_eq. reflexivity.
  - destruct (dict_get items (u "/Length")) as [v |] eqn:Hl; [| simplify_eq; reflexivity].
    pose proof (dict_get_clean _ _ _ Ha Hl) as Hv.
    destruct v; simplify_eq; try reflexivity. inv_bind Ha0. simplify_eq. reflexivity.
Qed.



Lemma resolve_map_generations h fuel :
  (forall self ref,
     get_object fuel (map_generations h self) ref
     = res_map (fun r => (r.1, map_generations h r.2)) (get_object fuel self ref)) /\
  (forall self offset,
     _parse_indirect_object fuel (map_generations h self) offset
     = res_map (fun r => (r.1, map_generations h r.2))
               (_parse_indirect_object fuel self offset)).
Proof.
  induction fuel as [| fuel [IHg IHp]]; [split; reflexivity |].
  split.
  - intros self ref. simpl.
    destruct (match ref with IndirectObject n _ _ => Ret n | NumberObject v => int_of_number v | _ => Raise TypeError end) as [n | |];
      try reflexivity.
    simpl. destruct (_objects self !! n); [reflexivity |].
    rewrite lookup_fmap. destruct (_xref self !! n) as [[offset gen] |]; [| reflexivity].
    simpl. rewrite IHp.
    destruct (_parse_indirect_object fuel self offset) as [[[o e] s1] | |]; reflexivity.
  - intros self offset. simpl.
    destruct (re_header _) as [[[obj_num gen_num] idx] |]; [| reflexivity].
    destruct (_parse_object _ _ _) as [[obj idx1] | |]; try reflexivity. simpl.
    destruct (re_stream _); [| reflexivity].
    assert (Hg : forall r, get_object fuel (log_parse (map_generations h self) offset) r
                  = res_map (fun r => (r.1, map_generations h r.2))
                            (get_object fuel (log_parse self offset) r)).
    { intros r. exact (IHg (log_parse self offset) r). }
    destruct obj; simpl; try (destruct (read_stream _ _ _ _) as [[o' i'] | |]; reflexivity).
    + destruct (dict_get items (u "/Length")) as [[] |]; simpl;
        try (destruct (int_of_number _) as [len | |]; simpl; try reflexivity);
        try (destruct (read_stream _ _ _ _) as [[o' i'] | |]; reflexivity).
      rewrite Hg. destruct (get_object fuel _ _) as [[[lr |] s1] | |]; simpl; try reflexivity.
      * destruct (truthy lr); simpl.
        -- destruct (int_value lr); simpl; try reflexivity.
           destruct (read_stream _ _ _ _) as [[o' i'] | |]; reflexivity.
        -- destruct (read_stream _ _ _ _) as [[o' i'] | |]; reflexivity.
      * destruct (read_stream _ _ _ _) as [[o' i'] | |]; reflexivity.
    + destruct (dict_get items (u "/Length")) as [[] |]; simpl;
        try (destruct (int_of_number _) as [len | |]; simpl; try reflexivity);
        try (destruct (read_stream _ _ _ _) as [[o' i'] | |]; reflexivity).
      rewrite Hg. destruct (get_object fuel _ _) as [[[lr |] s1] | |]; simpl; try reflexivity.
      * destruct (truthy lr); simpl.
        -- destruct (int_value lr); simpl; try reflexivity.
           destruct (read_stream _ _ _ _) as [[o' i'] | |]; reflexivity.
        -- destruct (read_stream _ _ _ _) as [[o' i'] | |]; reflexivity.
      * destruct (read_stream _ _ _ _) as [[o' i'] | |]; reflexivity.
Qed.

#[local] Transparent parse_fuel.

(** C10: resolution depends on the object number only: two references
    with the same number resolve alike whatever their generations, and
    replacing the generations stored in the cross-reference map changes
    neither the object returned nor anything else of the reader. *)
Theorem get_object_ignores_generation :
  (forall fuel self n g1 p1 g2 p2,
     get_object fuel self (IndirectObject n g1 p1)
     = get_object fuel self (IndirectObject n g2 p2)) /\
  (forall h fuel self ref,
     get_object fuel (map_generations h self) ref
     = res_map (fun r => (r.1, map_generations h r.2)) (get_object fuel self ref)).
Proof.
  split.
  - intros fuel self n g1 p1 g2 p2. destruct fuel; reflexivity.
  - intros h fuel self ref. apply (proj1 (resolve_map_generations h fuel)).
Qed.

(** ** The page tree *)

Lemma get_object_resolved fuel self n g p :
  resolved self ->
  get_object (S fuel) self (IndirectObject n g p)
  = Ret (resolve (_objects self) (Some (IndirectObject n g p)), self).
Proof.
  intros Hr. simpl. destruct (_objects self !! n) as [o |] eqn:Ho; [reflexivity |].
  rewrite (Hr n Ho). reflexivity.
Qed.

Lemma for_each_collect objects fuel kids :
  (forall kid, kid ∈ kids -> collect_ok objects fuel (Some kid)) ->
  forall s, _objects s = objects -> resolved s ->
    (exists s', for_each (fun self kid => _collect_pages fuel self (Some kid)) kids s = Ret s'
                /\ _objects s' = objects /\ resolved s') \/
    (exists e, for_each (fun self kid => _collect_pages fuel self (Some kid)) kids s = Raise e).
Proof.
  induction kids as [| kid kids IH]; intros Hall s Ho Hr; simpl.
  - left. eauto.
  - destruct (Hall kid (list_elem_of_here _ _) s Ho Hr) as [(s' & -> & Ho' & Hr') | (e & ->)].
    + simpl. apply IH; [| assumption..].
      intros k Hk. apply Hall. apply list_elem_of_further. exact Hk.
    + right. eauto.
Qed.


Lemma collect_pages_unfold fuel self node :
  _collect_pages (S fuel) self node
  = ('(node, self) ← match node with
                      | Some (IndirectObject n g p) =>
                          get_object fuel self (IndirectObject n g p)
                      | _ => Ret (node, self)
                      end;
     match node with
      | Some (DictionaryObject d) | Some (StreamObject d _ _) =>
          if negb (match d with [] => false | _ => true end) then Ret self
          else
            let node_type := dict_get d (u "/Type") in
            if is_name node_type (u "Page") then
              page ← new_page d;
              match _pages self with
              | Some collected => Ret (set_pages self (Some (collected ++ [page])))
              | None => Raise AttributeError
              end
            else if is_name node_type (u "Pages") then
              '(kids, self) ←
                match dict_get d (u "/Kids") with
                | Some (IndirectObject n g p) =>
                    '(kids, self) ← get_object fuel self (IndirectObject n g p);
                    kids ← py_iter kids;
                    Ret (kids, self)
                | Some kids => kids ← py_iter (Some kids); Ret (kids, self)
                | None => Ret ([], self)
                end;
              for_each (fun self kid => _collect_pages fuel self (Some kid)) kids self
            else Ret self
      | _ => Ret self
      end).
Proof. reflexivity. Qed.

Lemma dict_update_returns other : forall d, dict_update d other <> Diverge.
Proof.
  induction other as [| [k v] other IH]; intros d; simpl; [discriminate |].
  unfold dict_setitem. destruct (hashable k); simpl; [apply IH | discriminate].
Qed.

Lemma new_page_returns d : new_page d <> Diverge.
Proof.
  unfold new_page. intros H.
  destruct (dict_update _ d) eqn:Hu; simpl in H; try discriminate.
  eapply dict_update_returns; exact Hu.
Qed.

Lemma py_iter_returns o : py_iter o <> Diverge.
Proof. destruct o as [[] |]; discriminate. Qed.

#[local] Opaque get_object _collect_pages new_page py_iter.

Lemma collect_step objects fuel node :
  (forall kid, kid ∈ tree_kids objects node -> collect_ok objects (S fuel) (Some kid)) ->
  collect_ok objects (S (S fuel)) node.
Proof.
  intros Hkids s Ho Hr. unfold tree_kids in Hkids.
  rewrite collect_pages_unfold.
  assert (Hres : match node with
                 | Some (IndirectObject n g p) => get_object (S fuel) s (IndirectObject n g p)
                 | _ => Ret (node, s)
                 end = Ret (resolve objects node, s)).
  { destruct node as [[] |]; try reflexivity. rewrite get_object_resolved by exact Hr.
    rewrite Ho. reflexivity. }
  rewrite Hres. simpl.
  assert (Hbody : forall d,
    (forall kid, kid ∈ (if is_name (dict_get d (u "/Type")) (u "Page") then []
                        else if is_name (dict_get d (u "/Type")) (u "Pages")
                             then iter_list (match dict_get d (u "/Kids") with
                                             | Some kids => resolve objects (Some kids)
                                             | None => Some (ArrayObject [])
                                             end)
                             else []) -> collect_ok objects (S fuel) (Some kid)) ->
    forall m,
      m = (if negb (match d with [] => false | _ => true end) then Ret s
           else
             if is_name (dict_get d (u "/Type")) (u "Page") then
               page ← new_page d;
               match _pages s with
               | Some collected => Ret (set_pages s (Some (collected ++ [page])))
               | None => Raise AttributeError
               end
             else if is_name (dict_get d (u "/Type")) (u "Pages") then
               '(kids, self) ←
                 match dict_get d (u "/Kids") with
                 | Some (IndirectObject n g p) =>
                     '(kids, self) ← get_object (S fuel) s (IndirectObject n g p);
                     kids ← py_iter kids;
                     Ret (kids, self)
                 | Some kids => kids ← py_iter (Some kids); Ret (kids, s)
                 | None => Ret ([], s)
                 end;
               for_each (fun self kid => _collect_pages (S fuel) self (Some kid)) kids self
             else Ret s) ->
      (exists s', m = Ret s' /\ _objects s' = objects /\ resolved s') \/
      (exists e, m = Raise e)).
  { intros d Hd m ->. destruct (negb _); [left; eauto |].
    destruct (is_name (dict_get d (u "/Type")) (u "Page")).
    { destruct (new_page d) as [page | e |] eqn:Hp; simpl.
      - destruct (_pages s); [left | right; eauto].
        eexists. split; [reflexivity |]. split; [exact Ho | exact Hr].
      - right. eauto.
      - exfalso. eapply new_page_returns; exact Hp. }
    destruct (is_name (dict_get d (u "/Type")) (u "Pages")); [| left; eauto].
    assert (Hk : exists kids_obj,
               match dict_get d (u "/Kids") with
               | Some (IndirectObject n g p) =>
                   '(kids, self) ← get_object (S fuel) s (IndirectObject n g p);
                   kids ← py_iter kids;
                   Ret (kids, self)
               | Some kids => kids ← py_iter (Some kids); Ret (kids, s)
               | None => Ret ([], s)
               end = (kids ← py_iter kids_obj; Ret (kids, s)) /\
               kids_obj = match dict_get d (u "/Kids") with
                          | Some kids => resolve objects (Some kids)
                          | None => Some (ArrayObject [])
                          end).
    { destruct (dict_get d (u "/Kids")) as [[] |]; eexists; (split; [| reflexivity]);
        try reflexivity.
      rewrite get_object_resolved by exact Hr. rewrite Ho. reflexivity. }
    destruct Hk as (kids_obj & -> & Hko). rewrite <- Hko in Hd.
    unfold iter_list in Hd.
    destruct (py_iter kids_obj) as [kids | e |] eqn:Hi; simpl.
    - exact (for_each_collect objects (S fuel) kids Hd s Ho Hr).
    - right. eauto.
    - exfalso. eapply py_iter_returns; exact Hi. }
  destruct (resolve objects node) as [[] |]; try solve [left; eauto];
    (eapply Hbody; [exact Hkids | reflexivity]).
Qed.

#[local] Transparent get_object _collect_pages new_page py_iter.

Lemma collect_ok_leaf objects fuel node :
  tree_kids objects node = [] -> collect_ok objects (S (S fuel)) node.
Proof.
  intros Hk. apply collect_step. rewrite Hk. intros kid Hkid. inversion Hkid.
Qed.









Lemma ret_bind {A B} (a : A) (k : A -> res B) : Ret a ≫= k = k a.
Proof. reflexivity. Qed.




(** ** The media box *)

(** C6 (amended): a page with a reader attached and no media box of its
    own takes the media box of its direct parent (held directly or reached
    through one reference), and the US Letter default when that parent has
    none; nothing above the parent is consulted. *)
Theorem mediabox_parent_only fuel self page parent self' :
  dict_get (page_items page) (u "/MediaBox") = None ->
  page_pdf page = true ->
  (dict_get (page_items page) (u "/Parent") = Some (DictionaryObject parent) /\ self' = self \/
   exists n g, dict_get (page_items page) (u "/Parent") = Some (IndirectObject n g true) /\
               get_object fuel self (IndirectObject n g true)
               = Ret (Some (DictionaryObject parent), self')) ->
  parent <> [] ->
  (dict_get parent (u "/MediaBox") = None ->
   mediabox fuel self page = Ret (us_letter, self')) /\
  (forall x l, dict_get parent (u "/MediaBox") = Some (ArrayObject (x :: l)) ->
               mediabox fuel self page = Ret (ArrayObject (take 4 (x :: l)), self')).
Proof.
  intros Hbox Hpdf Hparent Hne.
  assert (Hfirst : forall box, dict_get parent (u "/MediaBox") = box ->
            match dict_get (page_items page) (u "/MediaBox") with
            | None =>
                if page_pdf page then
                  '(parent, self) ←
                    match dict_get (page_items page) (u "/Parent") with
                    | Some (IndirectObject n g p) => IndirectObject_get_object fuel self n g p
                    | parent => Ret (parent, self)
                    end;
                  match parent with
                  | Some parent =>
                      if truthy parent
                      then box ← obj_get parent (u "/MediaBox"); Ret (box, self)
                      else Ret (None, self)
                  | None => Ret (None, self)
                  end
                else Ret (None, self)
            | Some box => Ret (Some box, self)
            end = Ret (box, self')).
  { intros box Hb. rewrite Hbox, Hpdf.
    assert (Htruthy : truthy (DictionaryObject parent) = true)
      by (destruct parent; [congruence | reflexivity]).
    destruct Hparent as [[-> ->] | (n & g & -> & Hg)].
    - rewrite ret_bind, Htruthy. unfold obj_get. rewrite ret_bind, Hb. reflexivity.
    - unfold IndirectObject_get_object. rewrite Hg.
      rewrite ret_bind, Htruthy. unfold obj_get. rewrite ret_bind, Hb. reflexivity. }
  split.
  - intros Hnone. unfold mediabox. rewrite (Hfirst None Hnone). reflexivity.
  - intros x l Hsome. unfold mediabox. rewrite (Hfirst _ Hsome). reflexivity.
Qed.

Lemma mediabox_parent_only_witness :
  mediabox 2 parent_box boxless_page = Ret (rect 0 0 200 300, parent_box).
Proof.
  refine (proj2 (mediabox_parent_only 2 parent_box boxless_page
                   [name_entry "Type" "Pages"; (NameObject (u "Parent"), ref 1);
                    (NameObject (u "MediaBox"), rect 0 0 200 300)]
                   parent_box _ _ _ _) (number_of 0) [number_of 0; number_of 200; number_of 300] _).
  - reflexivity.
  - reflexivity.
  - right. exists 2, 0. split; reflexivity.
  - discriminate.
  - reflexivity.
Defined.

(** C6 (counterexample): the parent has no media box, the grandparent
    has (0, 0, 200, 300), and the page resolves to the default. *)
Lemma mediabox_ignores_grandparent :
  dict_get (page_items boxless_page) (u "/MediaBox") = None /\
  dict_get (page_items boxless_page) (u "/Parent") = Some (ref 2) /\
  (exists parent, _objects grandparent_box !! 2 = Some (Some (DictionaryObject parent)) /\
                  dict_get parent (u "/MediaBox") = None /\
                  dict_get parent (u "/Parent") = Some (ref 1)) /\
  (exists grandparent, _objects grandparent_box !! 1 = Some (Some (DictionaryObject grandparent)) /\
                       dict_get grandparent (u "/MediaBox") = Some (rect 0 0 200 300)) /\
  mediabox 2 grandparent_box boxless_page = Ret (us_letter, grandparent_box).
Proof.
  split; [reflexivity |]. split; [reflexivity |].
  split; [eexists; split; [reflexivity |]; split; reflexivity |].
  split; [eexists; split; reflexivity |].
  vm_compute. reflexivity.
Qed.

(** * Further properties of the code *)

(** ** The object parser returns *)

Lemma blen_nonneg {A} (l : list A) : 0 <= blen l.
Proof. unfold blen. lia. Qed.

Lemma at_Some data idx c : at_ data idx = Some c -> 0 <= idx < blen data.
Proof.
  unfold at_, blen. destruct (idx <? 0) eqn:Hn; [discriminate |].
  destruct (data !! Z.to_nat idx) eqn:Hl; [| discriminate]. intros _.
  apply lookup_lt_Some in Hl. lia.
Qed.

Lemma at_None data idx : 0 <= idx -> at_ data idx = None -> blen data <= idx.
Proof.
  unfold at_, blen. intros Hi. destruct (idx <? 0) eqn:Hn; [lia |].
  destruct (data !! Z.to_nat idx) eqn:Hl; [discriminate |]. intros _.
  apply lookup_ge_None in Hl. lia.
Qed.

Lemma skip_ws_ge data idx : idx <= skip_ws data idx.
Proof.
  unfold skip_ws.
  match goal with
  | |- _ <= _ + span_len ?p ?l => pose proof (span_len_nonneg p l) as H; revert H;
                                  generalize (span_len p l)
  end.
  intros; lia.
Qed.

Lemma find_in_nonneg sub data i : find_in sub data = Some i -> 0 <= i.
Proof.
  revert i. induction data as [| c data IH]; intros i H.
  - change (find_in sub []) with (if startswith [] sub then Some 0 else None) in H.
    destruct (startswith [] sub); [| discriminate]. injection H as <-. lia.
  - change (find_in sub (c :: data))
      with (if startswith (c :: data) sub then Some 0
            else match find_in sub data with Some i => Some (i + 1) | None => None end) in H.
    destruct (startswith (c :: data) sub); [injection H as <-; lia |].
    destruct (find_in sub data) as [j |]; [| discriminate]. injection H as <-.
    specialize (IH j eq_refl). lia.
Qed.

Lemma find_ge data sub start : find data sub start = -1 \/ start <= find data sub start.
Proof.
  unfold find. destruct (blen data <? start); [auto |].
  destruct (find_in _ _) as [i |] eqn:E; [| auto]. right. apply find_in_nonneg in E. lia.
Qed.

Lemma int_octal_returns s : forall acc, int_octal s acc <> Diverge.
Proof.
  induction s as [| c s IH]; intros acc; simpl; [discriminate |].
  destruct (_ && _); [apply IH | discriminate].
Qed.

Lemma literal_loop_returns fuel :
  forall data idx depth result,
    0 <= idx -> (Z.to_nat (blen data - idx) < fuel)%nat ->
    literal_loop fuel data idx depth result <> Diverge.
Proof.
  induction fuel as [| fuel IH]; intros data idx depth result Hi Hf; [lia |].
  simpl. destruct (at_ data idx) as [char |] eqn:Hat; [| discriminate].
  apply at_Some in Hat.
  assert (Hnext : forall k d r, 1 <= k -> literal_loop fuel data (idx + k) d r <> Diverge).
  { intros k d r Hk. apply IH; lia. }
  destruct (depth <=? 0); [discriminate |].
  destruct (char =? 92).
  - destruct (at_ data (idx + 1)) as [esc |] eqn:Hesc; [| discriminate].
    replace (idx + 1 + 1) with (idx + 2) by lia.
    repeat (match goal with |- (if ?c then _ else _) <> _ => destruct c end;
            [apply Hnext; lia |]).
    destruct (is_digit esc); [| apply Hnext; lia].
    assert (Hoct : forall i o, octal_more data i o = None \/
                                 exists o', octal_more data i o = Some (i + 1, o')).
    { intros i o. unfold octal_more. destruct (at_ data (i + 1)); [| auto].
      destruct (is_digit _); eauto. }
    destruct (Hoct (idx + 1) [esc]) as [-> | [o1 ->]].
    + destruct (int_octal _ _) eqn:Eo; simpl; try discriminate;
        [| exfalso; eapply int_octal_returns; exact Eo].
      replace (idx + 1 + 1) with (idx + 2) by lia. apply Hnext; lia.
    + destruct (Hoct (idx + 1 + 1) o1) as [-> | [o2 ->]].
      * destruct (int_octal _ _) eqn:Eo; simpl; try discriminate;
          [| exfalso; eapply int_octal_returns; exact Eo].
        replace (idx + 1 + 1 + 1) with (idx + 3) by lia. apply Hnext; lia.
      * destruct (int_octal _ _) eqn:Eo; simpl; try discriminate;
          [| exfalso; eapply int_octal_returns; exact Eo].
        replace (idx + 1 + 1 + 1 + 1) with (idx + 4) by lia. apply Hnext; lia.
  - repeat (match goal with |- (if ?c then _ else _) <> _ => destruct c end;
            [apply Hnext; lia |]).
    apply Hnext; lia.
Qed.

Lemma literal_loop_progress fuel :
  forall data idx depth result o e,
    literal_loop fuel data idx depth result = Ret (o, e) -> idx <= e.
Proof.
  induction fuel as [| fuel IH]; intros data idx depth result o e H; simpl in H; [discriminate |].
  assert (Hoct : forall i oc r, octal_more data i oc = Some r -> r.1 = i + 1).
  { intros i oc r. unfold octal_more. destruct (at_ data (i + 1)); [| discriminate].
    destruct (is_digit _); intros; simplify_eq. reflexivity. }
  repeat match type of H with
         | (if ?c then _ else _) = _ => destruct c
         | (let '(_, _) := ?x in _) = _ => destruct x eqn:?
         | match ?x with _ => _ end = _ => destruct x eqn:?
         | _ ≫= _ = _ => let a := fresh in let Ha := fresh in
                         apply bind_Ret in H; destruct H as (a & Ha & H)
         end;
    try (injection H as <- <-; lia);
    try (apply IH in H; lia).
  destruct (octal_more data (idx + 1) [z0]) as [[i1 o1] |] eqn:E1;
    [pose proof (Hoct _ _ _ E1);
     destruct (octal_more data i1 o1) as [[i2 o2] |] eqn:E2;
     [pose proof (Hoct _ _ _ E2) |] |];
    simplify_eq; simpl in *; apply IH in H; lia.
Qed.

Lemma re_number_pos s e : re_number s = Some e -> 0 < e.
Proof.
  unfold re_number, digits1, sdrop. intros H.
  set (sign := match s with c :: _ => if (c =? 43) || (c =? 45) then 1 else 0 | [] => 0 end) in *.
  assert (0 <= sign) by (subst sign; destruct s; [lia |]; destruct (_ || _); lia).
  destruct (0 <? span_len is_digit (drop (Z.to_nat sign) s)) eqn:Hp; [| discriminate].
  simpl in H. injection H as <-.
  match goal with |- 0 < _ + _ + ?d + span_len ?p ?l =>
    pose proof (span_len_nonneg p l); assert (0 <= d) by (destruct (drop _ s) as [| [| [] | ] ?]; repeat case_match; lia)
  end.
  lia.
Qed.

Lemma digits1_pos s n : digits1 s = Some n -> 0 < n.
Proof.
  unfold digits1. destruct (0 <? span_len is_digit s) eqn:E; [| discriminate].
  intros [= <-]. apply Z.ltb_lt in E. exact E.
Qed.

Lemma spaces1_pos s n : spaces1 s = Some n -> 0 < n.
Proof.
  unfold spaces1. destruct (0 <? span_len is_space s) eqn:E; [| discriminate].
  intros [= <-]. apply Z.ltb_lt in E. exact E.
Qed.

Lemma re_ref_pos s a c e : re_ref s = Some (a, c, e) -> 0 < e.
Proof.
  unfold re_ref. intros H.
  apply bind_Some in H as (d1 & Hd1 & H). apply digits1_pos in Hd1.
  apply bind_Some in H as (w1 & Hw1 & H). apply spaces1_pos in Hw1.
  apply bind_Some in H as (d2 & Hd2 & H). apply digits1_pos in Hd2.
  apply bind_Some in H as (w2 & Hw2 & H). apply spaces1_pos in Hw2.
  destruct (sdrop (d1 + w1 + d2 + w2) s) as [| x r]; [discriminate |].
  assert (He : e = d1 + w1 + d2 + w2 + 1).
  { destruct x as [| p | p]; try discriminate.
    do 8 (try (destruct p as [p | p |]; try discriminate)).
    injection H as _ _ <-. reflexivity. }
  lia.
Qed.

Lemma parse_number_progress s idx r :
  parse_number s idx = Some r ->
  r <> Diverge /\ forall o e, r = Ret (o, e) -> idx < e.
Proof.
  unfold parse_number. intros H.
  assert (Href : forall r', match re_ref s with
                            | Some (obj_num, gen_num, e) =>
                                Some (Ret (IndirectObject obj_num gen_num true, idx + e))
                            | None => None
                            end = Some r' ->
                            r' <> Diverge /\ forall o e, r' = Ret (o, e) -> idx < e).
  { intros r' Hr. destruct (re_ref s) as [[[a c] stop] |] eqn:E; [| discriminate].
    apply re_ref_pos in E. injection Hr as <-. split; [discriminate |].
    intros o e He. injection He as _ <-. lia. }
  destruct (re_number s) as [stop |] eqn:Hn; [| auto].
  apply re_number_pos in Hn.
  destruct (bool_decide _).
  - injection H as <-. split; [discriminate |]. intros o e He. injection He as _ <-. lia.
  - destruct (py_int is_space (stake stop s)) as [n | [] |] eqn:Hi;
      try (injection H as <-; split; [discriminate |]; intros o e He; simplify_eq; lia);
      try (apply Href; exact H).
    exfalso. unfold py_int in Hi. repeat case_match; discriminate.
Qed.

Lemma bind_returns {A B} (m : res A) (k : A -> res B) :
  m <> Diverge -> (forall a, m = Ret a -> k a <> Diverge) -> m ≫= k <> Diverge.
Proof. destruct m; simpl; intros Hm Hk; [apply Hk; reflexivity | discriminate | congruence]. Qed.

Lemma dict_setitem_returns d k v : dict_setitem d k v <> Diverge.
Proof. unfold dict_setitem. destruct (hashable k); discriminate. Qed.

Lemma parse_hex_string_spec data idx :
  0 <= idx < blen data ->
  exists s e, _parse_hex_string data idx = Ret (HexStringObject s, e) /\ idx < e.
Proof.
  intros Hi. unfold _parse_hex_string.
  pose proof (find_ge data (b ">") (idx + 1)) as Hge.
  destruct (Z.eqb_spec (find data (b ">") (idx + 1)) (-1)) as [E | E];
    (eexists _, _; split; [reflexivity | lia]).
Qed.

Lemma parse_total fuel :
  (forall data idx, 0 <= idx ->
     ((2 * Z.to_nat (blen data - idx) + 1 <= fuel)%nat ->
      _parse_object fuel data idx <> Diverge) /\
     (forall o e, _parse_object fuel data idx = Ret (o, e) ->
                  idx <= e /\ (idx < blen data -> idx < e))) /\
  (forall data idx arr, 0 <= idx ->
     ((2 * Z.to_nat (blen data - idx) + 2 <= fuel)%nat ->
      _parse_array_loop fuel data idx arr <> Diverge) /\
     (forall o e, _parse_array_loop fuel data idx arr = Ret (o, e) -> idx <= e)) /\
  (forall data idx d, 0 <= idx ->
     ((2 * Z.to_nat (blen data - idx) + 2 <= fuel)%nat ->
      _parse_dictionary_loop fuel data idx d <> Diverge) /\
     (forall o e, _parse_dictionary_loop fuel data idx d = Ret (o, e) -> idx <= e)).
Proof.
  induction fuel as [| fuel (IHo & IHa & IHd)].
  { split; [| split]; intros; (split; [lia | intros; discriminate]). }
  split; [| split].
  - intros data idx Hidx. simpl.
    pose proof (skip_ws_ge data idx) as Hskip.
    set (idx' := skip_ws data idx) in *.
    destruct (at_ data idx') as [char |] eqn:Hat.
    2:{ apply at_None in Hat; [| lia]. split; [discriminate |].
        intros o e H. injection H as _ <-. lia. }
    pose proof (at_Some _ _ _ Hat) as Hin.
    destruct (startswith _ (b "null")).
    { split; [discriminate |]. intros o e H. injection H as _ <-. lia. }
    destruct (startswith _ (b "true")).
    { split; [discriminate |]. intros o e H. injection H as _ <-. lia. }
    destruct (startswith _ (b "false")).
    { split; [discriminate |]. intros o e H. injection H as _ <-. lia. }
    destruct (if byte_in char number_start then _ else None) as [r |] eqn:Hnum.
    { destruct (byte_in char number_start); [| discriminate].
      destruct (parse_number_progress _ _ _ Hnum) as [Hr Hp].
      split; [intros _; exact Hr |]. intros o e H. specialize (Hp o e H). lia. }
    destruct (char =? 47).
    { split; [discriminate |]. intros o e H. injection H as _ <-.
      match goal with |- context [span_len ?p ?l] => pose proof (span_len_nonneg p l) as Hs;
        revert Hs; generalize (span_len p l) end. intros; lia. }
    destruct (char =? 40).
    { unfold _parse_literal_string. split.
      - intros _. apply literal_loop_returns; [lia |]. unfold blen. lia.
      - intros o e H. apply literal_loop_progress in H. lia. }
    destruct (char =? 60).
    { destruct (bool_decide _).
      - destruct (IHd data (idx' + 2) [] ltac:(lia)) as [Ht Hp]. split.
        + intros Hf. apply Ht. lia.
        + intros o e H. apply Hp in H. lia.
      - destruct (parse_hex_string_spec data idx' Hin) as (s & e' & -> & He).
        split; [discriminate |]. intros o e H. injection H as _ <-. lia. }
    destruct (char =? 91).
    { destruct (IHa data (idx' + 1) [] ltac:(lia)) as [Ht Hp]. split.
      - intros Hf. apply Ht. lia.
      - intros o e H. apply Hp in H. lia. }
    destruct (startswith _ (b "<<")).
    { destruct (IHd data (idx' + 2) [] ltac:(lia)) as [Ht Hp]. split.
      - intros Hf. apply Ht. lia.
      - intros o e H. apply Hp in H. lia. }
    destruct (re_ref _) as [[[a c] stop] |] eqn:Href.
    + apply re_ref_pos in Href. split; [discriminate |].
      intros o e H. injection H as _ <-. lia.
    + split; [discriminate |]. intros o e H. injection H as _ <-. lia.
  - intros data idx arr Hidx. simpl.
    destruct (idx <? blen data) eqn:Hlt.
    2:{ split; [discriminate |]. intros o e H. injection H as _ <-. lia. }
    apply Z.ltb_lt in Hlt.
    pose proof (skip_ws_ge data idx) as Hskip.
    set (idx' := skip_ws data idx) in *.
    destruct (blen data <=? idx') eqn:Hend; simpl.
    { split; [discriminate |]. intros o e H. injection H as _ <-. lia. }
    apply Z.leb_gt in Hend.
    destruct (bool_decide _).
    { split; [discriminate |]. intros o e H. injection H as _ <-. lia. }
    destruct (IHo data idx' ltac:(lia)) as [Ht Hp]. split.
    + intros Hf. apply bind_returns; [apply Ht; lia |].
      intros [obj idx2] Hobj. destruct (Hp _ _ Hobj) as [_ Hprog].
      specialize (Hprog Hend).
      apply (proj1 (IHa data idx2 (arr ++ [obj]) ltac:(lia))). lia.
    + intros o e H. apply bind_Ret in H as ([obj idx2] & Hobj & H).
      destruct (Hp _ _ Hobj) as [Hle _].
      apply (proj2 (IHa data idx2 (arr ++ [obj]) ltac:(lia))) in H. lia.
  - intros data idx d Hidx. simpl.
    destruct (idx <? blen data) eqn:Hlt.
    2:{ split; [discriminate |]. intros o e H. injection H as _ <-. lia. }
    apply Z.ltb_lt in Hlt.
    pose proof (skip_ws_ge data idx) as Hskip.
    set (idx' := skip_ws data idx) in *.
    destruct (blen data <=? idx') eqn:Hend; simpl.
    { split; [discriminate |]. intros o e H. injection H as _ <-. lia. }
    apply Z.leb_gt in Hend.
    destruct (startswith _ (b ">>")).
    { split; [discriminate |]. intros o e H. injection H as _ <-. lia. }
    destruct (negb _).
    { destruct (IHd data (idx' + 1) d ltac:(lia)) as [Ht Hp]. split.
      - intros Hf. apply Ht. lia.
      - intros o e H. apply Hp in H. lia. }
    destruct (IHo data idx' ltac:(lia)) as [Ht Hp]. split.
    + intros Hf. apply bind_returns; [apply Ht; lia |].
      intros [key idx1] Hkey. destruct (Hp _ _ Hkey) as [_ Hprog]. specialize (Hprog Hend).
      pose proof (skip_ws_ge data idx1) as Hskip1.
      destruct (IHo data (skip_ws data idx1) ltac:(lia)) as [Ht1 Hp1].
      apply bind_returns; [apply Ht1; lia |].
      intros [value idx2] Hval. destruct (Hp1 _ _ Hval) as [Hle2 _].
      apply bind_returns; [apply dict_setitem_returns |].
      intros d' _. apply (proj1 (IHd data idx2 d' ltac:(lia))). lia.
    + intros o e H. apply bind_Ret in H as ([key idx1] & Hkey & H).
      destruct (Hp _ _ Hkey) as [Hle1 _].
      pose proof (skip_ws_ge data idx1) as Hskip1.
      apply bind_Ret in H as ([value idx2] & Hval & H).
      destruct (proj2 (IHo data (skip_ws data idx1) ltac:(lia)) _ _ Hval) as [Hle2 _].
      apply bind_Ret in H as (d' & _ & H).
      apply (proj2 (IHd data idx2 d' ltac:(lia))) in H. lia.
Qed.

Lemma parse_fuel_enough data idx :
  0 <= idx -> _parse_object (parse_fuel data) data idx <> Diverge.
Proof.
  intros Hidx. apply (proj1 (parse_total (parse_fuel data))); [exact Hidx |].
  unfold parse_fuel, blen. lia.
Qed.

(** X1: from every non-negative index the object parser returns or raises
    within the recursion depth [parse_fuel] allows; the index it returns is
    never before the one it was given, and is past it when that one lies
    inside the data. *)
Theorem parse_object_returns data idx :
  0 <= idx ->
  terminates (_parse_object (parse_fuel data) data idx) /\
  (forall o e, _parse_object (parse_fuel data) data idx = Ret (o, e) ->
               idx <= e /\ (idx < blen data -> idx < e)).
Proof.
  intros Hidx. split; [apply parse_fuel_enough; exact Hidx |].
  exact (proj2 (proj1 (parse_total (parse_fuel data)) data idx Hidx)).
Qed.

Lemma parse_object_returns_witness :
  terminates (_parse_object (parse_fuel (b "[(a) <<")) (b "[(a) <<") 0) /\
  (forall o e, _parse_object (parse_fuel (b "[(a) <<")) (b "[(a) <<") 0 = Ret (o, e) ->
               0 <= e /\ (0 < blen (b "[(a) <<") -> 0 < e)).
Proof. apply (parse_object_returns (b "[(a) <<") 0). lia. Defined.

(** ** The object parser yields no reference *)

(** X2: whatever the object parser returns neither is nor holds, at any
    depth, an indirect reference. *)
Theorem parse_object_no_reference fuel data idx o e :
  _parse_object fuel data idx = Ret (o, e) -> has_indirect o = false.
Proof. apply parse_no_indirect. Qed.

Lemma parse_object_no_reference_witness :
  exists o, _parse_object (parse_fuel (b "[1 0 R]")) (b "[1 0 R]") 0 = Ret (o, 7) /\
            has_indirect o = false.
Proof.
  eexists. split; [vm_compute; reflexivity |].
  apply (parse_object_no_reference (parse_fuel (b "[1 0 R]")) (b "[1 0 R]") 0 _ 7).
  vm_compute. reflexivity.
Defined.

(** ** Resolution returns *)

Lemma re_header_pos s a c e : re_header s = Some (a, c, e) -> 0 < e.
Proof.
  unfold re_header. intros H.
  apply bind_Some in H as (d1 & Hd1 & H). apply digits1_pos in Hd1.
  apply bind_Some in H as (w1 & Hw1 & H). apply spaces1_pos in Hw1.
  apply bind_Some in H as (d2 & Hd2 & H). apply digits1_pos in Hd2.
  apply bind_Some in H as (w2 & Hw2 & H). apply spaces1_pos in Hw2.
  destruct (bool_decide _); [| discriminate]. injection H as _ _ <-.
  match goal with |- context [span_len ?p ?l] => pose proof (span_len_nonneg p l) as Hs;
    revert Hs; generalize (span_len p l) end.
  intros; lia.
Qed.

Lemma for_each_returns {A S} (f : S -> A -> res S) (l : list A) :
  (forall s x, f s x <> Diverge) -> forall s, for_each f l s <> Diverge.
Proof.
  intros Hf. induction l as [| x l IH]; intros s; simpl; [discriminate |].
  apply bind_returns; [apply Hf | intros; apply IH].
Qed.

Lemma update_from_returns obj : update_from obj <> Diverge.
Proof.
  destruct obj; simpl; try discriminate; try apply dict_update_returns.
  apply for_each_returns. intros d item.
  apply bind_returns; [apply (py_iter_returns (Some item)) |].
  intros pair _. destruct pair as [| k [| v [| ? ?]]]; try discriminate.
  apply dict_setitem_returns.
Qed.

Lemma read_stream_returns data idx obj length : read_stream data idx obj length <> Diverge.
Proof.
  unfold read_stream.
  destruct (match length with Some _ => _ | None => _ end) as [stream_data idx'].
  apply bind_returns; [apply update_from_returns | discriminate].
Qed.

#[local] Opaque parse_fuel get_object read_stream.

Lemma parse_indirect_object_flat fuel self offset :
  _parse_indirect_object (S fuel) self offset <> Diverge /\
  _parse_indirect_object (S fuel) self offset = _parse_indirect_object 1 self offset.
Proof.
  simpl.
  destruct (re_header _) as [[[obj_num gen_num] idx] |] eqn:Hh; [| split; [discriminate | reflexivity]].
  apply re_header_pos in Hh.
  pose proof (parse_fuel_enough (py_slice_from (_data self) offset) idx ltac:(lia)) as Ht.
  destruct (_parse_object _ _ idx) as [[obj idx1] | |] eqn:Hobj;
    [| split; [discriminate | reflexivity] | exfalso; apply Ht; reflexivity].
  simpl. apply (proj1 (parse_no_indirect _)) in Hobj.
  destruct (re_stream _) as [stop |]; [| split; [discriminate | reflexivity]].
  assert (Hlen : forall d, clean_dict d ->
            exists r,
              r <> Diverge /\
              (forall fuel', match dict_get d (u "/Length") with
               | Some (NumberObject v) => len ← int_of_number v; Ret (Some len, log_parse self offset)
               | Some (IndirectObject n g p) =>
                   '(length_ref, self0) ← get_object fuel' (log_parse self offset) (IndirectObject n g p);
                   match length_ref with
                   | Some r => if truthy r
                               then len ← int_value r; Ret (Some len, self0)
                               else Ret (None, self0)
                   | None => Ret (None, self0)
                   end
               | _ => Ret (None, log_parse self offset)
               end = r)).
  { intros d Hd. destruct (dict_get d (u "/Length")) as [v |] eqn:Hl;
      [| eexists; split; [| reflexivity]; discriminate].
    pose proof (dict_get_clean _ _ _ Hd Hl) as Hv.
    destruct v; try discriminate; try (eexists; split; [| reflexivity]; discriminate).
    eexists. split; [| reflexivity].
    intros Hdiv. apply bind_Diverge in Hdiv as [Hdiv | (len & _ & Hdiv)];
      [exact (int_of_number_returns _ Hdiv) | discriminate]. }
  assert (Hend : forall len s,
            ('(obj0, idx0) ← read_stream (py_slice_from (_data self) offset) (idx1 + stop) obj len;
             Ret (Some obj0, offset + idx0, s))
            <> (Diverge : res (pyobj * Z * PdfReader))).
  { intros len s. apply bind_returns; [apply read_stream_returns |]. intros [? ?] _. discriminate. }
  destruct obj; simpl;
    try (split; [apply Hend | reflexivity]);
    (destruct (Hlen items Hobj) as (r & Hr & Hl); rewrite (Hl fuel), (Hl 0%nat);
     destruct r as [[len s] | e |]; simpl;
     [split; [apply Hend | reflexivity] | split; [discriminate | reflexivity] | contradiction]).
Qed.

#[local] Transparent get_object.

Lemma get_object_flat fuel self ref :
  get_object (S (S fuel)) self ref <> Diverge /\
  get_object (S (S fuel)) self ref = get_object 2 self ref.
Proof.
  change (get_object (S (S fuel)) self ref) with
    (obj_num ← match ref with
               | IndirectObject object_number _ _ => Ret object_number
               | NumberObject v => int_of_number v
               | _ => Raise TypeError
               end;
     match _objects self !! obj_num with
     | Some cached => Ret (cached, self)
     | None =>
         match _xref self !! obj_num with
         | None => Ret (None, self)
         | Some (offset, gen) =>
             '(obj, _, self) ← _parse_indirect_object (S fuel) self offset;
             Ret (obj, set_objects self (<[obj_num := obj]> (_objects self)))
         end
     end).
  change (get_object 2 self ref) with
    (obj_num ← match ref with
               | IndirectObject object_number _ _ => Ret object_number
               | NumberObject v => int_of_number v
               | _ => Raise TypeError
               end;
     match _objects self !! obj_num with
     | Some cached => Ret (cached, self)
     | None =>
         match _xref self !! obj_num with
         | None => Ret (None, self)
         | Some (offset, gen) =>
             '(obj, _, self) ← _parse_indirect_object 1 self offset;
             Ret (obj, set_objects self (<[obj_num := obj]> (_objects self)))
         end
     end).
  destruct (match ref with IndirectObject _ _ _ => _ | _ => _ end) as [n | |] eqn:Hn;
    [| split; [discriminate | reflexivity]
     | destruct ref; try discriminate; exfalso; exact (int_of_number_returns _ Hn)].
  rewrite !ret_bind.
  destruct (_objects self !! n); [split; [discriminate | reflexivity] |].
  destruct (_xref self !! n) as [[offset gen] |]; [| split; [discriminate | reflexivity]].
  destruct (parse_indirect_object_flat fuel self offset) as [Ht ->].
  split; [| reflexivity].
  apply bind_returns; [apply (parse_indirect_object_flat 0) |]. intros [[? ?] ?] _. discriminate.
Qed.

(** X3: resolving a reference always returns or raises, and never nests:
    the indirect-object parser finds no reference to resolve for a stream
    length, so a recursion depth of two is all any resolution uses. *)
Theorem get_object_returns fuel self ref :
  terminates (get_object (S (S fuel)) self ref) /\
  get_object (S (S fuel)) self ref = get_object 2 self ref.
Proof. apply get_object_flat. Qed.

#[local] Transparent read_stream.

(** X4: a resolution that returns leaves the document as it was and
    touches the cache in one place at most: either the cache is unchanged,
    or the number resolved was absent from it and is now bound to the value
    returned. *)
Theorem get_object_frame fuel self ref r self' :
  get_object fuel self ref = Ret (r, self') ->
  same_document self self' /\
  (_objects self' = _objects self \/
   exists n, _objects self !! n = None /\ _objects self' = <[n := r]> (_objects self)).
Proof.
  intros H. split; [exact (proj1 (resolve_same_document fuel) _ _ _ _ H) |].
  destruct fuel as [| fuel]; [discriminate |]. simpl in H.
  apply bind_Ret in H as (n & _ & H).
  destruct (_objects self !! n) eqn:Ho; [injection H as _ <-; left; reflexivity |].
  destruct (_xref self !! n) as [[offset gen] |]; [| injection H as _ <-; left; reflexivity].
  apply bind_Ret in H as ([[obj e] s1] & Hp & H). injection H as <- <-.
  apply parse_indirect_object_state in Hp. subst s1.
  right. exists n. split; [exact Ho | reflexivity].
Qed.

Lemma get_object_frame_witness :
  exists r self',
    get_object 2 (set_xref (new_reader minimal_pdf) {[2 := (58, 0)]}) (ref 2) = Ret (r, self') /\
    same_document (set_xref (new_reader minimal_pdf) {[2 := (58, 0)]}) self' /\
    (_objects self' = ∅ \/
     exists n, (∅ : gmap Z pyobj) !! n = None /\ _objects self' = <[n := r]> ∅).
Proof.
  destruct (get_object 2 (set_xref (new_reader minimal_pdf) {[2 := (58, 0)]}) (ref 2))
    as [[r self'] | |] eqn:E; [| vm_compute in E; discriminate..].
  exists r, self'. split; [reflexivity |].
  exact (get_object_frame 2 (set_xref (new_reader minimal_pdf) {[2 := (58, 0)]}) (ref 2) r self' E).
Defined.

(** ** The keys of a parsed dictionary *)


Lemma skip_ws_here data idx c :
  at_ data idx = Some c -> byte_in c pdf_ws = false -> skip_ws data idx = idx.
Proof.
  intros Hat Hc. destruct (at_slice _ _ _ Hat) as [rest Hs].
  unfold skip_ws. rewrite Hs. simpl. rewrite Hc. lia.
Qed.








Lemma literal_loop_shape fuel :
  forall data idx depth result o e,
    literal_loop fuel data idx depth result = Ret (o, e) -> exists s, o = StringObject s.
Proof.
  induction fuel as [| fuel IH]; intros data idx depth result o e H; simpl in H; [discriminate |].
  repeat match type of H with
         | (if ?c then _ else _) = _ => destruct c
         | (let '(_, _) := ?x in _) = _ => destruct x
         | match ?x with _ => _ end = _ => destruct x
         | _ ≫= _ = _ => let a := fresh in let Ha := fresh in
                         apply bind_Ret in H; destruct H as (a & Ha & H)
         end;
    try (injection H as <- _; eauto); eauto.
Qed.

Lemma parse_number_shape s idx o e :
  parse_number s idx = Some (Ret (o, e)) ->
  (exists v, o = NumberObject v) \/ (exists n g p, o = IndirectObject n g p).
Proof.
  unfold parse_number. intros H.
  repeat match type of H with
         | (if ?c then _ else _) = _ => destruct c
         | match ?x with _ => _ end = _ => destruct x
         end; simplify_eq; eauto 6.
Qed.



(** ** The page list *)

Lemma get_object_pages fuel self ref r self' :
  get_object fuel self ref = Ret (r, self') -> _pages self' = _pages self.
Proof. intros H. apply (proj1 (resolve_same_document fuel)) in H. apply H. Qed.

Lemma for_each_appends (f : PdfReader -> PdfObject -> res PdfReader) kids :
  (forall s kid s' l, _pages s = Some l -> f s kid = Ret s' ->
                      exists l', _pages s' = Some (l ++ l')) ->
  forall s s' l, _pages s = Some l -> for_each f kids s = Ret s' ->
                 exists l', _pages s' = Some (l ++ l').
Proof.
  intros Hf. induction kids as [| kid kids IH]; intros s s' l Hl H; simpl in H.
  - injection H as <-. exists []. rewrite app_nil_r. exact Hl.
  - apply bind_Ret in H as (s1 & H1 & H).
    destruct (Hf _ _ _ _ Hl H1) as [l1 Hl1].
    destruct (IH _ _ _ Hl1 H) as [l2 Hl2].
    exists (l1 ++ l2). rewrite app_assoc. exact Hl2.
Qed.

#[local] Opaque get_object.

Lemma collect_appends fuel :
  forall self node self' l,
    _pages self = Some l -> _collect_pages fuel self node = Ret self' ->
    exists l', _pages self' = Some (l ++ l').
Proof.
  induction fuel as [| fuel IH]; intros self node self' l Hl H; [discriminate |].
  rewrite collect_pages_unfold in H.
  assert (Hsame : exists l', _pages self = Some (l ++ l')) by (exists []; rewrite app_nil_r; exact Hl).
  apply bind_Ret in H as ([node1 s1] & Hnode & H).
  assert (Hl1 : _pages s1 = Some l).
  { destruct node as [[] |]; try (injection Hnode as _ <-; exact Hl).
    apply get_object_pages in Hnode. congruence. }
  clear Hnode Hsame.
  assert (Hkeep : exists l', _pages s1 = Some (l ++ l')) by (exists []; rewrite app_nil_r; exact Hl1).
  assert (Hdict : forall d,
    (if negb (match d with [] => false | _ => true end) then Ret s1
     else
       let node_type := dict_get d (u "/Type") in
       if is_name node_type (u "Page") then
         page ← new_page d;
         match _pages s1 with
         | Some collected => Ret (set_pages s1 (Some (collected ++ [page])))
         | None => Raise AttributeError
         end
       else if is_name node_type (u "Pages") then
         '(kids, self) ←
           match dict_get d (u "/Kids") with
           | Some (IndirectObject n g p) =>
               '(kids, self) ← get_object fuel s1 (IndirectObject n g p);
               kids ← py_iter kids;
               Ret (kids, self)
           | Some kids => kids ← py_iter (Some kids); Ret (kids, s1)
           | None => Ret ([], s1)
           end;
         for_each (fun self kid => _collect_pages fuel self (Some kid)) kids self
       else Ret s1) = Ret self' ->
    exists l', _pages self' = Some (l ++ l')).
  { intros d Hd. destruct (negb _); [injection Hd as <-; exact Hkeep |]. cbv zeta in Hd.
    destruct (is_name _ (u "Page")).
    - apply bind_Ret in Hd as (page & _ & Hd). rewrite Hl1 in Hd. injection Hd as <-.
      exists [page]. reflexivity.
    - destruct (is_name _ (u "Pages")); [| injection Hd as <-; exact Hkeep].
      apply bind_Ret in Hd as ([kids s2] & Hkids & Hd).
      assert (Hl2 : _pages s2 = Some l).
      { destruct (dict_get d (u "/Kids")) as [[] |];
          try (apply bind_Ret in Hkids as (? & _ & Hkids); injection Hkids as _ <-; exact Hl1);
          try (injection Hkids as _ <-; exact Hl1).
        apply bind_Ret in Hkids as ([k s3] & Hg & Hkids).
        apply bind_Ret in Hkids as (? & _ & Hkids). injection Hkids as _ <-.
        apply get_object_pages in Hg. congruence. }
      eapply for_each_appends; [| exact Hl2 | exact Hd].
      intros s kid s' l0 Hl0 Hc. exact (IH _ _ _ _ Hl0 Hc). }
  destruct node1 as [[] |]; try (injection H as <-; exact Hkeep); apply (Hdict _ H).
Qed.

(** X6: collecting pages only ever appends to the page list: the pages
    found before a call are still there after it, in the same order, at the
    front. *)
Theorem collect_pages_appends fuel self node self' l :
  _pages self = Some l -> _collect_pages fuel self node = Ret self' ->
  exists l', _pages self' = Some (l ++ l').
Proof. apply collect_appends. Qed.

Lemma collect_pages_appends_witness :
  exists self' found,
    _collect_pages 3 (set_pages plain_tree (Some [boxless_page])) (Some (ref 2)) = Ret self' /\
    _pages self' = Some ([boxless_page] ++ [found]).
Proof.
  destruct (_collect_pages 3 (set_pages plain_tree (Some [boxless_page])) (Some (ref 2)))
    as [self' | |] eqn:E; [| vm_compute in E; discriminate..].
  destruct (collect_pages_appends 3 (set_pages plain_tree (Some [boxless_page])) (Some (ref 2))
              self' [boxless_page] eq_refl E) as [l' Hl'].
  assert (Hone : exists found, l' = [found]).
  { revert Hl'. vm_compute in E. injection E as <-. cbn [_pages].
    intros [= <-]. eexists. reflexivity. }
  destruct Hone as [found ->].
  exists self', found. split; [reflexivity | exact Hl'].
Defined.

#[local] Transparent get_object.

Lemma pages_cached fuel self l self' :
  pages fuel self = Ret (l, self') -> _pages self' = Some l.
Proof.
  intros H.
  unfold pages in H. destruct (_pages self) as [cached |] eqn:Hp.
  { injection H as <- <-. exact Hp. }
  set (s0 := set_pages self (Some [])) in *.
  assert (H0 : _pages s0 = Some []) by reflexivity.
  assert (Hdone : forall s x, _pages s = Some x -> Ret (default [] (_pages s), s) = Ret (l, self') ->
                              _pages self' = Some l).
  { intros s x Hx Hr. rewrite Hx in Hr. simpl in Hr. injection Hr as <- <-. exact Hx. }
  cbv zeta in H.
  destruct (_trailer s0) as [trailer |]; [| exact (Hdone _ _ H0 H)].
  destruct (negb (truthy trailer)); [exact (Hdone _ _ H0 H) |].
  apply bind_Ret in H as (root_ref & _ & H).
  destruct root_ref as [root_ref |]; [| exact (Hdone _ _ H0 H)].
  destruct (negb (truthy root_ref)); [exact (Hdone _ _ H0 H) |].
  apply bind_Ret in H as ([root s1] & Hroot & H).
  apply get_object_pages in Hroot. rewrite H0 in Hroot.
  destruct root as [root |]; [| exact (Hdone _ _ Hroot H)].
  destruct (negb (truthy root)); [exact (Hdone _ _ Hroot H) |].
  apply bind_Ret in H as (pages_ref & _ & H).
  destruct pages_ref as [pages_ref |]; [| exact (Hdone _ _ Hroot H)].
  destruct (negb (truthy pages_ref)); [exact (Hdone _ _ Hroot H) |].
  apply bind_Ret in H as ([pgs s2] & Hpgs & H).
  apply get_object_pages in Hpgs. rewrite Hroot in Hpgs.
  destruct (negb (py_truthy pgs)); [exact (Hdone _ _ Hpgs H) |].
  apply bind_Ret in H as (s3 & Hc & H).
  destruct (collect_appends _ _ _ _ _ Hpgs Hc) as [l' Hl'].
  exact (Hdone _ _ Hl' H).
Qed.

(** X7: the page list is computed once: when [pages] returns, the reader
    it leaves holds the list, and every later call returns that list and
    leaves the reader as it is. *)
Theorem pages_memoized fuel self l self' :
  pages fuel self = Ret (l, self') ->
  _pages self' = Some l /\ forall fuel', pages fuel' self' = Ret (l, self').
Proof.
  intros H. pose proof (pages_cached _ _ _ _ H) as Hcached.
  split; [exact Hcached |]. intros fuel'. unfold pages. rewrite Hcached. reflexivity.
Qed.

Lemma pages_memoized_witness :
  exists self page self',
    __init__ no_zlib 2 inline_page_pdf None = Ret self /\ _pages self = None /\
    pages 3 self = Ret ([page], self') /\ _pages self' = Some [page] /\
    pages 0 self' = Ret ([page], self').
Proof.
  destruct (__init__ no_zlib 2 inline_page_pdf None) as [self | |] eqn:Einit;
    [| vm_compute in Einit; discriminate..].
  assert (Hnone : _pages self = None).
  { vm_compute in Einit. injection Einit as <-. reflexivity. }
  destruct (pages 3 self) as [[l self'] | |] eqn:E;
    [| exfalso; revert E; vm_compute in Einit; injection Einit as <-;
       vm_compute; discriminate..].
  assert (Hone : exists page, l = [page]).
  { revert E. vm_compute in Einit. injection Einit as <-. vm_compute.
    intros [= <- _]. eexists. reflexivity. }
  destruct Hone as [page ->].
  destruct (pages_memoized 3 self [page] self' E) as [Hl Hagain].
  exists self, page, self'.
  split; [reflexivity |]. split; [exact Hnone |]. split; [exact E |].
  split; [exact Hl | exact (Hagain 0%nat)].
Defined.

(** ** Filters other than Flate *)

Lemma apply_filters_other (zlib : bytes -> option bytes) (filters : list PdfObject) :
  Forall (fun f => is_flate f = false) filters ->
  forall data, apply_filters zlib filters data = data.
Proof.
  induction 1 as [| f filters Hf _ IH]; intros data; simpl; [reflexivity |].
  rewrite Hf. apply IH.
Qed.

(** X8: a stream whose /Filter entry, a name or an array, names no Flate
    filter decodes to its raw bytes, whatever the decompressor would do:
    every other filter is passed over. *)
Theorem decode_data_other_filters (zlib : bytes -> option bytes) (d : dict) (raw : bytes)
  (entry : PdfObject) (filters : list PdfObject) :
  dict_get d (u "/Filter") = Some entry ->
  (exists n, entry = MkNameObject n /\ filters = [entry]) \/ entry = ArrayObject filters ->
  Forall (fun f => is_flate f = false) filters ->
  decode_data zlib d raw None = Ret (raw, StreamObject d raw (Some raw)).
Proof.
  intros Hget Hentry Hother. unfold decode_data. rewrite Hget.
  destruct Hentry as [(n & -> & ->) | ->].
  - change (truthy (MkNameObject n)) with true. cbv iota.
    rewrite !ret_bind, (apply_filters_other zlib _ Hother). reflexivity.
  - destruct (truthy (ArrayObject filters)); [| reflexivity].
    rewrite !ret_bind, (apply_filters_other zlib _ Hother). reflexivity.
Qed.

Lemma decode_data_other_filters_witness :
  decode_data (fun data => Some (data ++ data))
              [(NameObject (u "Filter"),
                ArrayObject [NameObject (u "ASCII85Decode"); NameObject (u "LZWDecode")])]
              (b "raw") None
  = Ret (b "raw",
         StreamObject [(NameObject (u "Filter"),
                        ArrayObject [NameObject (u "ASCII85Decode"); NameObject (u "LZWDecode")])]
                      (b "raw") (Some (b "raw"))).
Proof.
  apply (decode_data_other_filters _ _ _
           (ArrayObject [NameObject (u "ASCII85Decode"); NameObject (u "LZWDecode")])
           [NameObject (u "ASCII85Decode"); NameObject (u "LZWDecode")]).
  - reflexivity.
  - right. reflexivity.
  - repeat constructor.
Defined.

(** ** Page rotation *)

Lemma dict_replace_get d n v d' :
  dict_replace d (MkNameObject n) v = Some d' -> dict_get d' n = Some v.
Proof.
  revert d'. induction d as [| [k0 v0] d IH]; intros d' H; simpl in H; [discriminate |].
  destruct (key_eqb k0 (MkNameObject n)) eqn:Ek.
  - injection H as <-. destruct k0; try discriminate. simpl in *. rewrite Ek. reflexivity.
  - destruct (dict_replace d (MkNameObject n) v) as [d'' |]; [| discriminate].
    injection H as <-. specialize (IH _ eq_refl).
    destruct k0; simpl in *; try exact IH. rewrite Ek. exact IH.
Qed.

Lemma dict_append_get d n v :
  dict_replace d (MkNameObject n) v = None ->
  dict_get (d ++ [(MkNameObject n, v)]) n = Some v.
Proof.
  induction d as [| [k0 v0] d IH]; simpl; intros H.
  - unfold str_eqb. rewrite bool_decide_eq_true_2 by reflexivity. reflexivity.
  - destruct (key_eqb k0 (MkNameObject n)) eqn:Ek; [discriminate |].
    destruct (dict_replace d (MkNameObject n) v); [discriminate |].
    specialize (IH eq_refl). destruct k0; simpl in *; try exact IH. rewrite Ek. exact IH.
Qed.

Lemma dict_replace_again d k v w d' :
  dict_replace d k v = Some d' -> dict_replace d' k w = dict_replace d k w.
Proof.
  revert d'. induction d as [| [k0 v0] d IH]; intros d' H; simpl in H; [discriminate |].
  destruct (key_eqb k0 k) eqn:Ek.
  - injection H as <-. simpl. rewrite Ek. reflexivity.
  - destruct (dict_replace d k v) as [d'' |] eqn:E; [| discriminate].
    injection H as <-. simpl. rewrite Ek, (IH _ eq_refl). reflexivity.
Qed.

Lemma dict_replace_present d k v w d' :
  dict_replace d k v = Some d' -> exists d'', dict_replace d k w = Some d''.
Proof.
  revert d'. induction d as [| [k0 v0] d IH]; intros d' H; simpl in *; [discriminate |].
  destruct (key_eqb k0 k); [eauto |].
  destruct (dict_replace d k v) as [d1 |]; [| discriminate].
  destruct (IH _ eq_refl) as [d2 ->]. eauto.
Qed.

Lemma dict_replace_appended d n v w :
  dict_replace d (MkNameObject n) v = None ->
  dict_replace (d ++ [(MkNameObject n, v)]) (MkNameObject n) w
  = Some (d ++ [(MkNameObject n, w)]).
Proof.
  induction d as [| [k0 v0] d IH]; simpl; intros H.
  - unfold str_eqb. rewrite bool_decide_eq_true_2 by reflexivity. reflexivity.
  - destruct (key_eqb k0 (MkNameObject n)) eqn:Ek; [discriminate |].
    destruct (dict_replace d (MkNameObject n) v) eqn:E; [discriminate |].
    rewrite (IH eq_refl). reflexivity.
Qed.

(** Storing under a name: the stored value is what a lookup finds, and
    storing twice is storing the later value. *)
Lemma dict_setitem_name d n v :
  exists d', dict_setitem d (MkNameObject n) v = Ret d' /\
             dict_get d' n = Some v /\
             forall w, dict_setitem d' (MkNameObject n) w = dict_setitem d (MkNameObject n) w.
Proof.
  unfold dict_setitem. simpl.
  destruct (dict_replace d (MkNameObject n) v) as [d' |] eqn:E.
  - exists d'. split; [reflexivity |]. split; [eapply dict_replace_get; exact E |].
    intros w. rewrite (dict_replace_again _ _ _ w _ E).
    destruct (dict_replace_present _ _ _ w _ E) as [d'' ->]. reflexivity.
  - eexists. split; [reflexivity |]. split; [apply dict_append_get; exact E |].
    intros w. rewrite (dict_replace_appended _ _ _ w E).
    assert (Hw : dict_replace d (MkNameObject n) w = None).
    { clear -E. induction d as [| [k0 v0] d IH]; simpl in *; [reflexivity |].
      destruct (key_eqb k0 (MkNameObject n)); [discriminate |].
      destruct (dict_replace d (MkNameObject n) v); [discriminate |].
      rewrite (IH eq_refl). reflexivity. }
    rewrite Hw. reflexivity.
Qed.

(** X9: rotation composes.  [rotate] fails in one case only, with the
    [OverflowError] of [int] on a /Rotate float too large for a double, and
    then for every angle; otherwise the page holds an integer angle in
    [0, 360) afterwards, and rotating by [a] and then by [c] gives the page
    that rotating once by [a + c] gives. *)
Theorem rotate_compose (page : PageObject) (a c : Z) :
  match rotate page a with
  | Ret p1 =>
      (exists r, dict_get (page_items p1) (u "/Rotate") = Some (number_of r) /\ 0 <= r < 360) /\
      exists p2, rotate p1 c = Ret p2 /\ rotate page (a + c) = Ret p2
  | Raise e =>
      e = OverflowError /\
      (exists literal,
         dict_get (page_items page) (u "/Rotate") = Some (NumberObject (NReal literal))) /\
      forall a', rotate page a' = Raise OverflowError
  | Diverge => False
  end.
Proof.
  unfold rotate.
  change (NameObject (u "Rotate")) with (MkNameObject (u "/Rotate")).
  destruct (match dict_get (page_items page) (u "/Rotate") with
            | Some (NumberObject v) => int_of_number v
            | _ => Ret 0
            end) as [current | e |] eqn:Hcur.
  - cbn [mbind res_bind].
    destruct (dict_setitem_name (page_items page) (u "/Rotate") (number_of ((current + a) mod 360)))
      as (d1 & Hset & Hget & Hagain).
    rewrite Hset. cbn [mbind res_bind page_items page_pdf indirect_ref].
    split; [exists ((current + a) mod 360); split; [exact Hget | apply Z.mod_pos_bound; lia] |].
    rewrite Hget. cbn [number_of int_of_number mbind res_bind].
    rewrite Hagain, Zplus_mod_idemp_l.
    replace (current + a + c) with (current + (a + c)) by lia.
    destruct (dict_setitem_name (page_items page) (u "/Rotate")
                (number_of ((current + (a + c)) mod 360))) as (d2 & Hset2 & _).
    rewrite Hset2. cbn [mbind res_bind]. eexists. split; reflexivity.
  - destruct (dict_get (page_items page) (u "/Rotate")) as [[| | v | | | | | | |] |];
      try discriminate.
    destruct (int_of_number_raises _ _ Hcur) as [-> [literal ->]].
    split; [reflexivity |]. split; [exists literal; reflexivity |]. intros a'. reflexivity.
  - destruct (dict_get (page_items page) (u "/Rotate")) as [[| | v | | | | | | |] |];
      try discriminate.
    exact (int_of_number_returns _ Hcur).
Qed.

(** Both outcomes occur.  A /Rotate read from a literal that rounds to the
    double 90.0 counts as 90, and one read from a literal beyond the
    largest double makes every rotation raise. *)
Example rotate_float_angles :
  (page ← rotate {| page_pdf := false; indirect_ref := None;
                     page_items := [(NameObject (u "Rotate"),
                                     NumberObject (NReal (u "89.99999999999999999999")))] |} 0;
   Ret (dict_get (page_items page) (u "/Rotate"))) = Ret (Some (number_of 90)) /\
  rotate {| page_pdf := false; indirect_ref := None;
            page_items := [(NameObject (u "Rotate"),
                            NumberObject (NReal (u "1" ++ replicate 400 48 ++ u ".0")))] |} 90
    = Raise OverflowError.
Proof. split; vm_compute; reflexivity. Qed.

(** ** The other boxes *)

(** X10: a page that declares none of /CropBox, /TrimBox, /BleedBox and
    /ArtBox reports its media box for each of them. *)
Theorem boxes_default_to_mediabox fuel self page :
  dict_get (page_items page) (u "/CropBox") = None ->
  dict_get (page_items page) (u "/TrimBox") = None ->
  dict_get (page_items page) (u "/BleedBox") = None ->
  dict_get (page_items page) (u "/ArtBox") = None ->
  cropbox fuel self page = mediabox fuel self page /\
  trimbox fuel self page = mediabox fuel self page /\
  bleedbox fuel self page = mediabox fuel self page /\
  artbox fuel self page = mediabox fuel self page.
Proof.
  intros Hc Ht Hb Ha. unfold artbox, bleedbox, trimbox, cropbox, box_or.
  rewrite Hc, Ht, Hb, Ha. repeat split.
Qed.

Lemma boxes_default_to_mediabox_witness :
  cropbox 2 parent_box boxless_page = mediabox 2 parent_box boxless_page /\
  trimbox 2 parent_box boxless_page = mediabox 2 parent_box boxless_page /\
  bleedbox 2 parent_box boxless_page = mediabox 2 parent_box boxless_page /\
  artbox 2 parent_box boxless_page = mediabox 2 parent_box boxless_page.
Proof. apply (boxes_default_to_mediabox 2 parent_box boxless_page); reflexivity. Defined.

(** X11: a blank page reports the dimensions it was created with, as its
    media box and as its crop box, with or without a reader at hand. *)
Theorem blank_page_mediabox (width height : Z) fuel self :
  exists page,
    create_blank_page width height = Ret page /\
    mediabox fuel self page = Ret (rect 0 0 width height, self) /\
    cropbox fuel self page = Ret (rect 0 0 width height, self).
Proof.
  eexists. split; [reflexivity |]. split; reflexivity.
Qed.

(** ** The parser reads forward only *)

Lemma blen_app {A} (l1 l2 : list A) : blen (l1 ++ l2) = blen l1 + blen l2.
Proof. unfold blen. rewrite length_app. lia. Qed.

Lemma at_shift pre s k : 0 <= k -> at_ (pre ++ s) (blen pre + k) = at_ s k.
Proof.
  intros Hk. unfold at_, blen.
  destruct (Z.ltb_spec (Z.of_nat (length pre) + k) 0); [lia |].
  destruct (Z.ltb_spec k 0); [lia |].
  replace (Z.to_nat (Z.of_nat (length pre) + k)) with (length pre + Z.to_nat k)%nat by lia.
  rewrite lookup_app_r by lia. f_equal. f_equal. lia.
Qed.

Lemma slice_from_shift {A} (pre s : list A) k :
  0 <= k -> py_slice_from (pre ++ s) (blen pre + k) = py_slice_from s k.
Proof.
  intros Hk. unfold py_slice_from, slice_bound. rewrite blen_app. unfold blen.
  destruct (Z.ltb_spec (Z.of_nat (length pre) + k) 0); [lia |].
  destruct (Z.ltb_spec k 0); [lia |].
  replace (Z.to_nat (Z.min (Z.of_nat (length pre) + k) (Z.of_nat (length pre) + Z.of_nat (length s))))
    with (length pre + Z.to_nat (Z.min k (Z.of_nat (length s))))%nat by lia.
  rewrite drop_app_add'; reflexivity.
Qed.

Lemma slice_shift {A} (pre s : list A) lo hi :
  0 <= lo -> 0 <= hi -> py_slice (pre ++ s) (blen pre + lo) (blen pre + hi) = py_slice s lo hi.
Proof.
  intros Hlo Hhi. unfold py_slice, slice_bound. rewrite blen_app. unfold blen.
  destruct (Z.ltb_spec (Z.of_nat (length pre) + lo) 0); [lia |].
  destruct (Z.ltb_spec (Z.of_nat (length pre) + hi) 0); [lia |].
  destruct (Z.ltb_spec lo 0); [lia |]. destruct (Z.ltb_spec hi 0); [lia |].
  replace (Z.to_nat (Z.min (Z.of_nat (length pre) + lo) (Z.of_nat (length pre) + Z.of_nat (length s))))
    with (length pre + Z.to_nat (Z.min lo (Z.of_nat (length s))))%nat by lia.
  rewrite drop_app_add' by reflexivity. f_equal. lia.
Qed.

Lemma find_shift pre s sub k :
  0 <= k ->
  find (pre ++ s) sub (blen pre + k)
  = if find s sub k =? -1 then -1 else blen pre + find s sub k.
Proof.
  intros Hk. unfold find. rewrite blen_app.
  pose proof (blen_nonneg pre) as Hp.
  destruct (Z.ltb_spec (blen pre + blen s) (blen pre + k)), (Z.ltb_spec (blen s) k);
    try lia; [reflexivity |].
  replace (Z.to_nat (blen pre + k)) with (length pre + Z.to_nat k)%nat by (unfold blen; lia).
  rewrite drop_app_add' by reflexivity.
  destruct (find_in sub (drop (Z.to_nat k) s)) as [i |] eqn:E; [| reflexivity].
  apply find_in_nonneg in E. destruct (Z.eqb_spec (k + i) (-1)); lia.
Qed.

Lemma skip_ws_shift pre s k :
  0 <= k -> skip_ws (pre ++ s) (blen pre + k) = blen pre + skip_ws s k.
Proof. intros Hk. unfold skip_ws. rewrite slice_from_shift by exact Hk. lia. Qed.

Lemma shift_bind (n : Z) (m : res (PdfObject * Z)) (k : PdfObject * Z -> res (PdfObject * Z))
  (k' : PdfObject * Z -> res (PdfObject * Z)) :
  (forall o e, m = Ret (o, e) -> k' (o, n + e) = shift n (k (o, e))) ->
  shift n m ≫= k' = shift n (m ≫= k).
Proof.
  intros H. destruct m as [[o e] | |]; [| reflexivity..]. simpl. apply H. reflexivity.
Qed.

Lemma octal_more_shift pre s k octal :
  0 <= k ->
  octal_more (pre ++ s) (blen pre + k) octal
  = (fun r : Z * str => (blen pre + r.1, r.2)) <$> octal_more s k octal.
Proof.
  intros Hk. unfold octal_more. rewrite <- Z.add_assoc, at_shift by lia.
  destruct (at_ s (k + 1)) as [d |]; [| reflexivity].
  destruct (is_digit d); [| reflexivity]. simpl. first [reflexivity | repeat f_equal; lia].
Qed.

Lemma literal_loop_unfold fuel data idx depth result :
  literal_loop (S fuel) data idx depth result
  = match at_ data idx with
    | Some char =>
        if depth <=? 0 then Ret (StringObject result, idx)
        else if char =? 92 then
          let idx := idx + 1 in
          match at_ data idx with
          | None => Ret (StringObject result, idx)
          | Some esc =>
              if esc =? 110 then literal_loop fuel data (idx + 1) depth (result ++ [10])
              else if esc =? 114 then literal_loop fuel data (idx + 1) depth (result ++ [13])
              else if esc =? 116 then literal_loop fuel data (idx + 1) depth (result ++ [9])
              else if esc =? 98 then literal_loop fuel data (idx + 1) depth (result ++ [8])
              else if esc =? 102 then literal_loop fuel data (idx + 1) depth (result ++ [12])
              else if esc =? 40 then literal_loop fuel data (idx + 1) depth (result ++ [40])
              else if esc =? 41 then literal_loop fuel data (idx + 1) depth (result ++ [41])
              else if esc =? 92 then literal_loop fuel data (idx + 1) depth (result ++ [92])
              else if is_digit esc then
                let '(idx, octal) :=
                  match octal_more data idx [esc] with
                  | Some (idx1, octal1) =>
                      match octal_more data idx1 octal1 with
                      | Some r => r
                      | None => (idx1, octal1)
                      end
                  | None => (idx, [esc])
                  end in
                n ← int_octal octal 0;
                literal_loop fuel data (idx + 1) depth (result ++ [n])
              else literal_loop fuel data (idx + 1) depth result
          end
        else if char =? 40 then literal_loop fuel data (idx + 1) (depth + 1) (result ++ [40])
        else if char =? 41 then
          literal_loop fuel data (idx + 1) (depth - 1)
                       (if 0 <? depth - 1 then result ++ [41] else result)
        else literal_loop fuel data (idx + 1) depth (result ++ [char])
    | None => Ret (StringObject result, idx)
    end.
Proof. reflexivity. Qed.

Lemma literal_loop_shift pre s fuel :
  forall k depth result,
    0 <= k ->
    literal_loop fuel (pre ++ s) (blen pre + k) depth result
    = shift (blen pre) (literal_loop fuel s k depth result).
Proof.
  induction fuel as [| fuel IH]; intros k depth result Hk; [reflexivity |].
  rewrite !literal_loop_unfold. cbv zeta.
  rewrite <- !Z.add_assoc. rewrite !at_shift by lia.
  assert (Hnext : forall j d r, 0 <= j ->
            literal_loop fuel (pre ++ s) (blen pre + j) d r
            = shift (blen pre) (literal_loop fuel s j d r)) by (intros; apply IH; lia).
  destruct (at_ s k) as [char |]; [| reflexivity].
  destruct (depth <=? 0); [reflexivity |].
  destruct (char =? 92).
  - destruct (at_ s (k + 1)) as [esc |]; [| reflexivity].
    repeat (match goal with |- (if ?c then _ else _) = _ => destruct c end;
            [apply Hnext; lia |]).
    destruct (is_digit esc); [| apply Hnext; lia].
    rewrite octal_more_shift by lia.
    destruct (octal_more s (k + 1) [esc]) as [[i1 o1] |] eqn:E1; simpl fmap; cbv iota.
    + assert (Hi1 : i1 = k + 1 + 1).
      { unfold octal_more in E1. destruct (at_ s (k + 1 + 1)); [| discriminate].
        destruct (is_digit _); simplify_eq. reflexivity. }
      cbn [fst snd]. rewrite octal_more_shift by lia.
      destruct (octal_more s i1 o1) as [[i2 o2] |] eqn:E2; simpl fmap; cbv iota.
      * assert (Hi2 : i2 = i1 + 1).
        { unfold octal_more in E2. destruct (at_ s (i1 + 1)); [| discriminate].
          destruct (is_digit _); simplify_eq. reflexivity. }
        cbn [fst snd]. destruct (int_octal o2 0); try reflexivity. simpl mbind.
        rewrite <- !Z.add_assoc. apply Hnext. lia.
      * destruct (int_octal o1 0); try reflexivity. simpl mbind.
        rewrite <- !Z.add_assoc. apply Hnext. lia.
    + destruct (int_octal [esc] 0); try reflexivity. simpl mbind.
      rewrite <- !Z.add_assoc. apply Hnext. lia.
  - repeat (match goal with |- (if ?c then _ else _) = _ => destruct c end;
            [apply Hnext; lia |]).
    apply Hnext; lia.
Qed.

Lemma bind_fuel {A B} (m : res A) (k k' : A -> res B) :
  m ≫= k <> Diverge -> (forall a, k a <> Diverge -> k' a = k a) -> m ≫= k' = m ≫= k.
Proof. destruct m; simpl; intros H Hk; [apply Hk; exact H | reflexivity..]. Qed.

Lemma literal_loop_fuel fuel :
  forall fuel' data idx depth result,
    (fuel <= fuel')%nat ->
    literal_loop fuel data idx depth result <> Diverge ->
    literal_loop fuel' data idx depth result = literal_loop fuel data idx depth result.
Proof.
  induction fuel as [| fuel IH]; intros fuel' data idx depth result Hle H; [contradiction |].
  destruct fuel' as [| fuel']; [lia |].
  rewrite literal_loop_unfold in H. rewrite !literal_loop_unfold. cbv zeta in *.
  assert (Hnext : forall j d r, literal_loop fuel data j d r <> Diverge ->
                                literal_loop fuel' data j d r = literal_loop fuel data j d r)
    by (intros; apply IH; [lia | assumption]).
  repeat match goal with
         | |- (if ?c then _ else _) = _ => destruct c
         | |- match ?x with _ => _ end = _ => destruct x
         | |- (let '(_, _) := ?x in _) = _ => destruct x
         | |- _ ≫= _ = _ => apply bind_fuel; [assumption |]; intros
         end;
    try reflexivity; try (apply Hnext; assumption).
Qed.

Lemma parse_literal_string_shift pre s k :
  0 <= k ->
  _parse_literal_string (pre ++ s) (blen pre + k)
  = shift (blen pre) (_parse_literal_string s k).
Proof.
  intros Hk. unfold _parse_literal_string.
  rewrite <- Z.add_assoc, literal_loop_shift by lia. f_equal.
  apply literal_loop_fuel; [rewrite length_app; lia |].
  apply literal_loop_returns; [lia |]. unfold blen. lia.
Qed.

Lemma parse_hex_string_shift pre s k :
  0 <= k ->
  _parse_hex_string (pre ++ s) (blen pre + k) = shift (blen pre) (_parse_hex_string s k).
Proof.
  intros Hk. unfold _parse_hex_string. cbv zeta.
  rewrite <- !Z.add_assoc, find_shift by lia.
  pose proof (find_ge s (b ">") (k + 1)) as Hge. pose proof (blen_nonneg s) as Hs.
  rewrite blen_app.
  destruct (Z.eqb_spec (find s (b ">") (k + 1)) (-1)) as [E | E].
  - simpl (if (-1 =? -1) then _ else _). rewrite slice_shift by lia. simpl.
    rewrite Z.add_assoc. reflexivity.
  - destruct (Z.eqb_spec (blen pre + find s (b ">") (k + 1)) (-1)) as [E' | E'];
      [pose proof (blen_nonneg pre); lia |].
    rewrite slice_shift by lia. simpl. rewrite Z.add_assoc. reflexivity.
Qed.

Lemma parse_number_shift s n idx :
  parse_number s (n + idx) = shift n <$> parse_number s idx.
Proof.
  unfold parse_number.
  assert (Href : match re_ref s with
                 | Some (obj_num, gen_num, e) =>
                     Some (Ret (IndirectObject obj_num gen_num true, n + idx + e))
                 | None => None
                 end
                 = shift n <$> match re_ref s with
                               | Some (obj_num, gen_num, e) =>
                                   Some (Ret (IndirectObject obj_num gen_num true, idx + e))
                               | None => None
                               end).
  { destruct (re_ref s) as [[[a c] e] |]; [| reflexivity]. simpl. rewrite Z.add_assoc. reflexivity. }
  destruct (re_number s) as [e |]; [| exact Href].
  destruct (bool_decide _); [simpl; rewrite Z.add_assoc; reflexivity |].
  destruct (py_int is_space (stake e s)) as [v | [] |]; try reflexivity; try exact Href.
  simpl. rewrite Z.add_assoc. reflexivity.
Qed.

Lemma parse_object_unfold fuel data idx :
  _parse_object (S fuel) data idx
  = let idx := skip_ws data idx in
    match at_ data idx with
    | None => Ret (NullObject, idx)
    | Some char =>
        let s := py_slice_from data idx in
        if startswith s (b "null") then Ret (NullObject, idx + 4)
        else if startswith s (b "true") then Ret (BooleanObject true, idx + 4)
        else if startswith s (b "false") then Ret (BooleanObject false, idx + 5)
        else
          match (if byte_in char number_start then parse_number (latin1 s) idx
                 else None) with
          | Some r => r
          | None =>
              if char =? 47 then
                let end_ := idx + 1 + span_len (fun c => negb (byte_in c name_end))
                                               (latin1 (py_slice_from data (idx + 1))) in
                Ret (NameObject (latin1 (py_slice data idx end_)), end_)
              else if char =? 40 then _parse_literal_string data idx
              else if char =? 60 then
                if bool_decide (at_ data (idx + 1) = Some 60)
                then _parse_dictionary_loop fuel data (idx + 2) []
                else _parse_hex_string data idx
              else if char =? 91 then _parse_array_loop fuel data (idx + 1) []
              else if startswith s (b "<<") then _parse_dictionary_loop fuel data (idx + 2) []
              else match re_ref (latin1 s) with
                   | Some (obj_num, gen_num, e) =>
                       Ret (IndirectObject obj_num gen_num true, idx + e)
                   | None => Ret (NullObject, idx + 1)
                   end
          end
    end.
Proof. reflexivity. Qed.

Lemma parse_array_loop_unfold fuel data idx arr :
  _parse_array_loop (S fuel) data idx arr
  = if idx <? blen data then
      let idx := skip_ws data idx in
      if (blen data <=? idx) || bool_decide (at_ data idx = Some 93)
      then Ret (ArrayObject arr, idx + 1)
      else
        '(obj, idx) ← _parse_object fuel data idx;
        _parse_array_loop fuel data idx (arr ++ [obj])
    else Ret (ArrayObject arr, idx).
Proof. reflexivity. Qed.

Lemma parse_dictionary_loop_unfold fuel data idx d :
  _parse_dictionary_loop (S fuel) data idx d
  = if idx <? blen data then
      let idx := skip_ws data idx in
      if (blen data <=? idx) || startswith (py_slice_from data idx) (b ">>")
      then Ret (DictionaryObject d, idx + 2)
      else if negb (bool_decide (at_ data idx = Some 47))
      then _parse_dictionary_loop fuel data (idx + 1) d
      else
        '(key, idx) ← _parse_object fuel data idx;
        let idx := skip_ws data idx in
        '(value, idx) ← _parse_object fuel data idx;
        d ← dict_setitem d key value;
        _parse_dictionary_loop fuel data idx d
    else Ret (DictionaryObject d, idx).
Proof. reflexivity. Qed.

#[local] Opaque _parse_object _parse_array_loop _parse_dictionary_loop
  _parse_literal_string _parse_hex_string parse_number.

Lemma ltb_shift n a c : (n + a <? n + c) = (a <? c).
Proof. destruct (Z.ltb_spec (n + a) (n + c)), (Z.ltb_spec a c); lia. Qed.

Lemma leb_shift n a c : (n + a <=? n + c) = (a <=? c).
Proof. destruct (Z.leb_spec (n + a) (n + c)), (Z.leb_spec a c); lia. Qed.

Lemma parse_shift pre s fuel :
  (forall k, 0 <= k ->
     _parse_object fuel (pre ++ s) (blen pre + k) = shift (blen pre) (_parse_object fuel s k)) /\
  (forall k arr, 0 <= k ->
     _parse_array_loop fuel (pre ++ s) (blen pre + k) arr
     = shift (blen pre) (_parse_array_loop fuel s k arr)) /\
  (forall k d, 0 <= k ->
     _parse_dictionary_loop fuel (pre ++ s) (blen pre + k) d
     = shift (blen pre) (_parse_dictionary_loop fuel s k d)).
Proof.
  induction fuel as [| fuel (IHo & IHa & IHd)]; [repeat split |].
  assert (Hprog : forall k o e, 0 <= k -> _parse_object fuel s k = Ret (o, e) -> 0 <= e).
  { intros k o e Hk H. apply (proj1 (parse_total fuel)) in H; lia. }
  split; [| split].
  - intros k Hk. rewrite !parse_object_unfold. cbv zeta.
    rewrite skip_ws_shift by exact Hk.
    pose proof (skip_ws_ge s k) as Hskip. set (i := skip_ws s k) in *.
    rewrite <- !Z.add_assoc.
    rewrite !at_shift, !slice_from_shift by lia.
    destruct (at_ s i) as [char |]; [| reflexivity].
    repeat (match goal with |- (if startswith ?x ?y then _ else _) = _ =>
              destruct (startswith x y) end; [first [reflexivity | apply IHd; lia] |]).
    rewrite parse_number_shift.
    assert (Hn : (if byte_in char number_start
                  then shift (blen pre) <$> parse_number (latin1 (py_slice_from s i)) i
                  else None)
                 = shift (blen pre) <$> (if byte_in char number_start
                                         then parse_number (latin1 (py_slice_from s i)) i
                                         else None))
      by (destruct (byte_in char number_start); reflexivity).
    rewrite Hn. clear Hn.
    destruct (if byte_in char number_start then _ else None) as [r |]; [reflexivity |].
    simpl fmap. cbv iota.
    destruct (char =? 47).
    { match goal with |- context [span_len ?p ?l] =>
        pose proof (span_len_nonneg p l) as Hspan; set (n := span_len p l) in * end.
      rewrite slice_shift by lia. reflexivity. }
    destruct (char =? 40); [apply parse_literal_string_shift; lia |].
    destruct (char =? 60).
    { destruct (bool_decide _); [apply IHd; lia | apply parse_hex_string_shift; lia]. }
    destruct (char =? 91); [apply IHa; lia |].
    destruct (startswith _ (b "<<")); [apply IHd; lia |].
    destruct (re_ref _) as [[[a c] e] |]; simpl; rewrite ?Z.add_assoc; reflexivity.
  - intros k arr Hk. rewrite !parse_array_loop_unfold. cbv zeta.
    rewrite blen_app, ltb_shift.
    destruct (k <? blen s); [| reflexivity].
    rewrite skip_ws_shift by exact Hk.
    pose proof (skip_ws_ge s k) as Hskip. set (i := skip_ws s k) in *.
    rewrite leb_shift, at_shift by lia.
    destruct (_ || _); [rewrite <- Z.add_assoc; reflexivity |].
    rewrite IHo by lia. apply shift_bind.
    intros o e He. apply IHa. eapply Hprog; [| exact He]. lia.
  - intros k d Hk. rewrite !parse_dictionary_loop_unfold. cbv zeta.
    rewrite blen_app, ltb_shift.
    destruct (k <? blen s); [| reflexivity].
    rewrite skip_ws_shift by exact Hk.
    pose proof (skip_ws_ge s k) as Hskip. set (i := skip_ws s k) in *.
    rewrite leb_shift, at_shift, slice_from_shift by lia.
    destruct (_ || _); [rewrite <- Z.add_assoc; reflexivity |].
    destruct (negb _); [rewrite <- Z.add_assoc; apply IHd; lia |].
    rewrite IHo by lia. apply shift_bind.
    intros key e1 Hkey. assert (0 <= e1) by (eapply Hprog; [| exact Hkey]; lia).
    rewrite skip_ws_shift by lia. pose proof (skip_ws_ge s e1).
    rewrite IHo by lia. apply shift_bind.
    intros value e2 Hvalue. assert (0 <= e2) by (eapply Hprog; [| exact Hvalue]; lia).
    destruct (dict_setitem d key value) as [d' | |]; [| reflexivity..].
    rewrite !ret_bind. apply IHd. lia.
Qed.

Lemma parse_fuel_mono fuel :
  forall fuel', (fuel <= fuel')%nat ->
    (forall data idx, _parse_object fuel data idx <> Diverge ->
                      _parse_object fuel' data idx = _parse_object fuel data idx) /\
    (forall data idx arr, _parse_array_loop fuel data idx arr <> Diverge ->
                          _parse_array_loop fuel' data idx arr
                          = _parse_array_loop fuel data idx arr) /\
    (forall data idx d, _parse_dictionary_loop fuel data idx d <> Diverge ->
                        _parse_dictionary_loop fuel' data idx d
                        = _parse_dictionary_loop fuel data idx d).
Proof.
  induction fuel as [| fuel IH]; intros fuel' Hle.
  { split; [| split]; intros; contradiction. }
  destruct fuel' as [| fuel']; [lia |].
  destruct (IH fuel' ltac:(lia)) as (IHo & IHa & IHd).
  split; [| split].
  - intros data idx H. rewrite parse_object_unfold in H. rewrite !parse_object_unfold.
    cbv zeta in *.
    repeat match goal with
           | |- (if ?c then _ else _) = _ => destruct c
           | |- match ?x with _ => _ end = _ => destruct x
           end;
      first [reflexivity | apply IHa; assumption | apply IHd; assumption].
  - intros data idx arr H. rewrite parse_array_loop_unfold in H.
    rewrite !parse_array_loop_unfold. cbv zeta in *.
    destruct (idx <? blen data); [| reflexivity].
    destruct (_ || _); [reflexivity |].
    rewrite (IHo _ _ (fun E => H (eq_ind_r (fun m => m ≫= _ = Diverge) eq_refl E))).
    apply bind_fuel; [exact H |]. intros [obj idx2] Hk. apply IHa. exact Hk.
  - intros data idx d H. rewrite parse_dictionary_loop_unfold in H.
    rewrite !parse_dictionary_loop_unfold. cbv zeta in *.
    destruct (idx <? blen data); [| reflexivity].
    destruct (_ || _); [reflexivity |].
    destruct (negb _); [apply IHd; exact H |].
    rewrite (IHo _ _ (fun E => H (eq_ind_r (fun m => m ≫= _ = Diverge) eq_refl E))).
    apply bind_fuel; [exact H |]. intros [key idx1] Hk.
    rewrite (IHo _ _ (fun E => Hk (eq_ind_r (fun m => m ≫= _ = Diverge) eq_refl E))).
    apply bind_fuel; [exact Hk |]. intros [value idx2] Hv.
    apply bind_fuel; [exact Hv |]. intros d' Hd. apply IHd. exact Hd.
Qed.

(** Whatever depth the parser is given, once it returns the depth
    [parse_fuel] allows gives the same. *)
Lemma parse_fuel_same fuel data idx r :
  0 <= idx -> _parse_object fuel data idx = Ret r ->
  _parse_object (parse_fuel data) data idx = Ret r.
Proof.
  intros Hidx H. pose proof (parse_fuel_enough data idx Hidx) as Hpf.
  destruct (Nat.le_ge_cases fuel (parse_fuel data)) as [Hle | Hge].
  - rewrite (proj1 (parse_fuel_mono fuel _ Hle)); [exact H | rewrite H; discriminate].
  - rewrite <- (proj1 (parse_fuel_mono _ _ Hge) _ _ Hpf). exact H.
Qed.

(** X12: the object parser reads forward only: the bytes before the index
    it is given never matter.  Parsing [pre ++ s] at an index inside [s]
    gives what parsing [s] alone gives, the returned index moved by the
    length of [pre]. *)
Theorem parse_object_reads_forward pre s fuel k :
  0 <= k ->
  _parse_object fuel (pre ++ s) (blen pre + k) = shift (blen pre) (_parse_object fuel s k).
Proof. apply parse_shift. Qed.

Lemma parse_object_reads_forward_witness :
  _parse_object 9 (b "1 0 obj " ++ b "[/A (b)]") (blen (b "1 0 obj ") + 0)
  = shift (blen (b "1 0 obj ")) (_parse_object 9 (b "[/A (b)]") 0).
Proof. apply (parse_object_reads_forward (b "1 0 obj ") (b "[/A (b)]") 9 0). lia. Defined.

#[local] Transparent _parse_object _parse_array_loop _parse_dictionary_loop
  _parse_literal_string _parse_hex_string parse_number.

(** ** Writing and reading back *)

Lemma code_byte_of c : 0 <= c < 256 -> code (byte_of c) = c.
Proof.
  intros Hc. unfold byte_of, code.
  destruct (Byte.of_N (Z.to_N c)) as [y |] eqn:E.
  - simpl. apply Byte.to_of_N in E. rewrite E. lia.

  - apply Byte.of_N_None_iff in E. lia.
Qed.

Lemma forallb_all {A} (f : A -> bool) (l : list A) :
  forallb f l = true <-> Forall (fun x => f x = true) l.
Proof.
  induction l as [| x l IH]; simpl; [split; [constructor | reflexivity] |].
  rewrite andb_true_iff, IH. split; [intros []; constructor; assumption |].
  intros H. inversion H; subst. split; assumption.
Qed.

Lemma latin1_byte_of s : forallb is_ascii s = true -> latin1 (map byte_of s) = s.
Proof.
  unfold latin1. induction s as [| c s IH]; simpl; [reflexivity |].
  intros H. apply andb_true_iff in H as [Hc Hs]. unfold is_ascii in Hc.
  rewrite code_byte_of by lia. f_equal. exact (IH Hs).
Qed.

Lemma encode_ascii s : forallb is_ascii s = true -> encode s = Ret (map byte_of s).
Proof.
  induction s as [| c s IH]; simpl; [reflexivity |].
  intros H. apply andb_true_iff in H as [Hc Hs]. rewrite (IH Hs).
  unfold utf8, is_ascii in *.
  destruct (Z.ltb_spec c 0); [lia |]. destruct (Z.ltb_spec c 128); [| lia]. reflexivity.
Qed.

Lemma latin1_app x y : latin1 (x ++ y) = latin1 x ++ latin1 y.
Proof. apply map_app. Qed.

Lemma slice_from_0 {A} (data : list A) : py_slice_from data 0 = data.
Proof.
  unfold py_slice_from, slice_bound. simpl. pose proof (blen_nonneg data).
  replace (Z.to_nat (Z.min 0 (blen data))) with 0%nat by lia. reflexivity.
Qed.

Lemma at_0 c data : at_ (c :: data) 0 = Some (code c).
Proof. reflexivity. Qed.

(** *** Integers *)

Lemma uint_codes_digits d : Forall (fun c => is_digit c = true) (uint_codes d).
Proof. induction d; simpl; constructor; auto. Qed.

Lemma uint_codes_acc d : forall acc,
  fold_left (fun a c => 10 * a + (c - 48)) (uint_codes d) (Z.pos acc)
  = Z.pos (Pos.of_uint_acc d acc).
Proof. induction d; intros acc; simpl; try reflexivity; rewrite <- IHd; f_equal; lia. Qed.

Lemma uint_codes_value d :
  fold_left (fun a c => 10 * a + (c - 48)) (uint_codes d) 0 = Z.of_N (Pos.of_uint d).
Proof.
  induction d; simpl; try reflexivity; try exact IHd;
    match goal with |- fold_left _ _ ?a = _ => change a with (Z.pos (Z.to_pos a)) end;
    rewrite uint_codes_acc; reflexivity.
Qed.

Lemma to_uint_nonempty m : uint_codes (N.to_uint m) <> [].
Proof.
  destruct (N.to_uint m) eqn:E; try discriminate.
  pose proof (DecimalN.Unsigned.of_to m) as H. rewrite E in H. simpl in H. subst m. discriminate.
Qed.

Lemma int_digits_value ds :
  Forall (fun c => is_digit c = true) ds ->
  forall acc after, ds <> [] \/ after = true ->
    int_digits ds acc after = Some (fold_left (fun a c => 10 * a + (c - 48)) ds acc).
Proof.
  induction 1 as [| c ds Hc Hds IH]; intros acc after Hne; simpl.
  - destruct Hne as [Hne | ->]; [congruence | reflexivity].
  - rewrite Hc. apply IH. right. reflexivity.
Qed.

Lemma str_of_int_shape n :
  exists sign ds,
    str_of_int n = sign ++ ds /\ (sign = [] /\ 0 <= n \/ sign = [45] /\ n < 0) /\
    ds <> [] /\ Forall (fun c => is_digit c = true) ds /\
    fold_left (fun a c => 10 * a + (c - 48)) ds 0 = Z.abs n.
Proof.
  unfold str_of_int. eexists _, _. split; [reflexivity |].
  split; [destruct (Z.ltb_spec n 0); [right | left]; split; (reflexivity || lia) |].
  split; [apply to_uint_nonempty |]. split; [apply uint_codes_digits |].
  rewrite uint_codes_value. change (Pos.of_uint (N.to_uint (Z.abs_N n))) with (N.of_uint (N.to_uint (Z.abs_N n))).
  rewrite DecimalN.Unsigned.of_to. lia.
Qed.

Lemma py_int_value sign ds n :
  (sign = [] /\ 0 <= n \/ sign = [45] /\ n < 0) ->
  ds <> [] -> Forall (fun c => is_digit c = true) ds ->
  fold_left (fun a c => 10 * a + (c - 48)) ds 0 = Z.abs n ->
  py_int is_space (sign ++ ds) = Ret n.
Proof.
  intros Hsign Hne Hds Hval.
  destruct (exists_last Hne) as (ds' & x & ->).
  assert (Hx : is_space x = false).
  { apply digit_not_space. rewrite Forall_app in Hds. destruct Hds as [_ Hx].
    inversion Hx; assumption. }
  unfold py_int.
  assert (Hstrip : rev (lstrip_with is_space (rev (lstrip_with is_space (sign ++ ds' ++ [x]))))
                   = sign ++ ds' ++ [x]).
  { assert (Hl : lstrip_with is_space (sign ++ ds' ++ [x]) = sign ++ ds' ++ [x]).
    { destruct Hsign as [[-> _] | [-> _]]; [| reflexivity].
      simpl. destruct ds' as [| d ds']; simpl.
      - rewrite Hx. reflexivity.
      - inversion Hds as [| ? ? Hd _]; subst. rewrite (digit_not_space _ Hd). reflexivity. }
    rewrite Hl. rewrite app_assoc. apply rstrip_last. exact Hx. }
  rewrite Hstrip.
  pose proof (int_digits_value (ds' ++ [x]) Hds 0 false (or_introl Hne)) as Hn.
  rewrite Hval in Hn.
  destruct Hsign as [[-> Hpos] | [-> Hneg]].
  - rewrite app_nil_l. destruct (ds' ++ [x]) as [| c r] eqn:E; [destruct ds'; discriminate |].
    rewrite sign_match.
    inversion Hds as [| ? ? Hc _]; subst.
    assert (H45 : (c =? 45) = false) by (unfold is_digit in Hc; lia).
    assert (H43 : (c =? 43) = false) by (unfold is_digit in Hc; lia).
    rewrite H45, H43, Hn. f_equal. lia.
  - simpl. rewrite Hn. f_equal. lia.
Qed.

Lemma span_len_all p ds tail :
  Forall (fun c => p c = true) ds ->
  match tail with [] => True | c :: _ => p c = false end ->
  span_len p (ds ++ tail) = blen ds.
Proof.
  intros Hds Htail. unfold blen. induction Hds as [| c ds Hc _ IH]; simpl.
  - destruct tail as [| c tail]; [reflexivity |]. simpl. rewrite Htail. reflexivity.
  - rewrite Hc, IH. lia.
Qed.

Lemma name_end_not_digit c : byte_in c name_end = true -> is_digit c = false /\ c <> 46.
Proof.
  unfold byte_in, name_end. rewrite bool_decide_eq_true. intros H.
  repeat (apply elem_of_cons in H as [-> | H]; [split; [reflexivity | discriminate] |]).
  apply elem_of_nil in H. contradiction.
Qed.

(** What follows a token, as codes. *)
Lemma ends_token_latin1 rest :
  ends_token rest ->
  match latin1 rest with [] => True | c :: _ => byte_in c name_end = true end.
Proof. destruct rest; simpl; auto. Qed.

Lemma re_number_int_text sign ds tail :
  (sign = [] \/ sign = [45]) ->
  ds <> [] -> Forall (fun c => is_digit c = true) ds ->
  match tail with [] => True | c :: _ => byte_in c name_end = true end ->
  re_number (sign ++ ds ++ tail) = Some (blen (sign ++ ds)).
Proof.
  intros Hsign Hne Hds Htail. unfold re_number, digits1, sdrop.
  assert (Htail' : match tail with [] => True | c :: _ => is_digit c = false end).
  { destruct tail as [| c tail]; [exact I |]. apply name_end_not_digit in Htail. tauto. }
  assert (Hdot : match tail with 46 :: _ => 1 | _ => 0 end = 0).
  { rewrite dot_match. destruct tail as [| c tail]; [reflexivity |].
    apply name_end_not_digit in Htail as [_ Hc]. destruct (Z.eqb_spec c 46); [contradiction | reflexivity]. }
  set (sgn := match sign ++ ds ++ tail with
              | c :: _ => if (c =? 43) || (c =? 45) then 1 else 0
              | [] => 0
              end).
  assert (Hsgn : sgn = blen sign).
  { subst sgn. destruct Hsign as [-> | ->]; [| reflexivity]. simpl.
    destruct ds as [| c ds]; [congruence |]. simpl.
    inversion Hds as [| ? ? Hc _]; subst. unfold is_digit in Hc.
    destruct (Z.eqb_spec c 43); [lia |]. destruct (Z.eqb_spec c 45); [lia |]. reflexivity. }
  rewrite Hsgn.
  assert (Hdrop1 : drop (Z.to_nat (blen sign)) (sign ++ ds ++ tail) = ds ++ tail).
  { unfold blen. rewrite Nat2Z.id. apply drop_app_length. }
  rewrite Hdrop1, (span_len_all _ _ _ Hds Htail').
  assert (Hpos : 0 < blen ds) by (unfold blen; destruct ds; [congruence | simpl; lia]).
  destruct (Z.ltb_spec 0 (blen ds)); [| lia]. simpl.
  assert (Hdrop2 : drop (Z.to_nat (blen sign + blen ds)) (sign ++ ds ++ tail) = tail).
  { unfold blen. replace (Z.to_nat (Z.of_nat (length sign) + Z.of_nat (length ds)))
      with (length (sign ++ ds)) by (rewrite length_app; lia).
    rewrite app_assoc. apply drop_app_length. }
  rewrite Hdrop2, Hdot, Z.add_0_r, Hdrop2.
  assert (Hspan : span_len is_digit tail = 0).
  { destruct tail as [| c tail]; [reflexivity |]. simpl. rewrite Htail'. reflexivity. }
  rewrite Hspan, blen_app. f_equal. lia.
Qed.

(** *** Reading a token at the start of the data *)

Lemma parse_object_at_0 fuel data c :
  at_ data 0 = Some c -> byte_in c pdf_ws = false ->
  _parse_object (S fuel) data 0
  = if startswith data (b "null") then Ret (NullObject, 4)
    else if startswith data (b "true") then Ret (BooleanObject true, 4)
    else if startswith data (b "false") then Ret (BooleanObject false, 5)
    else
      match (if byte_in c number_start then parse_number (latin1 data) 0 else None) with
      | Some r => r
      | None =>
          if c =? 47 then
            let end_ := 1 + span_len (fun c => negb (byte_in c name_end))
                                     (latin1 (py_slice_from data 1)) in
            Ret (NameObject (latin1 (py_slice data 0 end_)), end_)
          else if c =? 40 then _parse_literal_string data 0
          else if c =? 60 then
            if bool_decide (at_ data 1 = Some 60)
            then _parse_dictionary_loop fuel data 2 []
            else _parse_hex_string data 0
          else if c =? 91 then _parse_array_loop fuel data 1 []
          else if startswith data (b "<<") then _parse_dictionary_loop fuel data 2 []
          else match re_ref (latin1 data) with
               | Some (obj_num, gen_num, e) => Ret (IndirectObject obj_num gen_num true, e)
               | None => Ret (NullObject, 1)
               end
      end.
Proof.
  intros Hat Hc. rewrite parse_object_unfold. cbv zeta.
  rewrite (skip_ws_here _ _ _ Hat Hc), Hat, slice_from_0. reflexivity.
Qed.

Lemma startswith_first data c prefix p :
  at_ data 0 = Some c -> head (latin1 prefix) = Some p -> p <> c ->
  startswith data prefix = false.
Proof.
  destruct data as [| x data]; [discriminate |]. destruct prefix as [| y prefix]; [discriminate |].
  simpl. intros [= <-] [= <-] Hne. apply andb_false_intro1. apply Z.eqb_neq. exact Hne.
Qed.

Lemma slice_from_1 {A} (x : A) (data : list A) : py_slice_from (x :: data) 1 = data.
Proof.
  unfold py_slice_from, slice_bound, blen. simpl length.
  replace (Z.to_nat (if 1 <? 0 then _ else Z.min 1 (Z.of_nat (S (length data))))) with 1%nat
    by (destruct (Z.ltb_spec 1 0); lia).
  reflexivity.
Qed.

Lemma slice_prefix {A} (w rest : list A) : py_slice (w ++ rest) 0 (blen w) = w.
Proof.
  unfold py_slice, slice_bound. rewrite blen_app. pose proof (blen_nonneg w).
  pose proof (blen_nonneg rest).
  destruct (Z.ltb_spec (blen w) 0); [lia |]. destruct (Z.ltb_spec 0 0); [lia |].
  replace (Z.to_nat (Z.min 0 (blen w + blen rest))) with 0%nat by lia.
  replace (Z.to_nat (Z.min (blen w) (blen w + blen rest) - Z.min 0 (blen w + blen rest)))
    with (length w) by (unfold blen in *; lia).
  apply take_app_length.
Qed.

Lemma blen_map {A B} (f : A -> B) (l : list A) : blen (map f l) = blen l.
Proof. unfold blen. rewrite length_map. reflexivity. Qed.

Lemma at_0_text c text rest :
  0 <= c < 256 -> at_ (map byte_of (c :: text) ++ rest) 0 = Some c.
Proof. intros Hc. simpl. rewrite at_0, code_byte_of by exact Hc. reflexivity. Qed.

(** An integer. *)
Lemma parse_int_text fuel n rest :
  ends_token rest ->
  _parse_object (S fuel) (map byte_of (str_of_int n) ++ rest) 0
  = Ret (NumberObject (NInt n), blen (str_of_int n)).
Proof.
  intros Hrest.
  destruct (str_of_int_shape n) as (sign & ds & Htext & Hsign & Hne & Hds & Hval).
  rewrite Htext.
  assert (Hascii : forallb is_ascii (sign ++ ds) = true).
  { apply forallb_all, Forall_app. split.
    - destruct Hsign as [[-> _] | [-> _]]; repeat constructor.
    - eapply Forall_impl; [exact Hds |]. intros c Hc. unfold is_digit, is_ascii in *. lia. }
  assert (Hlatin : latin1 (map byte_of (sign ++ ds) ++ rest) = sign ++ ds ++ latin1 rest).
  { rewrite latin1_app, (latin1_byte_of _ Hascii), <- app_assoc. reflexivity. }
  assert (Hhead : exists c text, sign ++ ds = c :: text /\
                                 (is_digit c = true \/ c = 45)).
  { destruct Hsign as [[-> _] | [-> _]].
    - destruct ds as [| c ds]; [congruence |]. inversion Hds; subst. eauto.
    - simpl. eauto. }
  destruct Hhead as (c & text & Hct & Hc).
  assert (Hc256 : 0 <= c < 256) by (unfold is_digit in Hc; lia).
  assert (Hat : at_ (map byte_of (sign ++ ds) ++ rest) 0 = Some c)
    by (rewrite Hct; apply at_0_text; exact Hc256).
  assert (Hws : byte_in c pdf_ws = false).
  { destruct Hc as [Hc | ->]; [| reflexivity]. unfold byte_in, pdf_ws.
    apply bool_decide_eq_false. intros Hin.
    repeat (apply elem_of_cons in Hin as [-> | Hin]; [discriminate Hc |]).
    apply elem_of_nil in Hin. exact Hin. }
  rewrite (parse_object_at_0 _ _ _ Hat Hws).
  rewrite (startswith_first _ c (b "null") 110 Hat eq_refl) by (unfold is_digit in Hc; lia).
  rewrite (startswith_first _ c (b "true") 116 Hat eq_refl) by (unfold is_digit in Hc; lia).
  rewrite (startswith_first _ c (b "false") 102 Hat eq_refl) by (unfold is_digit in Hc; lia).
  assert (Hns : byte_in c number_start = true).
  { destruct Hc as [Hc | ->]; [apply number_start_digit; exact Hc | reflexivity]. }
  rewrite Hns, Hlatin. unfold parse_number.
  rewrite (re_number_int_text sign ds (latin1 rest)); try assumption.
  2:{ destruct Hsign as [[-> _] | [-> _]]; auto. }
  2:{ apply ends_token_latin1. exact Hrest. }
  assert (Htake : stake (blen (sign ++ ds)) (sign ++ ds ++ latin1 rest) = sign ++ ds).
  { unfold stake, blen. rewrite Nat2Z.id, app_assoc. apply take_app_length. }
  rewrite Htake.
  assert (Hnodot : bool_decide (46 ∈ sign ++ ds) = false).
  { apply bool_decide_eq_false. intros Hin. apply elem_of_app in Hin as [Hin | Hin].
    - destruct Hsign as [[-> _] | [-> _]];
        [apply elem_of_nil in Hin; exact Hin | apply list_elem_of_singleton in Hin; discriminate].
    - rewrite Forall_forall in Hds. apply Hds in Hin. discriminate. }
  rewrite Hnodot, (py_int_value sign ds n Hsign Hne Hds Hval). reflexivity.
Qed.

(** A name. *)
Lemma parse_name_text fuel name rest :
  plain_name (MkNameObject (47 :: name)) = true ->
  ends_token rest ->
  _parse_object (S fuel) (map byte_of (47 :: name) ++ rest) 0
  = Ret (MkNameObject (47 :: name), blen (47 :: name)).
Proof.
  intros Hname Hrest. simpl in Hname.
  assert (Hascii : forallb is_ascii (47 :: name) = true).
  { simpl. apply forallb_all. apply forallb_all in Hname.
    eapply Forall_impl; [exact Hname |]. intros c Hc. apply andb_true_iff in Hc. tauto. }
  assert (Hat : at_ (map byte_of (47 :: name) ++ rest) 0 = Some 47) by (apply at_0_text; lia).
  rewrite (parse_object_at_0 _ _ _ Hat eq_refl).
  rewrite (startswith_first _ 47 (b "null") 110 Hat eq_refl) by lia.
  rewrite (startswith_first _ 47 (b "true") 116 Hat eq_refl) by lia.
  rewrite (startswith_first _ 47 (b "false") 102 Hat eq_refl) by lia.
  change (byte_in 47 number_start) with false. cbv iota.
  change (47 =? 47) with true. cbv iota zeta.
  assert (Hspan : span_len (fun c => negb (byte_in c name_end))
                    (latin1 (py_slice_from (map byte_of (47 :: name) ++ rest) 1))
                  = blen name).
  { simpl map. rewrite <- app_comm_cons, slice_from_1, latin1_app, latin1_byte_of.
    - apply span_len_all.
      + apply forallb_all in Hname. eapply Forall_impl; [exact Hname |].
        intros c Hc. apply andb_true_iff in Hc. tauto.
      + pose proof (ends_token_latin1 _ Hrest) as Ht. destruct (latin1 rest); [exact I |].
        rewrite Ht. reflexivity.
    - simpl in Hascii. exact Hascii. }
  rewrite Hspan.
  replace (1 + blen name) with (blen (map byte_of (47 :: name)))
    by (rewrite blen_map; unfold blen; simpl length; lia).
  rewrite slice_prefix, (latin1_byte_of _ Hascii), blen_map. reflexivity.
Qed.

(** A literal string. *)
Lemma escaped_text value :
  str_replace 41 [92; 41] (str_replace 40 [92; 40] (str_replace 92 [92; 92] value))
  = flat_map (fun c => if (c =? 92) || (c =? 40) || (c =? 41) then [92; c] else [c]) value.
Proof.
  unfold str_replace. induction value as [| c value IH]; [reflexivity |].
  simpl. rewrite !flat_map_app, IH. f_equal.
  destruct (Z.eqb_spec c 92) as [-> | H92]; [reflexivity |].
  simpl. destruct (Z.eqb_spec c 40) as [-> | H40]; [reflexivity |].
  simpl. destruct (Z.eqb_spec c 41) as [-> | H41]; reflexivity.
Qed.

Lemma literal_next fuel x data depth result :
  literal_loop fuel (x :: data) 1 depth result = shift 1 (literal_loop fuel data 0 depth result).
Proof. exact (literal_loop_shift [x] data fuel 0 depth result (Z.le_refl 0)). Qed.

Lemma literal_next2 fuel x y data depth result :
  literal_loop fuel (x :: y :: data) 2 depth result
  = shift 2 (literal_loop fuel data 0 depth result).
Proof. exact (literal_loop_shift [x; y] data fuel 0 depth result (Z.le_refl 0)). Qed.

Lemma literal_text value :
  forallb is_ascii value = true ->
  forall fuel result rest,
    (length value + 2 <= fuel)%nat ->
    literal_loop fuel
      (map byte_of (flat_map (fun c => if (c =? 92) || (c =? 40) || (c =? 41)
                                       then [92; c] else [c]) value ++ [41]) ++ rest)
      0 1 result
    = Ret (StringObject (result ++ value),
           blen (flat_map (fun c => if (c =? 92) || (c =? 40) || (c =? 41)
                                    then [92; c] else [c]) value) + 1).
Proof.
  induction value as [| c value IH]; intros Hascii fuel result rest Hfuel.
  - destruct fuel as [| [| fuel]]; [simpl in Hfuel; lia.. |].
    simpl flat_map. change (map byte_of ([] ++ [41]) ++ rest) with (byte_of 41 :: rest).
    rewrite literal_loop_unfold.
    rewrite at_0. change (code (byte_of 41)) with 41. cbv iota.
    change (1 <=? 0) with false. change (41 =? 92) with false. change (41 =? 40) with false.
    change (41 =? 41) with true. cbv iota.
    change (0 + 1) with 1. rewrite literal_next. change (1 - 1) with 0.
    change (0 <? 0) with false. cbv iota.
    rewrite literal_loop_unfold. rewrite app_nil_r.
    destruct (at_ rest 0); reflexivity.
  - simpl in Hascii. apply andb_true_iff in Hascii as [Hc Hascii].
    assert (Hc' : 0 <= c < 256) by (unfold is_ascii in Hc; lia).
    destruct fuel as [| fuel]; [simpl in Hfuel; lia |].
    specialize (IH Hascii fuel). simpl length in Hfuel.
    simpl flat_map.
    set (esc := fun c => if (c =? 92) || (c =? 40) || (c =? 41) then [92; c] else [c]) in *.
    set (text := flat_map esc value) in *.
    destruct ((c =? 92) || (c =? 40) || (c =? 41)) eqn:Hesc.
    + change (map byte_of (([92; c] ++ text) ++ [41]) ++ rest)
        with (byte_of 92 :: byte_of c :: (map byte_of (text ++ [41]) ++ rest)).
      rewrite literal_loop_unfold, at_0. change (code (byte_of 92)) with 92.
      change (1 <=? 0) with false. change (92 =? 92) with true. cbv iota zeta.
      change (0 + 1) with 1.
      assert (Hat1 : forall x d, at_ (x :: byte_of c :: d) 1 = Some c)
        by (intros; unfold at_; simpl; rewrite code_byte_of by exact Hc'; reflexivity).
      rewrite Hat1.
      assert (Hnot : (c =? 110) = false /\ (c =? 114) = false /\ (c =? 116) = false /\
                     (c =? 98) = false /\ (c =? 102) = false) by lia.
      destruct Hnot as (-> & -> & -> & -> & ->).
      change (1 + 1) with 2.
      assert (Hstep : literal_loop fuel
                        (byte_of 92 :: byte_of c :: (map byte_of (text ++ [41]) ++ rest))
                        2 1 (result ++ [c])
                      = Ret (StringObject (result ++ c :: value), blen ([92; c] ++ text) + 1)).
      { rewrite literal_next2, IH by lia. simpl. rewrite <- app_assoc. simpl.
        f_equal. f_equal. unfold blen. simpl length. lia. }
      destruct (Z.eqb_spec c 40) as [-> | H40]; [exact Hstep |].
      destruct (Z.eqb_spec c 41) as [-> | H41]; [exact Hstep |].
      destruct (Z.eqb_spec c 92) as [-> | H92]; [exact Hstep |].
      exfalso. lia.
    + change (map byte_of (([c] ++ text) ++ [41]) ++ rest)
        with (byte_of c :: (map byte_of (text ++ [41]) ++ rest)).
      rewrite literal_loop_unfold, at_0, code_byte_of by exact Hc'.
      change (1 <=? 0) with false. cbv iota.
      apply orb_false_iff in Hesc as [Hesc H41]. apply orb_false_iff in Hesc as [H92 H40].
      rewrite H92, H40, H41. change (0 + 1) with 1.
      rewrite literal_next, IH by lia. simpl. rewrite <- app_assoc. simpl.
      f_equal. f_equal. unfold blen. simpl length. lia.
Qed.

Lemma escaped_length (value : str) :
  Nat.le (length value)
         (length (flat_map (fun c => if (c =? 92) || (c =? 40) || (c =? 41)
                                     then [92; c] else [c]) value)).
Proof.
  induction value as [| c value IH]; simpl; [lia |].
  rewrite length_app. destruct (_ || _); simpl; lia.
Qed.

Lemma escaped_ascii value :
  forallb is_ascii value = true ->
  forallb is_ascii (flat_map (fun c => if (c =? 92) || (c =? 40) || (c =? 41)
                                       then [92; c] else [c]) value) = true.
Proof.
  induction value as [| c value IH]; simpl; [reflexivity |].
  intros H. apply andb_true_iff in H as [Hc Hv]. rewrite forallb_app, (IH Hv), andb_true_r.
  destruct (_ || _); simpl; rewrite Hc; reflexivity.
Qed.

Lemma parse_string_text fuel value rest :
  forallb is_ascii value = true ->
  _parse_object (S fuel)
    (map byte_of ([40] ++ str_replace 41 [92; 41]
                            (str_replace 40 [92; 40] (str_replace 92 [92; 92] value))
                  ++ [41]) ++ rest) 0
  = Ret (StringObject value,
         blen ([40] ++ str_replace 41 [92; 41]
                         (str_replace 40 [92; 40] (str_replace 92 [92; 92] value)) ++ [41])).
Proof.
  intros Hascii. rewrite escaped_text.
  pose proof (escaped_length value) as Hlen.
  set (text := flat_map (fun c => if (c =? 92) || (c =? 40) || (c =? 41)
                                   then [92; c] else [c]) value) in *.
  change (map byte_of ([40] ++ text ++ [41]) ++ rest)
    with (byte_of 40 :: (map byte_of (text ++ [41]) ++ rest)).
  assert (Hat : at_ (byte_of 40 :: (map byte_of (text ++ [41]) ++ rest)) 0 = Some 40)
    by reflexivity.
  rewrite (parse_object_at_0 _ _ _ Hat eq_refl).
  rewrite (startswith_first _ 40 (b "null") 110 Hat eq_refl) by lia.
  rewrite (startswith_first _ 40 (b "true") 116 Hat eq_refl) by lia.
  rewrite (startswith_first _ 40 (b "false") 102 Hat eq_refl) by lia.
  change (byte_in 40 number_start) with false. cbv iota.
  change (40 =? 47) with false. change (40 =? 40) with true. cbv iota.
  unfold _parse_literal_string. change (0 + 1) with 1.
  rewrite literal_next. subst text. rewrite (literal_text value Hascii).
  - simpl. f_equal. f_equal. unfold blen. simpl length. rewrite length_app. simpl. lia.
  - simpl length. rewrite length_app, length_map, length_app. simpl. lia.
Qed.

(** A hexadecimal string. *)
Lemma hexval_digit n : 0 <= n < 16 -> hexval (hex_digit n) = Some n.
Proof.
  intros Hn. unfold hexval, hex_digit, is_digit.
  destruct (Z.ltb_spec n 10).
  - destruct (Z.leb_spec 48 (48 + n)), (Z.leb_spec (48 + n) 57); simpl; try lia.
    f_equal. lia.
  - destruct (Z.leb_spec 48 (87 + n)), (Z.leb_spec (87 + n) 57); simpl; try lia.
    destruct (Z.leb_spec 97 (87 + n)), (Z.leb_spec (87 + n) 102); simpl; try lia.
    f_equal. lia.
Qed.

Lemma hex_digit_range n :
  0 <= n < 16 -> 48 <= hex_digit n <= 102 /\ hex_digit n <> 62 /\ hex_digit n <> 60 /\
                 is_space (hex_digit n) = false.
Proof. intros Hn. unfold hex_digit, is_space. destruct (Z.ltb_spec n 10); lia. Qed.

Lemma fromhex_hex value :
  Forall (fun c => 0 <= c < 256) value ->
  fromhex (flat_map (fun c => [hex_digit (c / 16); hex_digit (c mod 16)]) value) = Some value.
Proof.
  induction 1 as [| c value Hc _ IH]; [reflexivity |].
  simpl flat_map. simpl app.
  assert (H1 : 0 <= c / 16 < 16) by (split; [apply Z.div_pos; lia | apply Z.div_lt_upper_bound; lia]).
  assert (H2 : 0 <= c mod 16 < 16) by (apply Z.mod_pos_bound; lia).
  simpl fromhex.
  rewrite (proj2 (proj2 (proj2 (hex_digit_range _ H1)))), !hexval_digit, IH by assumption.
  simpl. f_equal. f_equal. pose proof (Z.div_mod c 16). lia.
Qed.

Lemma find_in_first pre c rest :
  Forall (fun x => code x <> code c) pre ->
  find_in [c] (pre ++ c :: rest) = Some (blen pre).
Proof.
  induction 1 as [| x pre Hx _ IH].
  - simpl. rewrite Z.eqb_refl. destruct rest; reflexivity.
  - change (find_in [c] ((x :: pre) ++ c :: rest))
      with (if startswith (x :: pre ++ c :: rest) [c] then Some 0
            else match find_in [c] (pre ++ c :: rest) with
                 | Some i => Some (i + 1)
                 | None => None
                 end).
    simpl startswith. destruct (Z.eqb_spec (code c) (code x)); [congruence |].
    simpl. rewrite IH. f_equal. unfold blen. simpl length. lia.
Qed.

Lemma hex_text value :
  forallb is_ascii value = true ->
  hex (map byte_of value)
  = flat_map (fun c => [hex_digit (c / 16); hex_digit (c mod 16)]) value.
Proof.
  unfold hex. induction value as [| c value IH]; simpl; [reflexivity |].
  intros H. apply andb_true_iff in H as [Hc Hv]. unfold is_ascii in Hc.
  rewrite code_byte_of, (IH Hv) by lia. reflexivity.
Qed.

Lemma hex_digits_facts (value : str) :
  Forall (fun c => 0 <= c < 256) value ->
  Forall (fun d => 48 <= d <= 102 /\ d <> 62 /\ d <> 60 /\ is_space d = false)
         (flat_map (fun c => [hex_digit (c / 16); hex_digit (c mod 16)]) value) /\
  Z.odd (blen (flat_map (fun c => [hex_digit (c / 16); hex_digit (c mod 16)]) value)) = false.
Proof.
  induction 1 as [| c value Hc _ [IH1 IH2]]; [split; [constructor | reflexivity] |].
  assert (H1 : 0 <= c / 16 < 16) by (split; [apply Z.div_pos; lia | apply Z.div_lt_upper_bound; lia]).
  assert (H2 : 0 <= c mod 16 < 16) by (apply Z.mod_pos_bound; lia).
  simpl flat_map. split.
  - repeat constructor; try apply hex_digit_range; try assumption.
  - unfold blen in *. simpl length.
    replace (Z.of_nat (S (S (length (flat_map (fun c => [hex_digit (c / 16); hex_digit (c mod 16)]) value)))))
      with (Z.of_nat (length (flat_map (fun c => [hex_digit (c / 16); hex_digit (c mod 16)]) value)) + 2)
      by lia.
    rewrite Z.odd_add, IH2. reflexivity.
Qed.

Lemma filter_all {A} (P : A -> Prop) `{forall x, Decision (P x)} (l : list A) :
  Forall P l -> filter P l = l.
Proof.
  induction 1 as [| x l Hx _ IH]; [reflexivity |].
  rewrite filter_cons_True by exact Hx. f_equal. exact IH.
Qed.

Lemma parse_hex_text fuel value rest :
  forallb is_ascii value = true ->
  _parse_object (S fuel) (map byte_of ([60] ++ hex (map byte_of value) ++ [62]) ++ rest) 0
  = Ret (HexStringObject value, blen ([60] ++ hex (map byte_of value) ++ [62])).
Proof.
  intros Hascii. rewrite (hex_text _ Hascii).
  assert (Hrange : Forall (fun c => 0 <= c < 256) value).
  { apply forallb_all in Hascii. eapply Forall_impl; [exact Hascii |].
    intros c Hc. unfold is_ascii in Hc. lia. }
  destruct (hex_digits_facts value Hrange) as [Hdigits Heven].
  pose proof (fromhex_hex value Hrange) as Hfrom.
  set (digits := flat_map (fun c => [hex_digit (c / 16); hex_digit (c mod 16)]) value) in *.
  assert (Hdascii : forallb is_ascii digits = true).
  { apply forallb_all. eapply Forall_impl; [exact Hdigits |]. intros d Hd. cbv beta in Hd. unfold is_ascii. lia. }
  set (tail := map byte_of digits ++ byte_of 62 :: rest).
  assert (Hdata : map byte_of ([60] ++ digits ++ [62]) ++ rest = [byte_of 60] ++ tail).
  { subst tail. simpl. rewrite map_app, <- app_assoc. reflexivity. }
  rewrite Hdata.
  assert (Hat : at_ ([byte_of 60] ++ tail) 0 = Some 60) by reflexivity.
  rewrite (parse_object_at_0 _ _ _ Hat eq_refl).
  rewrite (startswith_first _ 60 (b "null") 110 Hat eq_refl) by lia.
  rewrite (startswith_first _ 60 (b "true") 116 Hat eq_refl) by lia.
  rewrite (startswith_first _ 60 (b "false") 102 Hat eq_refl) by lia.
  change (byte_in 60 number_start) with false. cbv iota.
  change (60 =? 47) with false. change (60 =? 40) with false. change (60 =? 60) with true.
  cbv iota.
  assert (Hat1 : at_ ([byte_of 60] ++ tail) 1 <> Some 60).
  { change 1 with (blen [byte_of 60] + 0). rewrite at_shift by lia. subst tail.
    destruct digits as [| d digits]; [discriminate |].
    simpl. rewrite at_0. inversion Hdigits as [| ? ? Hd _]; subst.
    rewrite code_byte_of by lia. intros [= E]. lia. }
  rewrite bool_decide_eq_false_2 by exact Hat1.
  assert (Hfind : find tail (b ">") 0 = blen digits).
  { unfold find. pose proof (blen_nonneg tail). destruct (Z.ltb_spec (blen tail) 0); [lia |].
    subst tail.
    change (drop (Z.to_nat 0) (map byte_of digits ++ byte_of 62 :: rest))
      with (map byte_of digits ++ byte_of 62 :: rest).
    change (b ">") with [byte_of 62].
    rewrite (find_in_first (map byte_of digits) (byte_of 62) rest); [rewrite blen_map; lia |].
    apply Forall_map. eapply Forall_impl; [exact Hdigits |].
    intros d Hd. cbv beta in Hd. simpl. rewrite code_byte_of by lia.
    change (code (byte_of 62)) with 62. lia. }
  pose proof (blen_nonneg digits) as Hnn.
  assert (Hfind1 : find ([byte_of 60] ++ tail) (b ">") (0 + 1) = 1 + blen digits).
  { change (0 + 1) with (blen [byte_of 60] + 0). rewrite find_shift by lia. rewrite Hfind.
    destruct (Z.eqb_spec (blen digits) (-1)); [lia | reflexivity]. }
  assert (Hslice : py_slice ([byte_of 60] ++ tail) (0 + 1) (1 + blen digits)
                   = map byte_of digits).
  { change (py_slice ([byte_of 60] ++ tail) (blen [byte_of 60] + 0)
                     (blen [byte_of 60] + blen digits) = map byte_of digits).
    rewrite slice_shift by lia. subst tail.
    rewrite <- (blen_map byte_of digits). apply slice_prefix. }
  unfold _parse_hex_string. cbv zeta. rewrite Hfind1.
  destruct (Z.eqb_spec (1 + blen digits) (-1)); [lia |].
  rewrite Hslice, (latin1_byte_of _ Hdascii).
  rewrite filter_all.
  2:{ eapply Forall_impl; [exact Hdigits |]. intros d Hd. cbv beta in Hd.
      unfold is_space in Hd. lia. }
  rewrite Heven, Hfrom. simpl. f_equal. f_equal.
  unfold blen. simpl length. rewrite length_app. simpl. lia.
Qed.

(** Null and the booleans. *)
Lemma startswith_app prefix rest : startswith (prefix ++ rest) prefix = true.
Proof.
  induction prefix as [| p prefix IH]; simpl; [destruct rest; reflexivity |].
  rewrite Z.eqb_refl. exact IH.
Qed.

Lemma parse_null_text fuel rest :
  _parse_object (S fuel) (b "null" ++ rest) 0 = Ret (NullObject, 4).
Proof.
  rewrite (parse_object_at_0 _ _ 110) by reflexivity. rewrite startswith_app. reflexivity.
Qed.

Lemma parse_bool_text fuel (value : bool) rest :
  _parse_object (S fuel) ((if value then b "true" else b "false") ++ rest) 0
  = Ret (BooleanObject value, blen (if value then b "true" else b "false")).
Proof.
  destruct value.
  - rewrite (parse_object_at_0 _ _ 116) by reflexivity.
    rewrite (startswith_first _ 116 (b "null") 110) by (reflexivity || lia).
    rewrite startswith_app. reflexivity.
  - rewrite (parse_object_at_0 _ _ 102) by reflexivity.
    rewrite (startswith_first _ 102 (b "null") 110) by (reflexivity || lia).
    rewrite (startswith_first _ 102 (b "true") 116) by (reflexivity || lia).
    rewrite startswith_app. reflexivity.
Qed.

(** *** Arrays and dictionaries *)

Lemma skip_ws_one x data c :
  byte_in (code x) pdf_ws = true -> at_ data 0 = Some c -> byte_in c pdf_ws = false ->
  skip_ws (x :: data) 0 = 1.
Proof.
  intros Hx Hat Hc. unfold skip_ws. rewrite slice_from_0.
  destruct data as [| y data]; [discriminate |]. rewrite at_0 in Hat. injection Hat as <-.
  simpl. rewrite Hx, Hc. reflexivity.
Qed.

Lemma shift_Ret n o e : shift n (Ret (o, e)) = Ret (o, n + e).
Proof. reflexivity. Qed.

Lemma ret_index (o : PdfObject) (e e' : Z) : e = e' -> Ret (o, e) = Ret (o, e').
Proof. intros ->. reflexivity. Qed.

Lemma reads_back_leaf o w c :
  at_ w 0 = Some c -> byte_in c pdf_ws = false -> c <> 93 ->
  (forall rest fuel, ends_token rest -> _parse_object (S fuel) (w ++ rest) 0 = Ret (o, blen w)) ->
  reads_back o w.
Proof.
  intros Hat Hws Hc H. split; [eauto |].
  intros rest Hrest. exists 1%nat. intros fuel Hfuel.
  destruct fuel as [| fuel]; [lia |]. apply H. exact Hrest.
Qed.

Lemma at_0_app w rest c : at_ w 0 = Some c -> at_ (w ++ rest) 0 = Some c.
Proof. destruct w; [discriminate |]. intros H. exact H. Qed.

Lemma blen_pos w c : at_ w 0 = Some c -> 0 < blen w.
Proof. destruct w; [discriminate |]. intros _. unfold blen. simpl. lia. Qed.

Section RoundTrip.

Variable format_float : str -> str.
Variable depth : nat.
Hypothesis items_read_back :
  forall o w, plain o = true -> write_to_stream format_float depth o = Ret w -> reads_back o w.

Lemma array_items_read_back (elems : list PdfObject) :
  forallb plain elems = true ->
  forall out i out' i' rest,
    0 <= i ->
    for_each (fun (acc : bytes * Z) (item : PdfObject) =>
                w ← write_to_stream format_float depth item;
                Ret (acc.1 ++ (if 0 <? acc.2 then b " " else []) ++ w, acc.2 + 1))
             elems (out, i) = Ret (out', i') ->
    exists text,
      out' = out ++ text /\
      (0 < i -> ends_token (text ++ b "]" ++ rest)) /\
      exists d, forall fuel arr, (d <= fuel)%nat ->
        _parse_array_loop fuel (text ++ b "]" ++ rest) 0 arr
        = Ret (ArrayObject (arr ++ elems), blen text + 1).
Proof.
  induction elems as [| item elems IH]; intros Hplain out i out' i' rest Hi H.
  - injection H as <- <-. exists []. split; [rewrite app_nil_r; reflexivity |].
    split; [intros _; reflexivity |].
    exists 1%nat. intros fuel arr Hfuel. destruct fuel as [| fuel]; [lia |].
    rewrite parse_array_loop_unfold. cbv zeta.
    change ([] ++ b "]" ++ rest) with (b "]" ++ rest).
    assert (Hat : at_ (b "]" ++ rest) 0 = Some 93) by reflexivity.
    rewrite (skip_ws_here _ _ _ Hat eq_refl), Hat.
    destruct (Z.ltb_spec 0 (blen (b "]" ++ rest)));
      [| rewrite blen_app in *; pose proof (blen_nonneg rest); change (blen (b "]")) with 1 in *; lia].
    rewrite bool_decide_eq_true_2, orb_true_r by reflexivity.
    rewrite app_nil_r. reflexivity.
  - simpl in Hplain. apply andb_true_iff in Hplain as [Hitem Hplain].
    simpl in H. apply bind_Ret in H as ([out1 i1] & Hstep & H).
    apply bind_Ret in Hstep as (w & Hw & Hstep). injection Hstep as <- <-.
    cbn [fst snd] in H.
    destruct (IH Hplain _ (i + 1) _ _ rest ltac:(lia) H) as (text' & -> & Hends & d' & Hloop).
    destruct (items_read_back _ _ Hitem Hw) as [(c & Hc & Hws & H93) Hread].
    destruct (Hread (text' ++ b "]" ++ rest) (Hends ltac:(lia))) as [d1 Hparse].
    set (sep := if 0 <? i then b " " else []) in *.
    exists (sep ++ w ++ text'). split; [rewrite <- !app_assoc; reflexivity |].
    split.
    { intros Hpos. subst sep. destruct (Z.ltb_spec 0 i); [reflexivity | lia]. }
    exists (S (Nat.max d1 d')). intros fuel arr Hfuel.
    destruct fuel as [| fuel]; [lia |].
    rewrite parse_array_loop_unfold. cbv zeta.
    set (data := (sep ++ w ++ text') ++ b "]" ++ rest).
    assert (Hdata : data = sep ++ (w ++ text' ++ b "]" ++ rest))
      by (subst data; rewrite <- !app_assoc; reflexivity).
    assert (Hdata2 : data = (sep ++ w) ++ (text' ++ b "]" ++ rest))
      by (subst data; rewrite <- !app_assoc; reflexivity).
    assert (Hatw : at_ (w ++ text' ++ b "]" ++ rest) 0 = Some c) by (apply at_0_app; exact Hc).
    assert (Hskip : skip_ws data 0 = blen sep).
    { rewrite Hdata. subst sep. destruct (0 <? i).
      - exact (skip_ws_one x20 _ _ eq_refl Hatw Hws).
      - exact (skip_ws_here _ _ _ Hatw Hws). }
    assert (Hat : at_ data (blen sep) = Some c).
    { rewrite Hdata. replace (blen sep) with (blen sep + 0) by lia.
      rewrite at_shift by lia. exact Hatw. }
    pose proof (blen_pos _ _ Hc) as Hwpos. pose proof (blen_nonneg sep) as Hsep.
    assert (Hlen : blen sep + blen w <= blen data).
    { rewrite Hdata2, blen_app, blen_app. pose proof (blen_nonneg (text' ++ b "]" ++ rest)). lia. }
    rewrite Hskip, Hat.
    destruct (Z.ltb_spec 0 (blen data)); [| lia].
    destruct (Z.leb_spec (blen data) (blen sep)); [lia |].
    rewrite bool_decide_eq_false_2 by (intros [= E]; contradiction).
    simpl orb. cbv iota.
    assert (Hobj : _parse_object fuel data (blen sep) = Ret (item, blen sep + blen w)).
    { rewrite Hdata. replace (blen sep) with (blen sep + 0) at 1 by lia.
      rewrite (proj1 (parse_shift sep _ fuel)) by lia.
      rewrite Hparse, shift_Ret by lia. apply ret_index. lia. }
    rewrite Hobj, ret_bind.
    rewrite Hdata2. replace (blen sep + blen w) with (blen (sep ++ w) + 0)
      by (rewrite blen_app; lia).
    rewrite (proj1 (proj2 (parse_shift (sep ++ w) _ fuel))) by lia.
    rewrite Hloop, shift_Ret, <- app_assoc by lia. apply ret_index.
    rewrite !blen_app. lia.
Qed.


Lemma dict_replace_fresh d key value :
  Forall (fun item : PdfObject * PdfObject => key_eqb item.1 key = false) d ->
  dict_replace d key value = None.
Proof.
  induction 1 as [| [k v] d Hk _ IH]; simpl; [reflexivity |].
  simpl in Hk. rewrite Hk, IH. reflexivity.
Qed.

Lemma plain_name_text key :
  plain_name key = true ->
  exists name, key = MkNameObject (47 :: name) /\
               encode (47 :: name) = Ret (map byte_of (47 :: name)) /\
               forall fuel rest, ends_token rest ->
                 _parse_object (S fuel) (map byte_of (47 :: name) ++ rest) 0
                 = Ret (key, blen (map byte_of (47 :: name))).
Proof.
  intros Hkey. assert (Hshape : exists name, key = MkNameObject (47 :: name)).
  { destruct key as [| | | name | | | | | |]; try discriminate.
    destruct name as [| c name]; [discriminate |].
    destruct (Z.eq_dec c 47) as [-> | Hc]; [eauto |]. exfalso.
    destruct c as [| p | p]; try discriminate.
    do 6 (destruct p as [p | p |]; try discriminate). congruence. }
  destruct Hshape as [name ->]. exists name. split; [reflexivity |].
  assert (Hascii : forallb is_ascii (47 :: name) = true).
  { simpl in *. apply forallb_all. apply forallb_all in Hkey.
    eapply Forall_impl; [exact Hkey |]. intros c Hc. apply andb_true_iff in Hc. tauto. }
  split; [apply encode_ascii; exact Hascii |].
  intros fuel rest Hrest. rewrite blen_map. apply parse_name_text; assumption.
Qed.

Lemma dictionary_items_read_back (items : dict) :
  forallb (fun item : PdfObject * PdfObject => plain_name item.1 && plain item.2) items = true ->
  NoDup (map (fun item : PdfObject * PdfObject => key_name item.1) items) ->
  forall out out' rest,
    for_each (fun (out : bytes) (item : PdfObject * PdfObject) =>
                k ← match item.1 with
                    | MkNameObject name => encode name
                    | _ => Raise AttributeError
                    end;
                v ← write_to_stream format_float depth item.2;
                Ret (out ++ newline ++ k ++ b " " ++ v))
             items out = Ret out' ->
    exists text,
      out' = out ++ text /\
      ends_token (text ++ newline ++ b ">>" ++ rest) /\
      exists d, forall fuel acc, (d <= fuel)%nat ->
        Forall (fun item : PdfObject * PdfObject =>
                  Forall (fun have : PdfObject * PdfObject => key_eqb have.1 item.1 = false) acc)
               items ->
        _parse_dictionary_loop fuel (text ++ newline ++ b ">>" ++ rest) 0 acc
        = Ret (DictionaryObject (acc ++ items), blen text + 3).
Proof.
  induction items as [| [key value] items IH]; intros Hplain Hnodup out out' rest H.
  - injection H as <-. exists []. split; [rewrite app_nil_r; reflexivity |].
    split; [reflexivity |].
    exists 1%nat. intros fuel acc Hfuel _. destruct fuel as [| fuel]; [lia |].
    rewrite parse_dictionary_loop_unfold. cbv zeta.
    change ([] ++ newline ++ b ">>" ++ rest) with (x0a :: (b ">>" ++ rest)).
    assert (Hat : at_ (b ">>" ++ rest) 0 = Some 62) by reflexivity.
    rewrite (skip_ws_one x0a _ _ eq_refl Hat eq_refl), slice_from_1, startswith_app.
    destruct (Z.ltb_spec 0 (blen (x0a :: (b ">>" ++ rest))));
      [| unfold blen in *; simpl length in *; lia].
    rewrite orb_true_r, app_nil_r. reflexivity.
  - simpl in Hplain. apply andb_true_iff in Hplain as [Hitem Hplain].
    apply andb_true_iff in Hitem as [Hkey Hvalue].
    simpl in Hnodup. apply NoDup_cons in Hnodup as [Hfresh Hnodup].
    simpl in H. apply bind_Ret in H as (out1 & Hstep & H).
    destruct (plain_name_text key Hkey) as (name & -> & Hencode & Hreadkey).
    cbn [fst snd] in *. rewrite Hencode, ret_bind in Hstep.
    apply bind_Ret in Hstep as (v & Hv & Hstep). injection Hstep as <-.
    destruct (IH Hplain Hnodup _ _ rest H) as (text' & -> & Hends & d' & Hloop).
    destruct (items_read_back _ _ Hvalue Hv) as [(c & Hc & Hws & _) Hread].
    destruct (Hread (text' ++ newline ++ b ">>" ++ rest) Hends) as [d1 Hparse].
    set (k := map byte_of (47 :: name)) in *.
    exists (newline ++ k ++ b " " ++ v ++ text').
    split; [subst k; simpl; rewrite <- ?app_assoc; simpl; rewrite <- ?app_assoc; reflexivity |].
    split; [reflexivity |].
    exists (S (S (Nat.max d1 d'))). intros fuel acc Hfuel Hacc.
    destruct fuel as [| fuel]; [lia |].
    rewrite parse_dictionary_loop_unfold. cbv zeta.
    set (tail := text' ++ newline ++ b ">>" ++ rest) in *.
    set (data := (newline ++ k ++ b " " ++ v ++ text') ++ newline ++ b ">>" ++ rest).
    assert (Hdata1 : data = newline ++ (k ++ (b " " ++ v ++ tail)))
      by (subst data tail; rewrite <- !app_assoc; reflexivity).
    assert (Hdata2 : data = (newline ++ k) ++ (b " " ++ v ++ tail))
      by (subst data tail; rewrite <- !app_assoc; reflexivity).
    assert (Hdata3 : data = (newline ++ k ++ b " ") ++ (v ++ tail))
      by (subst data tail; rewrite <- !app_assoc; reflexivity).
    assert (Hdata4 : data = (newline ++ k ++ b " " ++ v) ++ tail)
      by (subst data tail; rewrite <- !app_assoc; reflexivity).
    assert (Hatk : at_ (k ++ (b " " ++ v ++ tail)) 0 = Some 47) by reflexivity.
    assert (Hskip : skip_ws data 0 = 1).
    { rewrite Hdata1. exact (skip_ws_one x0a _ _ eq_refl Hatk eq_refl). }
    assert (Hat1 : at_ data 1 = Some 47).
    { rewrite Hdata1. change 1 with (blen newline + 0). rewrite at_shift by lia. exact Hatk. }
    assert (Hnoend : startswith (py_slice_from data 1) (b ">>") = false).
    { rewrite Hdata1. change (newline ++ k ++ b " " ++ v ++ tail)
        with (x0a :: (k ++ b " " ++ v ++ tail)).
      rewrite slice_from_1. apply (startswith_first _ 47 (b ">>") 62 Hatk eq_refl). lia. }
    pose proof (blen_nonneg k) as Hk. pose proof (blen_pos _ _ Hc) as Hvpos.
    pose proof (blen_nonneg tail) as Htail.
    assert (Hlen : blen data = 1 + blen k + 1 + blen v + blen tail).
    { rewrite Hdata4, !blen_app. change (blen newline) with 1. change (blen (b " ")) with 1. lia. }
    rewrite Hskip, Hat1, Hnoend.
    destruct (Z.ltb_spec 0 (blen data)); [| lia].
    destruct (Z.leb_spec (blen data) 1); [lia |].
    rewrite bool_decide_eq_true_2 by reflexivity. simpl orb. simpl negb. cbv iota.
    assert (Hkeyparse : _parse_object fuel data 1 = Ret (MkNameObject (47 :: name), 1 + blen k)).
    { rewrite Hdata1. change 1 with (blen newline + 0) at 1.
      rewrite (proj1 (parse_shift newline _ fuel)) by lia.
      destruct fuel as [| fuel]; [lia |].
      rewrite Hreadkey, shift_Ret by reflexivity. apply ret_index.
      subst k. change (blen newline) with 1. lia. }
    rewrite Hkeyparse, ret_bind.
    assert (Hatv : at_ (v ++ tail) 0 = Some c) by (apply at_0_app; exact Hc).
    assert (Hskip2 : skip_ws data (1 + blen k) = 1 + blen k + 1).
    { rewrite Hdata2. replace (1 + blen k) with (blen (newline ++ k) + 0)
        by (rewrite blen_app; change (blen newline) with 1; lia).
      rewrite skip_ws_shift by lia.
      change (b " " ++ v ++ tail) with (x20 :: (v ++ tail)).
      rewrite (skip_ws_one x20 _ _ eq_refl Hatv Hws). lia. }
    rewrite Hskip2.
    assert (Hvalparse : _parse_object fuel data (1 + blen k + 1)
                        = Ret (value, 1 + blen k + 1 + blen v)).
    { rewrite Hdata3. replace (1 + blen k + 1) with (blen (newline ++ k ++ b " ") + 0) at 1
        by (rewrite !blen_app; change (blen newline) with 1; change (blen (b " ")) with 1; lia).
      rewrite (proj1 (parse_shift _ _ fuel)) by lia.
      rewrite Hparse, shift_Ret by lia. apply ret_index.
      rewrite !blen_app. change (blen newline) with 1. change (blen (b " ")) with 1. lia. }
    rewrite Hvalparse, ret_bind.
    inversion Hacc as [| ? ? Hhead Hrest']; subst.
    unfold dict_setitem. cbn [hashable]. rewrite (dict_replace_fresh _ _ _ Hhead), ret_bind.
    rewrite Hdata4. replace (1 + blen k + 1 + blen v) with (blen (newline ++ k ++ b " " ++ v) + 0)
      by (rewrite !blen_app; change (blen newline) with 1; change (blen (b " ")) with 1; lia).
    rewrite (proj2 (proj2 (parse_shift _ _ fuel))) by lia.
    rewrite Hloop; [| lia |].
    + rewrite shift_Ret, <- app_assoc. apply ret_index.
      rewrite !blen_app. change (blen newline) with 1. change (blen (b " ")) with 1. lia.
    + clear -Hrest' Hplain Hfresh.
      induction items as [| [k2 v2] items IHi]; [constructor |].
      inversion Hrest' as [| ? ? Hh Ht]; subst.
      simpl in Hplain. apply andb_true_iff in Hplain as [Hitem Hplain].
      apply andb_true_iff in Hitem as [Hk2 _].
      simpl in Hfresh. apply not_elem_of_cons in Hfresh as [Hne Hfresh].
      constructor; [| exact (IHi Hplain Hfresh Ht)].
      apply Forall_app. split; [exact Hh |]. constructor; [| constructor].
      destruct k2; try discriminate. simpl in *. unfold str_eqb.
      apply bool_decide_eq_false. congruence.
Qed.

End RoundTrip.

Lemma str_of_int_ascii n : forallb is_ascii (str_of_int n) = true.
Proof.
  destruct (str_of_int_shape n) as (sign & ds & -> & Hsign & _ & Hds & _).
  apply forallb_all, Forall_app. split.
  - destruct Hsign as [[-> _] | [-> _]]; repeat constructor.
  - eapply Forall_impl; [exact Hds |]. intros c Hc. unfold is_digit, is_ascii in *. lia.
Qed.

Lemma str_of_int_head n :
  exists c, at_ (map byte_of (str_of_int n)) 0 = Some c /\ byte_in c pdf_ws = false /\ c <> 93.
Proof.
  destruct (str_of_int_shape n) as (sign & ds & -> & Hsign & Hne & Hds & _).
  assert (Hhead : exists c text, sign ++ ds = c :: text /\ (is_digit c = true \/ c = 45)).
  { destruct Hsign as [[-> _] | [-> _]].
    - destruct ds as [| c ds]; [congruence |]. inversion Hds; subst. eauto.
    - simpl. eauto. }
  destruct Hhead as (c & text & -> & Hc). exists c.
  assert (Hc256 : 0 <= c < 256) by (unfold is_digit in Hc; lia).
  split; [simpl; rewrite at_0, code_byte_of by exact Hc256; reflexivity |].
  split; [| unfold is_digit in Hc; lia].
  destruct Hc as [Hc | ->]; [| reflexivity]. unfold byte_in, pdf_ws.
  apply bool_decide_eq_false. intros Hin.
  repeat (apply elem_of_cons in Hin as [-> | Hin]; [discriminate Hc |]).
  apply elem_of_nil in Hin. exact Hin.
Qed.

Lemma hex_ascii data : forallb is_ascii (hex data) = true.
Proof.
  unfold hex. induction data as [| c data IH]; [reflexivity |].
  simpl. rewrite IH, andb_true_r.
  assert (Hc : 0 <= code c < 256).
  { unfold code. pose proof (Byte.to_N_bounded c). lia. }
  assert (H1 : 0 <= code c / 16 < 16)
    by (split; [apply Z.div_pos; lia | apply Z.div_lt_upper_bound; lia]).
  assert (H2 : 0 <= code c mod 16 < 16) by (apply Z.mod_pos_bound; lia).
  pose proof (hex_digit_range _ H1). pose proof (hex_digit_range _ H2).
  unfold is_ascii. lia.
Qed.

Lemma write_reads_back format_float depth :
  forall o w, plain o = true -> write_to_stream format_float depth o = Ret w -> reads_back o w.
Proof.
  induction depth as [| depth IH]; intros o w Hplain H; [discriminate |].
  destruct o as [| value | [n | literal] | name | value | value | elems | items | | ];
    try discriminate; cbn [write_to_stream] in H.
  - injection H as <-. apply (reads_back_leaf _ _ 110); try reflexivity; [lia |].
    intros rest fuel _. apply parse_null_text.
  - injection H as <-. destruct value.
    + apply (reads_back_leaf _ _ 116); try reflexivity; [lia |].
      intros rest fuel _. apply (parse_bool_text fuel true).
    + apply (reads_back_leaf _ _ 102); try reflexivity; [lia |].
      intros rest fuel _. apply (parse_bool_text fuel false).
  - rewrite (encode_ascii _ (str_of_int_ascii n)) in H. injection H as <-.
    destruct (str_of_int_head n) as (c & Hc & Hws & H93).
    apply (reads_back_leaf _ _ c Hc Hws H93).
    intros rest fuel Hrest. rewrite blen_map. apply parse_int_text. exact Hrest.
  - destruct (plain_name_text _ Hplain) as (n & [= ->] & Hencode & Hread).
    rewrite Hencode in H. injection H as <-.
    apply (reads_back_leaf _ _ 47); try reflexivity; [lia |].
    intros rest fuel Hrest. apply Hread. exact Hrest.
  - simpl in Hplain. cbv zeta in H.
    assert (Hascii : forallb is_ascii
                       ([40] ++ str_replace 41 [92; 41]
                          (str_replace 40 [92; 40] (str_replace 92 [92; 92] value)) ++ [41])
                     = true).
    { rewrite escaped_text. simpl. rewrite forallb_app, (escaped_ascii _ Hplain). reflexivity. }
    rewrite (encode_ascii _ Hascii) in H. injection H as <-.
    apply (reads_back_leaf _ _ 40); try reflexivity; [lia |].
    intros rest fuel _. pose proof (parse_string_text fuel value rest Hplain) as Hp.
    rewrite <- (blen_map byte_of) in Hp. exact Hp.
  - simpl in Hplain. rewrite (encode_ascii _ Hplain), ret_bind in H.
    assert (Hascii : forallb is_ascii ([60] ++ hex (map byte_of value) ++ [62]) = true).
    { simpl. rewrite forallb_app, hex_ascii. reflexivity. }
    rewrite (encode_ascii _ Hascii) in H. injection H as <-.
    apply (reads_back_leaf _ _ 60); try reflexivity; [lia |].
    intros rest fuel _. pose proof (parse_hex_text fuel value rest Hplain) as Hp.
    rewrite <- (blen_map byte_of) in Hp. exact Hp.
  - simpl in Hplain. apply bind_Ret in H as ([out i] & Hitems & H). injection H as <-.
    cbn [fst].
    split; [exists 91; split; [| split]; [| reflexivity | lia] |].
    { destruct (array_items_read_back format_float depth IH elems Hplain _ 0 _ _ []
                  (Z.le_refl 0) Hitems) as (text & -> & _). reflexivity. }
    intros rest Hrest.
    destruct (array_items_read_back format_float depth IH elems Hplain _ 0 _ _ rest
                (Z.le_refl 0) Hitems) as (text & -> & _ & d & Hloop).
    exists (S d). intros fuel Hfuel. destruct fuel as [| fuel]; [lia |].
    match goal with |- _parse_object _ ?data 0 = _ =>
      replace data with (b "[" ++ (text ++ b "]" ++ rest))
        by (simpl; rewrite <- ?app_assoc; reflexivity)
    end.
    assert (Hat : at_ (b "[" ++ (text ++ b "]" ++ rest)) 0 = Some 91) by reflexivity.
    rewrite (parse_object_at_0 _ _ _ Hat eq_refl).
    rewrite (startswith_first _ 91 (b "null") 110 Hat eq_refl) by lia.
    rewrite (startswith_first _ 91 (b "true") 116 Hat eq_refl) by lia.
    rewrite (startswith_first _ 91 (b "false") 102 Hat eq_refl) by lia.
    change (byte_in 91 number_start) with false. cbv iota.
    change (91 =? 47) with false. change (91 =? 40) with false. change (91 =? 60) with false.
    change (91 =? 91) with true. cbv iota.
    change 1 with (blen (b "[") + 0) at 1.
    rewrite (proj1 (proj2 (parse_shift _ _ fuel))), Hloop, shift_Ret by lia.
    apply ret_index. unfold blen. repeat (rewrite ?length_app; simpl length). lia.
  - simpl in Hplain. apply andb_true_iff in Hplain as [Hplain Hnodup].
    apply bool_decide_eq_true in Hnodup.
    apply bind_Ret in H as (out & Hitems & H). injection H as <-.
    split; [exists 60; split; [| split]; [| reflexivity | lia] |].
    { destruct (dictionary_items_read_back format_float depth IH items Hplain Hnodup _ _ []
                  Hitems) as (text & -> & _). reflexivity. }
    intros rest Hrest.
    destruct (dictionary_items_read_back format_float depth IH items Hplain Hnodup _ _ rest
                Hitems) as (text & -> & _ & d & Hloop).
    exists (S d). intros fuel Hfuel. destruct fuel as [| fuel]; [lia |].
    match goal with |- _parse_object _ ?data 0 = _ =>
      replace data with (b "<<" ++ (text ++ newline ++ b ">>" ++ rest))
        by (simpl; rewrite <- ?app_assoc; reflexivity)
    end.
    assert (Hat : at_ (b "<<" ++ (text ++ newline ++ b ">>" ++ rest)) 0 = Some 60) by reflexivity.
    rewrite (parse_object_at_0 _ _ _ Hat eq_refl).
    rewrite (startswith_first _ 60 (b "null") 110 Hat eq_refl) by lia.
    rewrite (startswith_first _ 60 (b "true") 116 Hat eq_refl) by lia.
    rewrite (startswith_first _ 60 (b "false") 102 Hat eq_refl) by lia.
    change (byte_in 60 number_start) with false. cbv iota.
    change (60 =? 47) with false. change (60 =? 40) with false. change (60 =? 60) with true.
    cbv iota.
    rewrite bool_decide_eq_true_2 by reflexivity.
    change 2 with (blen (b "<<") + 0) at 1.
    rewrite (proj2 (proj2 (parse_shift _ _ fuel))) by lia.
    rewrite Hloop, shift_Ret; [| lia |].
    + apply ret_index. unfold blen. repeat (rewrite ?length_app; simpl length). lia.
    + clear. induction items; constructor; [constructor | assumption].
Qed.

Lemma write_parse format_float depth o w rest :
  plain o = true -> write_to_stream format_float depth o = Ret w -> ends_token rest ->
  _parse_object (parse_fuel (w ++ rest)) (w ++ rest) 0 = Ret (o, blen w).
Proof.
  intros Hplain Hw Hrest.
  destruct (write_reads_back format_float depth o w Hplain Hw) as [_ Hread].
  destruct (Hread rest Hrest) as [d Hd].
  apply (parse_fuel_same d); [lia |]. apply Hd. lia.
Qed.

(** X13: what the writer writes the parser reads back.  For an object made
    of null, booleans, integers, names, strings and hexadecimal strings of
    ASCII text, and arrays and dictionaries of such, the bytes
    [write_to_stream] produces, followed by nothing or by a byte that ends
    a token, parse to the object itself, and the parser stops right after
    them. *)
Theorem write_then_parse format_float depth o w rest :
  plain o = true -> write_to_stream format_float depth o = Ret w -> ends_token rest ->
  _parse_object (parse_fuel (w ++ rest)) (w ++ rest) 0 = Ret (o, blen w).
Proof. apply write_parse. Qed.

Lemma write_then_parse_witness :
  exists w,
    write_to_stream (fun text => text) 3
      (DictionaryObject
         [(NameObject (u "Type"), NameObject (u "Page"));
          (NameObject (u "MediaBox"), ArrayObject [number_of 0; number_of (-12); NullObject]);
          (NameObject (u "Title"), StringObject (u "a(b)"));
          (NameObject (u "ID"), HexStringObject (u "<Hi>"))]) = Ret w /\
    _parse_object (parse_fuel (w ++ b " endobj")) (w ++ b " endobj") 0
    = Ret (DictionaryObject
             [(NameObject (u "Type"), NameObject (u "Page"));
              (NameObject (u "MediaBox"), ArrayObject [number_of 0; number_of (-12); NullObject]);
              (NameObject (u "Title"), StringObject (u "a(b)"));
              (NameObject (u "ID"), HexStringObject (u "<Hi>"))],
           blen w).
Proof.
  eexists. split; [vm_compute; reflexivity |].
  apply (write_then_parse (fun text => text) 3); [vm_compute; reflexivity.. | reflexivity].
Defined.

(** X14: the writer is unambiguous on such objects: two of them that are
    written as the same bytes are the same object. *)
Theorem write_injective format_float depth1 depth2 o1 o2 w :
  plain o1 = true -> plain o2 = true ->
  write_to_stream format_float depth1 o1 = Ret w ->
  write_to_stream format_float depth2 o2 = Ret w ->
  o1 = o2.
Proof.
  intros Hp1 Hp2 Hw1 Hw2.
  pose proof (write_parse format_float depth1 o1 w [] Hp1 Hw1 I) as H1.
  pose proof (write_parse format_float depth2 o2 w [] Hp2 Hw2 I) as H2.
  rewrite H1 in H2. injection H2 as ->. reflexivity.
Qed.

Lemma write_injective_witness :
  write_to_stream (fun text => text) 2 (ArrayObject [number_of 1; StringObject (u "1")])
  = Ret (b "[1 (1)]") /\
  write_to_stream (fun text => text) 3 (ArrayObject [number_of 1; StringObject (u "1")])
  = Ret (b "[1 (1)]") /\
  ArrayObject [number_of 1; StringObject (u "1")] = ArrayObject [number_of 1; StringObject (u "1")].
Proof.
  split; [vm_compute; reflexivity |]. split; [vm_compute; reflexivity |].
  apply (write_injective (fun text => text) 2 3 _ _ (b "[1 (1)]")); vm_compute; reflexivity.
Defined.

(** ** The cross-reference table loop *)

Lemma table_entries_index n :
  forall data start i idx (xref : gmap Z (Z * Z)),
    (table_entries n data start i idx xref).1 = idx + 20 * Z.of_nat n.
Proof.
  induction n as [| n IH]; intros data start i idx xref; simpl table_entries; [simpl; lia |].
  rewrite IH. lia.
Qed.

Lemma find_in_bound sub data i :
  sub <> [] -> find_in sub data = Some i -> i < blen data.
Proof.
  intros Hsub. revert i. induction data as [| c data IH]; intros i H.
  - change (find_in sub []) with (if startswith [] sub then Some 0 else None) in H.
    destruct sub; [congruence | discriminate].
  - change (find_in sub (c :: data))
      with (if startswith (c :: data) sub then Some 0
            else match find_in sub data with Some i => Some (i + 1) | None => None end) in H.
    unfold blen in *. simpl length.
    destruct (startswith (c :: data) sub); [injection H as <-; lia |].
    destruct (find_in sub data) as [j |]; [| discriminate]. injection H as <-.
    specialize (IH j eq_refl). lia.
Qed.

Lemma find_bound data sub start :
  sub <> [] -> 0 <= start -> find data sub start <> -1 ->
  start <= find data sub start < blen data.
Proof.
  intros Hsub Hstart. unfold find.
  destruct (Z.ltb_spec (blen data) start); [congruence |].
  destruct (find_in sub (drop (Z.to_nat start) data)) as [i |] eqn:E; [| congruence].
  intros _. pose proof (find_in_nonneg _ _ _ E). apply (find_in_bound _ _ _ Hsub) in E.
  unfold blen in *. rewrite length_drop in E. lia.
Qed.

Lemma table_lines_returns fuel :
  forall data idx (xref : gmap Z (Z * Z)),
    0 <= idx -> (Z.to_nat (blen data - idx) < fuel)%nat ->
    table_lines fuel data idx xref <> Diverge.
Proof.
  induction fuel as [| fuel IH]; intros data idx xref Hidx Hfuel; [lia |].
  simpl.
  destruct (Z.eqb_spec (find data newline idx) (-1)) as [E | E]; [discriminate |].
  pose proof (find_bound data newline idx ltac:(discriminate) Hidx E) as Hfind.
  assert (Hnext : forall j x, find data newline idx + 1 <= j ->
                              table_lines fuel data j x <> Diverge).
  { intros j x Hj. apply IH; lia. }
  destruct (startswith _ (b "trailer")); [discriminate |].
  destruct (_ || _); [apply Hnext; lia |].
  destruct (split _) as [| part0 [| part1 [| ? ?]]]; try (apply Hnext; lia).
  destruct (_ ≫= _) as [[start_obj count] | |]; try (apply Hnext; lia).
  destruct (table_entries (Z.to_nat count) data start_obj 0 (find data newline idx + 1) xref)
    as [idx' xref'] eqn:Hentries.
  apply Hnext.
  pose proof (table_entries_index (Z.to_nat count) data start_obj 0
                (find data newline idx + 1) xref) as Hi.
  rewrite Hentries in Hi. simpl in Hi. lia.
Qed.

(** X15: the [while True] loop over the lines of a cross-reference table
    comes to an end on every input: each round moves past a newline. *)
Theorem xref_table_loop_returns self offset :
  terminates (xref_table_entries self offset).
Proof.
  unfold terminates, xref_table_entries.
  set (data := py_slice_from (_data self) offset).
  apply bind_returns; [| intros [idx xref] _; discriminate].
  pose proof (find_ge data newline 4) as Hge.
  apply table_lines_returns; [lia |]. unfold blen. lia.
Qed.

(** X16: what the entry loop of a subsection leaves in the map: a number
    mapped before keeps its entry; a number of the subsection that was not
    mapped takes the offset and generation of its own 20-byte line when
    that line is an in-use entry that parses, and stays unmapped otherwise;
    no other number is touched.  The index moves by 20 bytes an entry. *)
Theorem table_entries_summary n :
  forall data start i idx (xref : gmap Z (Z * Z)) k,
    (table_entries n data start i idx xref).1 = idx + 20 * Z.of_nat n /\
    (table_entries n data start i idx xref).2 !! k
    = match xref !! k with
      | Some entry => Some entry
      | None =>
          if bool_decide (start + i <= k < start + i + Z.of_nat n)
          then table_entry (py_slice data (idx + 20 * (k - start - i))
                                     (idx + 20 * (k - start - i) + 20))
          else None
      end.
Proof.
  intros data start i idx xref k. split; [apply table_entries_index |].
  revert i idx xref. induction n as [| n IH]; intros i idx xref.
  - simpl. destruct (xref !! k); [reflexivity |].
    rewrite bool_decide_eq_false_2 by lia. reflexivity.
  - simpl table_entries. rewrite IH. clear IH.
    set (line := py_slice data idx (idx + 20)).
    destruct (Z.eq_dec k (start + i)) as [-> | Hk].
    + replace (idx + 20 * (start + i - start - i)) with idx by lia. fold line.
      rewrite (bool_decide_eq_false_2 (start + (i + 1) <= start + i < _)) by lia.
      rewrite (bool_decide_eq_true_2 (start + i <= start + i < _)) by lia.
      unfold table_entry.
      destruct (18 <=? blen line); [| destruct (xref !! (start + i)); reflexivity].
      destruct (_ ≫= _) as [[entry_offset entry_gen] | |];
        try (destruct (xref !! (start + i)); reflexivity).
      destruct (bytes_eqb _ _); simpl; [| destruct (xref !! (start + i)); reflexivity].
      destruct (xref !! (start + i)) as [e |] eqn:Hx.
      * rewrite bool_decide_eq_false_2 by discriminate. rewrite Hx. reflexivity.
      * rewrite bool_decide_eq_true_2 by reflexivity. rewrite lookup_insert_eq. reflexivity.
    + assert (Hsame : forall x' : gmap Z (Z * Z),
                (x' = xref \/ exists e, x' = <[start + i := e]> xref) -> x' !! k = xref !! k).
      { intros x' [-> | [e ->]]; [reflexivity |]. apply lookup_insert_ne. congruence. }
      match goal with |- match ?x' !! k with _ => _ end = _ =>
        assert (Hx : x' !! k = xref !! k)
      end.
      { apply Hsame. destruct (18 <=? blen line); [| auto].
        destruct (_ ≫= _) as [[entry_offset entry_gen] | |]; auto.
        destruct (_ && _); eauto. }
      rewrite Hx. destruct (xref !! k); [reflexivity |].
      destruct (bool_decide (start + i <= k < start + i + Z.of_nat (S n))) eqn:Hin.
      * apply bool_decide_eq_true in Hin.
        rewrite bool_decide_eq_true_2 by lia.
        replace (idx + 20 + 20 * (k - start - (i + 1))) with (idx + 20 * (k - start - i)) by lia.
        reflexivity.
      * apply bool_decide_eq_false in Hin. rewrite bool_decide_eq_false_2 by lia. reflexivity.
Qed.

(** ** Document information and outline *)

Lemma dict_update_fresh other : forall d,
  NoDup (map fst (d ++ other)) ->
  Forall (fun k => exists n, k = MkNameObject n) (map fst (d ++ other)) ->
  dict_update d other = Ret (d ++ other).
Proof.
  induction other as [| [k v] other IH]; intros d Hnodup Hnames; simpl.
  - rewrite app_nil_r. reflexivity.
  - assert (Hk : exists n, k = MkNameObject n).
    { rewrite map_app, Forall_app in Hnames. destruct Hnames as [_ Hn].
      inversion Hn; subst. assumption. }
    destruct Hk as [n ->].
    assert (Hrep : dict_replace d (MkNameObject n) v = None).
    { apply dict_replace_fresh. rewrite map_app in Hnodup. apply NoDup_app in Hnodup as (_ & Hdis & _).
      apply Forall_forall. intros [k' v'] Hin. simpl.
      destruct k'; try reflexivity. unfold str_eqb. apply bool_decide_eq_false. intros ->.
      apply (Hdis (MkNameObject n)).
      - apply list_elem_of_fmap. exists (MkNameObject n, v'). split; [reflexivity | exact Hin].
      - simpl. apply list_elem_of_here. }
    unfold dict_setitem. simpl hashable. cbv iota. rewrite Hrep, ret_bind.
    rewrite IH; rewrite <- app_assoc; simpl; [reflexivity | exact Hnodup | exact Hnames].
Qed.

(** A dictionary with distinct name keys, as the parser returns them, is
    what [update] makes of it. *)
Lemma update_from_parsed d :
  name_keys d -> update_from (DictionaryObject d) = Ret d.
Proof.
  intros [Hnodup Hnames]. simpl. apply (dict_update_fresh d []); [exact Hnodup |].
  eapply Forall_impl; [exact Hnames |]. intros k [n ->]. eauto.
Qed.

(** X17: the document information is the /Info dictionary itself: when the
    trailer names one and it resolves to a dictionary with distinct name
    keys (as every parsed dictionary has), [metadata] returns its items as
    they are, and the reader that resolving it leaves. *)
Theorem metadata_info fuel self trailer info_ref info self' :
  _trailer self = Some (DictionaryObject trailer) ->
  dict_get trailer (u "/Info") = Some info_ref -> truthy info_ref = true ->
  get_object fuel self info_ref = Ret (Some (DictionaryObject info), self') ->
  info <> [] -> name_keys info ->
  metadata fuel self = Ret (info, self').
Proof.
  intros Htrailer Hinfo Htruthy Hget Hne Hkeys. unfold metadata.
  rewrite Htrailer. assert (Ht : truthy (DictionaryObject trailer) = true).
  { destruct trailer; [discriminate | reflexivity]. }
  rewrite Ht. simpl negb. cbv iota.
  simpl obj_get. rewrite ret_bind, Hinfo, Htruthy. simpl negb. cbv iota.
  rewrite Hget, ret_bind.
  assert (Hi : truthy (DictionaryObject info) = true) by (destruct info; [congruence | reflexivity]).
  rewrite Hi. simpl negb. cbv iota.
  rewrite (update_from_parsed _ Hkeys). reflexivity.
Qed.

Lemma metadata_info_witness :
  metadata 1
    (set_trailer (reader_of [(5, DictionaryObject [(NameObject (u "Title"), StringObject (u "Report"))])])
                 (Some (DictionaryObject [(NameObject (u "Info"), number_of 5)])))
  = Ret ([(NameObject (u "Title"), StringObject (u "Report"))],
         set_trailer (reader_of [(5, DictionaryObject [(NameObject (u "Title"), StringObject (u "Report"))])])
                     (Some (DictionaryObject [(NameObject (u "Info"), number_of 5)]))).
Proof.
  apply (metadata_info 1 _ [(NameObject (u "Info"), number_of 5)] (number_of 5)).
  - reflexivity.
  - reflexivity.
  - reflexivity.
  - reflexivity.
  - discriminate.
  - split; [apply NoDup_singleton | repeat constructor; eexists; reflexivity].
Defined.

(** X18: the outline is always empty: whatever the document holds,
    [outline] returns the empty list when it returns, and leaves the
    document as it was. *)
Theorem outline_empty fuel self l self' :
  outline fuel self = Ret (l, self') -> l = [] /\ same_document self self'.
Proof.
  unfold outline. intros H.
  assert (Hdone : forall s, same_document self s -> Ret ([], s) = Ret (l, self') ->
                            l = [] /\ same_document self self').
  { intros s Hs [= <- <-]. split; [reflexivity | exact Hs]. }
  pose proof (same_document_refl self) as Hrefl.
  destruct (_trailer self) as [trailer |]; [| exact (Hdone _ Hrefl H)].
  destruct (negb (truthy trailer)); [exact (Hdone _ Hrefl H) |].
  apply bind_Ret in H as (root_ref & _ & H).
  destruct root_ref as [root_ref |]; [| exact (Hdone _ Hrefl H)].
  destruct (negb (truthy root_ref)); [exact (Hdone _ Hrefl H) |].
  apply bind_Ret in H as ([root s1] & Hroot & H).
  apply (proj1 (resolve_same_document fuel)) in Hroot.
  destruct root as [root |]; [| exact (Hdone _ Hroot H)].
  destruct (negb (truthy root)); [exact (Hdone _ Hroot H) |].
  apply bind_Ret in H as (outlines_ref & _ & H).
  destruct (negb (py_truthy outlines_ref)); exact (Hdone _ Hroot H).
Qed.

Lemma outline_empty_witness :
  exists l self',
    outline 1
      (set_trailer (reader_of [(1, DictionaryObject [name_entry "Type" "Catalog";
                                                     (NameObject (u "Outlines"), number_of 7)])])
                   (Some (DictionaryObject [(NameObject (u "Root"), number_of 1)])))
    = Ret (l, self') /\
    l = [] /\
    same_document
      (set_trailer (reader_of [(1, DictionaryObject [name_entry "Type" "Catalog";
                                                     (NameObject (u "Outlines"), number_of 7)])])
                   (Some (DictionaryObject [(NameObject (u "Root"), number_of 1)])))
      self'.
Proof.
  destruct (outline 1
              (set_trailer (reader_of [(1, DictionaryObject [name_entry "Type" "Catalog";
                                                             (NameObject (u "Outlines"), number_of 7)])])
                           (Some (DictionaryObject [(NameObject (u "Root"), number_of 1)]))))
    as [[l self'] | |] eqn:E; [| vm_compute in E; discriminate..].
  exists l, self'. split; [reflexivity |].
  exact (outline_empty 1 _ l self' E).
Defined.

(** ** Pages of a document that was read *)

Lemma dict_update_clean other : forall d d',
  clean_dict d -> clean_dict other -> dict_update d other = Ret d' -> clean_dict d'.
Proof.
  induction other as [| [k v] other IH]; intros d d' Hd Ho H; simpl in H.
  - injection H as <-. exact Hd.
  - unfold clean_dict in Ho. simpl in Ho. apply orb_false_iff in Ho as [Hkv Ho].
    apply orb_false_iff in Hkv as [Hk Hv].
    apply bind_Ret in H as (d1 & Hset & H).
    eapply IH; [| exact Ho | exact H]. exact (dict_setitem_clean _ _ _ _ Hd Hk Hv Hset).
Qed.

Lemma update_from_clean obj d :
  has_indirect obj = false -> update_from obj = Ret d -> clean_dict d.
Proof.
  intros Hobj H. destruct obj; try discriminate; simpl in H.
  - (* an array of pairs *)
    assert (Hgen : forall l acc d', existsb has_indirect l = false -> clean_dict acc ->
              for_each (fun d item =>
                          pair ← py_iter (Some item);
                          match pair with
                          | [k; v] => dict_setitem d k v
                          | _ => Raise ValueError
                          end) l acc = Ret d' -> clean_dict d').
    { induction l as [| item l IH]; intros acc d' Hl Hacc Hf; simpl in Hf.
      - injection Hf as <-. exact Hacc.
      - simpl in Hl. apply orb_false_iff in Hl as [Hitem Hl].
        apply bind_Ret in Hf as (d1 & Hstep & Hf).
        apply bind_Ret in Hstep as (pair & Hpair & Hstep).
        destruct pair as [| k [| v [| ? ?]]]; try discriminate.
        assert (Hkv : has_indirect k = false /\ has_indirect v = false).
        { destruct item as [| | | | | | es | its | its ? ? |]; try discriminate;
            simpl in Hpair; simpl in Hitem.
          - injection Hpair as Hp. rewrite Hp in Hitem. simpl in Hitem.
            apply orb_false_iff in Hitem as [Hk Hitem].
            apply orb_false_iff in Hitem as [Hv _]. auto.
          - destruct its as [| [k1 v1] [| [k2 v2] [| ? ?]]]; try discriminate.
            simpl in Hpair. injection Hpair as Hk1 Hk2. subst k1 k2. simpl in Hitem.
            apply orb_false_iff in Hitem as [H1 Hitem]. apply orb_false_iff in H1 as [Hk _].
            apply orb_false_iff in Hitem as [H2 _]. apply orb_false_iff in H2 as [Hv _]. auto.
          - destruct its as [| [k1 v1] [| [k2 v2] [| ? ?]]]; try discriminate.
            simpl in Hpair. injection Hpair as Hk1 Hk2. subst k1 k2. simpl in Hitem.
            apply orb_false_iff in Hitem as [H1 Hitem]. apply orb_false_iff in H1 as [Hk _].
            apply orb_false_iff in Hitem as [H2 _]. apply orb_false_iff in H2 as [Hv _]. auto. }
        destruct Hkv as [Hk Hv].
        eapply IH; [exact Hl | | exact Hf]. exact (dict_setitem_clean _ _ _ _ Hacc Hk Hv Hstep). }
    exact (Hgen _ [] _ Hobj eq_refl H).
  - exact (dict_update_clean _ [] _ eq_refl Hobj H).
  - exact (dict_update_clean _ [] _ eq_refl Hobj H).
Qed.

#[local] Opaque parse_fuel.

Lemma parse_indirect_object_clean fuel self offset o e self' :
  _parse_indirect_object fuel self offset = Ret (Some o, e, self') -> has_indirect o = false.
Proof.
  destruct fuel as [| fuel]; [discriminate |]. simpl. intros H.
  destruct (re_header _) as [[[obj_num gen_num] idx] |]; [| discriminate].
  apply bind_Ret in H as ([obj idx1] & Hobj & H).
  apply (proj1 (parse_no_indirect _)) in Hobj.
  destruct (re_stream _); [| injection H as <- _ _; exact Hobj].
  apply bind_Ret in H as ([len s1] & _ & H).
  apply bind_Ret in H as ([obj' idx2] & Hread & H). injection H as <- _ _.
  unfold read_stream in Hread.
  destruct (match len with Some _ => _ | None => _ end) as [stream_data idx'].
  apply bind_Ret in Hread as (items & Hitems & Hread). injection Hread as <- _.
  simpl. exact (update_from_clean _ _ Hobj Hitems).
Qed.

#[local] Transparent parse_fuel.

Lemma get_object_clean fuel self ref r self' :
  reference_free self -> get_object fuel self ref = Ret (r, self') ->
  reference_free self' /\ (forall o, r = Some o -> has_indirect o = false).
Proof.
  intros [Hcache Htrailer] H.
  pose proof (proj1 (resolve_same_document fuel) _ _ _ _ H) as (_ & _ & Ht & _).
  destruct fuel as [| fuel]; [discriminate |]. simpl in H.
  apply bind_Ret in H as (n & _ & H).
  destruct (_objects self !! n) as [cached |] eqn:Ho.
  { injection H as <- <-. split; [split; assumption |]. intros o ->. eapply Hcache; exact Ho. }
  destruct (_xref self !! n) as [[offset gen] |].
  2:{ injection H as <- <-. split; [split; assumption | discriminate]. }
  apply bind_Ret in H as ([[obj e] s1] & Hp & H). injection H as <- <-.
  assert (Hobj : forall o, obj = Some o -> has_indirect o = false).
  { intros o ->. eapply parse_indirect_object_clean; exact Hp. }
  pose proof (parse_indirect_object_state _ _ _ _ _ _ Hp) as ->.
  split; [| exact Hobj]. split.
  - intros k o. simpl. destruct (Z.eq_dec k n) as [-> | Hk].
    + rewrite lookup_insert_eq. intros [= ->]. apply Hobj. reflexivity.
    + rewrite lookup_insert_ne by congruence. apply Hcache.
  - exact Htrailer.
Qed.

Lemma for_each_members_return {A S} (f : S -> A -> res S) (l : list A) :
  (forall s x, x ∈ l -> f s x <> Diverge) -> forall s, for_each f l s <> Diverge.
Proof.
  induction l as [| x l IH]; intros Hf s; simpl; [discriminate |].
  apply bind_returns; [apply Hf; apply list_elem_of_here |].
  intros s' _. apply IH. intros s'' y Hy. apply Hf. apply list_elem_of_further. exact Hy.
Qed.

Lemma nesting_member (l : list PdfObject) x :
  x ∈ l -> (nesting x <= fold_right (fun x acc => Nat.max (nesting x) acc) 0 l)%nat.
Proof.
  induction 1 as [x l | x y l _ IH]; simpl; lia.
Qed.

Lemma nesting_item (d : dict) k v :
  (k, v) ∈ d ->
  (Nat.max (nesting k) (nesting v)
   <= fold_right (fun item acc => Nat.max (Nat.max (nesting item.1) (nesting item.2)) acc) 0 d)%nat.
Proof.
  induction d as [| [k0 v0] d IH]; intros Hin; [apply elem_of_nil in Hin; contradiction |].
  apply elem_of_cons in Hin as [[= <- <-] | Hin]; simpl; [lia |]. specialize (IH Hin). lia.
Qed.

Lemma dict_get_item d key v : dict_get d key = Some v -> exists k, (k, v) ∈ d.
Proof.
  induction d as [| [k0 v0] d IH]; simpl; [discriminate |].
  intros H.
  assert (Hrest : dict_get d key = Some v -> exists k, (k, v) ∈ (k0, v0) :: d).
  { intros Hd. destruct (IH Hd) as [k Hk]. exists k. apply list_elem_of_further. exact Hk. }
  destruct k0; try (apply Hrest; exact H).
  destruct (str_eqb name key); [| apply Hrest; exact H].
  injection H as <-. eexists. apply list_elem_of_here.
Qed.

Lemma has_indirect_member (l : list PdfObject) x :
  existsb has_indirect l = false -> x ∈ l -> has_indirect x = false.
Proof.
  intros Hl Hx. induction Hx as [x l | x y l _ IH]; simpl in Hl;
    apply orb_false_iff in Hl as [Hy Hl]; auto.
Qed.

(** The kids a reference-free node yields are reference-free and nest
    less deeply than the node. *)
Lemma kids_smaller d kids l :
  clean_dict d -> dict_get d (u "/Kids") = Some kids -> py_iter (Some kids) = Ret l ->
  forall kid, kid ∈ l ->
    has_indirect kid = false /\ (S (nesting kid) < nesting (DictionaryObject d))%nat.
Proof.
  intros Hd Hkids Hiter kid Hkid.
  pose proof (dict_get_clean _ _ _ Hd Hkids) as Hclean.
  destruct (dict_get_item _ _ _ Hkids) as [k Hk]. apply nesting_item in Hk.
  assert (Hlt : (nesting kids <= fold_right (fun item acc =>
                   Nat.max (Nat.max (nesting item.1) (nesting item.2)) acc) 0 d)%nat) by lia.
  clear Hk. simpl nesting.
  destruct kids; try discriminate; simpl in Hiter; injection Hiter as <-.
  - split; [eapply has_indirect_member; eassumption |].
    apply nesting_member in Hkid. simpl in Hlt. lia.
  - apply list_elem_of_fmap in Hkid as ([k1 v1] & -> & Hin). simpl in Hclean.
    split.
    + clear -Hclean Hin. induction Hin as [? l | ? ? l _ IH]; simpl in Hclean;
        apply orb_false_iff in Hclean as [H1 H2]; [apply orb_false_iff in H1; tauto | auto].
    + apply nesting_item in Hin. simpl in Hlt. simpl. lia.
  - apply list_elem_of_fmap in Hkid as ([k1 v1] & -> & Hin). simpl in Hclean.
    split.
    + clear -Hclean Hin. induction Hin as [? l | ? ? l _ IH]; simpl in Hclean;
        apply orb_false_iff in Hclean as [H1 H2]; [apply orb_false_iff in H1; tauto | auto].
    + apply nesting_item in Hin. simpl in Hlt. simpl. lia.
Qed.

#[local] Opaque get_object new_page py_iter.

Lemma collect_reference_free fuel :
  forall self node,
    has_indirect node = false -> (nesting node < fuel)%nat ->
    _collect_pages fuel self (Some node) <> Diverge.
Proof.
  induction fuel as [| fuel IH]; intros self node Hnode Hfuel; [lia |].
  rewrite collect_pages_unfold.
  assert (Hdict : forall d, clean_dict d -> (nesting (DictionaryObject d) < S fuel)%nat ->
    (if negb (match d with [] => false | _ => true end) then Ret self
     else
       let node_type := dict_get d (u "/Type") in
       if is_name node_type (u "Page") then
         page ← new_page d;
         match _pages self with
         | Some collected => Ret (set_pages self (Some (collected ++ [page])))
         | None => Raise AttributeError
         end
       else if is_name node_type (u "Pages") then
         '(kids, self) ←
           match dict_get d (u "/Kids") with
           | Some (IndirectObject n g p) =>
               '(kids, self) ← get_object fuel self (IndirectObject n g p);
               kids ← py_iter kids;
               Ret (kids, self)
           | Some kids => kids ← py_iter (Some kids); Ret (kids, self)
           | None => Ret ([], self)
           end;
         for_each (fun self kid => _collect_pages fuel self (Some kid)) kids self
       else Ret self) <> Diverge).
  { intros d Hd Hdepth. destruct (negb _); [discriminate |]. cbv zeta.
    destruct (is_name _ (u "Page")).
    { apply bind_returns; [apply new_page_returns |]. intros page _.
      destruct (_pages self); discriminate. }
    destruct (is_name _ (u "Pages")); [| discriminate].
    destruct (dict_get d (u "/Kids")) as [kids |] eqn:Hkids.
    2:{ rewrite ret_bind. discriminate. }
    pose proof (dict_get_clean _ _ _ Hd Hkids) as Hclean.
    assert (Hstep : (kids0 ← py_iter (Some kids); Ret (kids0, self)) ≫=
                    (fun '(kids, self) =>
                       for_each (fun self kid => _collect_pages fuel self (Some kid)) kids self)
                    <> Diverge).
    { destruct (py_iter (Some kids)) as [l | |] eqn:Hiter; [| discriminate |].
      - rewrite !ret_bind. apply for_each_members_return. intros s kid Hkid.
        destruct (kids_smaller d kids l Hd Hkids Hiter kid Hkid) as [Hk Hlt].
        apply IH; [exact Hk | lia].
      - exfalso. eapply py_iter_returns. exact Hiter. }
    destruct kids; try exact Hstep. discriminate. }
  destruct node; try discriminate; rewrite ret_bind; try discriminate;
    apply Hdict; try exact Hnode; simpl in *; lia.
Qed.

#[local] Transparent get_object new_page py_iter.

Lemma resolve_then (self : PdfReader) (ref : PdfObject)
  (k : nat -> pyobj -> PdfReader -> res (list PageObject * PdfReader)) :
  (forall x s, get_object 2 self ref = Ret (x, s) ->
               exists d, forall fuel, (d <= fuel)%nat -> k fuel x s <> Diverge) ->
  exists d, forall fuel, (d <= fuel)%nat ->
    ('(x, s) ← get_object fuel self ref; k fuel x s) <> Diverge.
Proof.
  intros Hk. destruct (get_object 2 self ref) as [[x s] | e |] eqn:E.
  - destruct (Hk x s eq_refl) as [d Hd]. exists (Nat.max 2 d). intros fuel Hfuel.
    destruct fuel as [| [| fuel]]; [lia.. |].
    rewrite (proj2 (get_object_flat fuel self ref)), E, ret_bind. apply Hd. lia.
  - exists 2%nat. intros fuel Hfuel. destruct fuel as [| [| fuel]]; [lia.. |].
    rewrite (proj2 (get_object_flat fuel self ref)), E. discriminate.
  - exfalso. apply (proj1 (get_object_flat 0 self ref)). exact E.
Qed.

Lemma obj_get_clean o key v :
  has_indirect o = false -> obj_get o key = Ret (Some v) -> has_indirect v = false.
Proof.
  intros Ho H. destruct o; try discriminate; simpl in H; injection H as H;
    eapply dict_get_clean; eassumption.
Qed.

#[local] Opaque get_object _collect_pages.

Lemma pages_reference_free self :
  reference_free self ->
  exists d, forall fuel, (d <= fuel)%nat -> pages fuel self <> Diverge.
Proof.
  intros Hfree. unfold pages.
  destruct (_pages self) as [cached |]; [exists 0%nat; discriminate |]. cbv zeta.
  assert (Hs0 : reference_free (set_pages self (Some []))) by exact Hfree.
  destruct Hfree as [_ Htrailer].
  change (_trailer (set_pages self (Some []))) with (_trailer self).
  destruct (_trailer self) as [trailer |]; [| exists 0%nat; discriminate].
  specialize (Htrailer trailer eq_refl).
  destruct (negb (truthy trailer)); [exists 0%nat; discriminate |].
  destruct (obj_get trailer (u "/Root")) as [[root_ref |] | e |] eqn:Hroot;
    try (exists 0%nat; discriminate).
  2:{ destruct trailer; discriminate. }
  cbn [mbind res_bind]. apply (obj_get_clean _ _ _ Htrailer) in Hroot.
  destruct (negb (truthy root_ref)); [exists 0%nat; discriminate |].
  apply (resolve_then _ _ (fun fuel root s =>
           match root with
           | None => Ret (default [] (_pages s), s)
           | Some root =>
               if negb (truthy root) then Ret (default [] (_pages s), s)
               else
                 pages_ref ← obj_get root (u "/Pages");
                 match pages_ref with
                 | None => Ret (default [] (_pages s), s)
                 | Some pages_ref =>
                     if negb (truthy pages_ref) then Ret (default [] (_pages s), s)
                     else
                       '(pages, s) ← get_object fuel s pages_ref;
                       if negb (py_truthy pages) then Ret (default [] (_pages s), s)
                       else s ← _collect_pages fuel s pages; Ret (default [] (_pages s), s)
                 end
           end)).
  intros root s1 Hget1. destruct (get_object_clean _ _ _ _ _ Hs0 Hget1) as [Hs1 Hrootclean].
  destruct root as [root |]; [| exists 0%nat; discriminate].
  specialize (Hrootclean root eq_refl).
  destruct (negb (truthy root)); [exists 0%nat; discriminate |].
  destruct (obj_get root (u "/Pages")) as [[pages_ref |] | e |] eqn:Hpages;
    try (exists 0%nat; discriminate).
  2:{ destruct root; discriminate. }
  cbn [mbind res_bind]. apply (obj_get_clean _ _ _ Hrootclean) in Hpages.
  destruct (negb (truthy pages_ref)); [exists 0%nat; discriminate |].
  apply (resolve_then _ _ (fun fuel pages s =>
           if negb (py_truthy pages) then Ret (default [] (_pages s), s)
           else s ← _collect_pages fuel s pages; Ret (default [] (_pages s), s))).
  intros pgs s2 Hget2. destruct (get_object_clean _ _ _ _ _ Hs1 Hget2) as [_ Hclean].
  destruct pgs as [node |]; [| exists 0%nat; discriminate].
  destruct (negb (py_truthy (Some node))); [exists 0%nat; discriminate |].
  exists (S (nesting node)). intros fuel Hfuel.
  apply bind_returns; [| discriminate].
  apply collect_reference_free; [apply Hclean; reflexivity | lia].
Qed.

#[local] Transparent get_object _collect_pages.

Lemma reference_free_frame s s' :
  _objects s' = _objects s -> _trailer s' = _trailer s -> reference_free s -> reference_free s'.
Proof. unfold reference_free. intros -> ->. auto. Qed.

Lemma reference_free_trailer s t :
  has_indirect t = false -> reference_free s -> reference_free (set_trailer s (Some t)).
Proof.
  intros Ht [Hcache _]. split; [exact Hcache |]. simpl. intros t' [= <-]. exact Ht.
Qed.

Lemma parse_xref_reference_free zlib fuel :
  forall self offset self',
    reference_free self -> _parse_xref zlib fuel self offset = Ret self' ->
    reference_free self'.
Proof.
  induction fuel as [| fuel IH]; intros self offset self' Hfree H; simpl in H; [discriminate |].
  destruct (startswith _ _).
  - unfold _parse_xref_table in H. apply bind_Ret in H as ([idx s1] & Hentries & H).
    assert (Hs1 : reference_free s1).
    { unfold xref_table_entries in Hentries.
      apply bind_Ret in Hentries as ([i x] & _ & Hentries). injection Hentries as _ <-.
      exact Hfree. }
    destruct (re_trailer _) as [group |]; [| injection H as <-; exact Hs1].
    cbv zeta in H. apply bind_Ret in H as ([trailer stop] & Hparse & H).
    apply (proj1 (parse_no_indirect _)) in Hparse.
    pose proof (reference_free_trailer s1 trailer Hparse Hs1) as Hs2.
    destruct (truthy trailer); [| injection H as <-; exact Hs2].
    apply bind_Ret in H as (prev & _ & H).
    destruct prev as [prev |]; [| injection H as <-; exact Hs2].
    destruct (truthy prev); [| injection H as <-; exact Hs2].
    apply bind_Ret in H as (prev_offset & _ & H). exact (IH _ _ _ Hs2 H).
  - unfold _parse_xref_stream in H. apply bind_Ret in H as ([d s1] & Hentries & H).
    assert (Hs1 : reference_free s1).
    { unfold xref_stream_entries in Hentries.
      apply bind_Ret in Hentries as ([[obj stop] s0] & Hobj & Hentries).
      pose proof (parse_indirect_object_state _ _ _ _ _ _ Hobj) as ->.
      destruct obj as [[| | | | | | | | items raw decoded |] |]; try discriminate.
      apply parse_indirect_object_clean in Hobj.
      apply bind_Ret in Hentries as ([data obj'] & Hdecode & Hentries).
      assert (Hobj' : has_indirect obj' = false).
      { unfold decode_data in Hdecode. destruct decoded.
        - injection Hdecode as _ <-. exact Hobj.
        - apply bind_Ret in Hdecode as (x & _ & Hdecode). injection Hdecode as _ <-. exact Hobj. }
      cbv zeta in Hentries.
      apply bind_Ret in Hentries as (w & _ & Hentries).
      apply bind_Ret in Hentries as (size & _ & Hentries).
      apply bind_Ret in Hentries as (subsections & _ & Hentries).
      apply bind_Ret in Hentries as ([i x] & _ & Hentries). injection Hentries as _ <-.
      apply (reference_free_trailer (log_parse self offset) obj' Hobj'). exact Hfree. }
    destruct (dict_get d (u "/Prev")) as [prev |]; [| injection H as <-; exact Hs1].
    destruct (truthy prev); [| injection H as <-; exact Hs1].
    apply bind_Ret in H as (prev_offset & _ & H). exact (IH _ _ _ Hs1 H).
Qed.

Lemma init_reference_free zlib fuel stream password self :
  __init__ zlib fuel stream password = Ret self -> reference_free self.
Proof.
  unfold __init__. intros H. destruct stream as [| c stream]; [discriminate |].
  apply bind_Ret in H as (s1 & Hparse & H).
  assert (Hs1 : reference_free s1).
  { unfold _parse in Hparse. destruct (re_startxref _) as [startxref |]; [| discriminate].
    apply bind_Ret in Hparse as (s0 & Hxref & Hparse).
    assert (Hs0 : reference_free s0).
    { eapply parse_xref_reference_free; [| exact Hxref]. split.
      - intros n o. simpl. rewrite lookup_empty. discriminate.
      - discriminate. }
    destruct (_trailer s0) as [trailer |]; [| injection Hparse as <-; exact Hs0].
    destruct (truthy trailer); [| injection Hparse as <-; exact Hs0].
    apply bind_Ret in Hparse as (encrypt & _ & Hparse).
    destruct (py_truthy encrypt); injection Hparse as <-; exact Hs0. }
  destruct password as [[| ch password] |]; try (injection H as <-; exact Hs1).
  destruct (_is_encrypted s1) eqn:He; injection H as <-; [| exact Hs1].
  unfold decrypt. rewrite He. exact Hs1.
Qed.

(** X19: on a reader that [__init__] returned, the page list always comes
    back: [pages] returns or raises, with no recursion that fails to end.
    Nothing the parser yields is or holds an indirect reference, so the
    walk over the page tree only descends into nested dictionaries. *)
Theorem init_pages_returns zlib fuel stream password self :
  __init__ zlib fuel stream password = Ret self ->
  exists depth, forall fuel', (depth <= fuel')%nat -> terminates (pages fuel' self).
Proof.
  intros H. apply pages_reference_free. eapply init_reference_free. exact H.
Qed.

Lemma init_pages_returns_witness :
  exists self,
    __init__ no_zlib 2 minimal_pdf None = Ret self /\
    exists depth, forall fuel', (depth <= fuel')%nat -> terminates (pages fuel' self).
Proof.
  destruct (__init__ no_zlib 2 minimal_pdf None) as [self | |] eqn:E;
    [| vm_compute in E; discriminate..].
  exists self. split; [reflexivity |].
  exact (init_pages_returns no_zlib 2 minimal_pdf None self E).
Defined.

(** ** The text of a page that was read *)

Lemma dict_replace_no_stream d : forall k v d',
  existsb (fun kv : PdfObject * PdfObject => has_stream kv.1 || has_stream kv.2) d = false ->
  has_stream v = false ->
  dict_replace d k v = Some d' ->
  existsb (fun kv : PdfObject * PdfObject => has_stream kv.1 || has_stream kv.2) d' = false.
Proof.
  induction d as [| [k0 v0] d IH]; intros k v d' Hd Hv H; simpl in H; [discriminate |].
  simpl in Hd. apply orb_false_iff in Hd as [Hkv Hd]. apply orb_false_iff in Hkv as [Hk0 Hv0].
  destruct (key_eqb k0 k).
  - injection H as <-. simpl. rewrite Hk0, Hv, Hd. reflexivity.
  - destruct (dict_replace d k v) as [d'' |] eqn:E; [| discriminate]. injection H as <-.
    simpl. rewrite Hk0, Hv0. simpl. eapply IH; [exact Hd | exact Hv | exact E].
Qed.

Lemma dict_setitem_no_stream d k v d' :
  existsb (fun kv : PdfObject * PdfObject => has_stream kv.1 || has_stream kv.2) d = false ->
  has_stream k = false -> has_stream v = false ->
  dict_setitem d k v = Ret d' ->
  existsb (fun kv : PdfObject * PdfObject => has_stream kv.1 || has_stream kv.2) d' = false.
Proof.
  unfold dict_setitem. intros Hd Hk Hv H.
  destruct (hashable k); [| discriminate].
  destruct (dict_replace d k v) as [d'' |] eqn:E; injection H as <-.
  - eapply dict_replace_no_stream; [exact Hd | exact Hv | exact E].
  - rewrite existsb_app. simpl. rewrite Hd, Hk, Hv. reflexivity.
Qed.

Lemma dict_setitem_inert d k v d' :
  inert_dict d -> has_indirect k = false -> has_stream k = false ->
  has_indirect v = false -> has_stream v = false ->
  dict_setitem d k v = Ret d' -> inert_dict d'.
Proof.
  intros [Hc Hs] Hk1 Hk2 Hv1 Hv2 H. split.
  - exact (dict_setitem_clean _ _ _ _ Hc Hk1 Hv1 H).
  - exact (dict_setitem_no_stream _ _ _ _ Hs Hk2 Hv2 H).
Qed.

Lemma parse_no_stream fuel :
  (forall data idx o e,
     _parse_object fuel data idx = Ret (o, e) -> has_stream o = false) /\
  (forall data idx arr o e,
     existsb has_stream arr = false ->
     _parse_array_loop fuel data idx arr = Ret (o, e) -> has_stream o = false) /\
  (forall data idx d o e,
     existsb (fun kv : PdfObject * PdfObject => has_stream kv.1 || has_stream kv.2) d = false ->
     _parse_dictionary_loop fuel data idx d = Ret (o, e) -> has_stream o = false).
Proof.
  induction fuel as [| fuel (IHo & IHa & IHd)];
    [split; [| split]; intros; discriminate |].
  split; [| split].
  - intros data idx o e H. rewrite parse_object_unfold in H. cbv zeta in H.
    destruct (at_ data (skip_ws data idx)) as [char |]; [| injection H as <- _; reflexivity].
    destruct (startswith _ (b "null")); [injection H as <- _; reflexivity |].
    destruct (startswith _ (b "true")); [injection H as <- _; reflexivity |].
    destruct (startswith _ (b "false")); [injection H as <- _; reflexivity |].
    destruct (if byte_in char number_start then _ else None) as [r |] eqn:Hnum.
    { destruct (byte_in char number_start); [| discriminate]. subst r.
      apply parse_number_shape in Hnum as [[v ->] | (n & g & p & ->)]; reflexivity. }
    destruct (char =? 47).
    { injection H as <- _. unfold NameObject. repeat case_match; reflexivity. }
    destruct (char =? 40).
    { apply literal_loop_shape in H as [s ->]. reflexivity. }
    destruct (char =? 60).
    { destruct (bool_decide _); [exact (IHd _ _ [] _ _ eq_refl H) |].
      unfold _parse_hex_string in H. injection H as <- _. reflexivity. }
    destruct (char =? 91); [exact (IHa _ _ [] _ _ eq_refl H) |].
    destruct (startswith _ (b "<<")); [exact (IHd _ _ [] _ _ eq_refl H) |].
    destruct (re_ref _) as [[[? ?] ?] |]; injection H as <- _; reflexivity.
  - intros data idx arr o e Harr H. rewrite parse_array_loop_unfold in H. cbv zeta in H.
    destruct (idx <? blen data); [| injection H as <- _; exact Harr].
    destruct (_ || _); [injection H as <- _; exact Harr |].
    apply bind_Ret in H as ([obj idx1] & Hobj & H).
    eapply IHa; [| exact H]. rewrite existsb_app. simpl. rewrite Harr.
    rewrite (IHo _ _ _ _ Hobj). reflexivity.
  - intros data idx d o e Hd H. rewrite parse_dictionary_loop_unfold in H. cbv zeta in H.
    destruct (idx <? blen data); [| injection H as <- _; exact Hd].
    destruct (_ || _); [injection H as <- _; exact Hd |].
    destruct (negb _); [exact (IHd _ _ _ _ _ Hd H) |].
    apply bind_Ret in H as ([key idx1] & Hkey & H).
    apply bind_Ret in H as ([value idx2] & Hvalue & H).
    apply bind_Ret in H as (d' & Hset & H).
    eapply IHd; [| exact H].
    exact (dict_setitem_no_stream _ _ _ _ Hd (IHo _ _ _ _ Hkey) (IHo _ _ _ _ Hvalue) Hset).
Qed.

Lemma dict_update_inert other : forall d d',
  inert_dict d -> inert_dict other -> dict_update d other = Ret d' -> inert_dict d'.
Proof.
  induction other as [| [k v] other IH]; intros d d' Hd Ho H; simpl in H.
  - injection H as <-. exact Hd.
  - destruct Ho as [Hc Hs]. unfold clean_dict in Hc. simpl in Hc, Hs.
    apply orb_false_iff in Hc as [Hkv Hc]. apply orb_false_iff in Hkv as [Hk1 Hv1].
    apply orb_false_iff in Hs as [Hkv Hs]. apply orb_false_iff in Hkv as [Hk2 Hv2].
    apply bind_Ret in H as (d1 & Hset & H).
    eapply IH; [| split; [exact Hc | exact Hs] | exact H].
    exact (dict_setitem_inert _ _ _ _ Hd Hk1 Hk2 Hv1 Hv2 Hset).
Qed.

Lemma inert_nil : inert_dict [].
Proof. split; reflexivity. Qed.

(** [update] from an object that holds neither a reference nor a stream
    gives an inert dictionary. *)
Lemma update_from_inert obj d :
  has_indirect obj = false -> has_stream obj = false -> update_from obj = Ret d -> inert_dict d.
Proof.
  intros Hi Hs H. split; [exact (update_from_clean _ _ Hi H) |].
  destruct obj; try discriminate; simpl in H.
  - assert (Hgen : forall l acc d',
              existsb has_stream l = false ->
              existsb (fun kv : PdfObject * PdfObject => has_stream kv.1 || has_stream kv.2) acc
              = false ->
              for_each (fun d item =>
                          pair ← py_iter (Some item);
                          match pair with
                          | [k; v] => dict_setitem d k v
                          | _ => Raise ValueError
                          end) l acc = Ret d' ->
              existsb (fun kv : PdfObject * PdfObject => has_stream kv.1 || has_stream kv.2) d'
              = false).
    { induction l as [| item l IH]; intros acc d' Hl Hacc Hf; simpl in Hf.
      - injection Hf as <-. exact Hacc.
      - simpl in Hl. apply orb_false_iff in Hl as [Hitem Hl].
        apply bind_Ret in Hf as (d1 & Hstep & Hf).
        apply bind_Ret in Hstep as (pair & Hpair & Hstep).
        destruct pair as [| k [| v [| ? ?]]]; try discriminate.
        assert (Hkv : has_stream k = false /\ has_stream v = false).
        { destruct item as [| | | | | | es | its | its ? ? |]; try discriminate;
            simpl in Hpair; simpl in Hitem.
          - injection Hpair as Hp. rewrite Hp in Hitem. simpl in Hitem.
            apply orb_false_iff in Hitem as [Hk Hitem].
            apply orb_false_iff in Hitem as [Hv _]. auto.
          - destruct its as [| [k1 v1] [| [k2 v2] [| ? ?]]]; try discriminate.
            simpl in Hpair. injection Hpair as Hk1 Hk2. subst k1 k2. simpl in Hitem.
            apply orb_false_iff in Hitem as [H1 Hitem]. apply orb_false_iff in H1 as [Hk _].
            apply orb_false_iff in Hitem as [H2 _]. apply orb_false_iff in H2 as [Hv _]. auto. }
        destruct Hkv as [Hk Hv].
        eapply IH; [exact Hl | | exact Hf].
        exact (dict_setitem_no_stream _ _ _ _ Hacc Hk Hv Hstep). }
    exact (Hgen _ [] _ Hs eq_refl H).
  - exact (proj2 (dict_update_inert _ [] _ inert_nil (conj Hi Hs) H)).
Qed.

#[local] Opaque parse_fuel.

Lemma parse_indirect_object_inert fuel self offset o e self' :
  _parse_indirect_object fuel self offset = Ret (Some o, e, self') -> inert_object o.
Proof.
  destruct fuel as [| fuel]; [discriminate |]. simpl. intros H.
  destruct (re_header _) as [[[obj_num gen_num] idx] |]; [| discriminate].
  apply bind_Ret in H as ([obj idx1] & Hobj & H).
  pose proof (proj1 (parse_no_indirect _) _ _ _ _ Hobj) as Hi.
  pose proof (proj1 (parse_no_stream _) _ _ _ _ Hobj) as Hs.
  destruct (re_stream _).
  2:{ injection H as <- _ _. destruct obj; try discriminate; split; assumption. }
  apply bind_Ret in H as ([len s1] & _ & H).
  apply bind_Ret in H as ([obj' idx2] & Hread & H). injection H as <- _ _.
  unfold read_stream in Hread.
  destruct (match len with Some _ => _ | None => _ end) as [stream_data idx'].
  apply bind_Ret in Hread as (items & Hitems & Hread). injection Hread as <- _.
  exact (update_from_inert _ _ Hi Hs Hitems).
Qed.

#[local] Transparent parse_fuel.

Lemma get_object_inert fuel self ref r self' :
  inert_reader self -> get_object fuel self ref = Ret (r, self') ->
  inert_reader self' /\ (forall o, r = Some o -> inert_object o).
Proof.
  intros [Hcache Hpages] H.
  pose proof (proj1 (resolve_same_document fuel) _ _ _ _ H) as (_ & _ & _ & _ & _ & Hp).
  destruct fuel as [| fuel]; [discriminate |]. simpl in H.
  apply bind_Ret in H as (n & _ & H).
  destruct (_objects self !! n) as [cached |] eqn:Ho.
  { injection H as <- <-. split; [split; assumption |]. intros o ->. eapply Hcache; exact Ho. }
  destruct (_xref self !! n) as [[offset gen] |].
  2:{ injection H as <- <-. split; [split; assumption | discriminate]. }
  apply bind_Ret in H as ([[obj e] s1] & Hparse & H). injection H as <- <-.
  assert (Hobj : forall o, obj = Some o -> inert_object o).
  { intros o ->. eapply parse_indirect_object_inert; exact Hparse. }
  pose proof (parse_indirect_object_state _ _ _ _ _ _ Hparse) as ->.
  split; [| exact Hobj]. split.
  - intros k o. simpl. destruct (Z.eq_dec k n) as [-> | Hk].
    + rewrite lookup_insert_eq. intros [= ->]. apply Hobj. reflexivity.
    + rewrite lookup_insert_ne by congruence. apply Hcache.
  - exact Hpages.
Qed.

Lemma dict_get_inert d key v :
  inert_dict d -> dict_get d key = Some v -> has_indirect v = false /\ has_stream v = false.
Proof.
  intros [Hc Hs] H. split; [exact (dict_get_clean _ _ _ Hc H) |].
  induction d as [| [k0 v0] d IH]; simpl in *; [discriminate |].
  unfold clean_dict in Hc. simpl in Hc. apply orb_false_iff in Hc as [_ Hc].
  apply orb_false_iff in Hs as [Hkv Hs]. apply orb_false_iff in Hkv as [_ Hv0].
  destruct k0; try exact (IH Hc Hs H).
  destruct (str_eqb name key); [injection H as <-; exact Hv0 | exact (IH Hc Hs H)].
Qed.

Lemma has_stream_member (l : list PdfObject) x :
  existsb has_stream l = false -> x ∈ l -> has_stream x = false.
Proof.
  intros Hl Hx. induction Hx as [x l | x y l _ IH]; simpl in Hl;
    apply orb_false_iff in Hl as [Hy Hl]; auto.
Qed.

Lemma inert_plain o :
  has_indirect o = false -> has_stream o = false -> inert_object o.
Proof. intros Hi Hs. destruct o; try discriminate; split; assumption. Qed.

(** What iterating an object without references and streams yields is
    again without them. *)
Lemma py_iter_inert o l :
  has_indirect o = false -> has_stream o = false -> py_iter (Some o) = Ret l ->
  forall x, x ∈ l -> has_indirect x = false /\ has_stream x = false.
Proof.
  intros Hi Hs H x Hx. destruct o; try discriminate; simpl in H; injection H as <-.
  - split; [eapply has_indirect_member | eapply has_stream_member]; eassumption.
  - apply list_elem_of_fmap in Hx as (kv & -> & Hin). simpl in Hi, Hs.
    clear -Hi Hs Hin. induction Hin as [kv l | kv kv' l _ IH]; simpl in Hi, Hs;
      apply orb_false_iff in Hi as [Hi1 Hi2]; apply orb_false_iff in Hs as [Hs1 Hs2];
      [| exact (IH Hi2 Hs2)].
    apply orb_false_iff in Hi1 as [Hk _]. apply orb_false_iff in Hs1 as [Hk' _].
    split; assumption.
Qed.

Lemma for_each_invariant {A S} (P : S -> Prop) (f : S -> A -> res S) (l : list A) :
  (forall s x s', x ∈ l -> P s -> f s x = Ret s' -> P s') ->
  forall s s', P s -> for_each f l s = Ret s' -> P s'.
Proof.
  induction l as [| x l IH]; intros Hf s s' Hs H; simpl in H.
  - injection H as <-. exact Hs.
  - apply bind_Ret in H as (s1 & H1 & H).
    eapply IH; [| | exact H].
    + intros s2 y s3 Hy. apply Hf. apply list_elem_of_further. exact Hy.
    + eapply Hf; [apply list_elem_of_here | exact Hs | exact H1].
Qed.

#[local] Opaque get_object py_iter.

Lemma collect_inert fuel :
  forall self node self',
    inert_reader self -> inert_object node ->
    _collect_pages fuel self (Some node) = Ret self' -> inert_reader self'.
Proof.
  induction fuel as [| fuel IH]; intros self node self' Hself Hnode H; [discriminate |].
  rewrite collect_pages_unfold in H.
  assert (Hdict : forall d, inert_dict d ->
    (if negb (match d with [] => false | _ => true end) then Ret self
     else
       let node_type := dict_get d (u "/Type") in
       if is_name node_type (u "Page") then
         page ← new_page d;
         match _pages self with
         | Some collected => Ret (set_pages self (Some (collected ++ [page])))
         | None => Raise AttributeError
         end
       else if is_name node_type (u "Pages") then
         '(kids, self) ←
           match dict_get d (u "/Kids") with
           | Some (IndirectObject n g p) =>
               '(kids, self) ← get_object fuel self (IndirectObject n g p);
               kids ← py_iter kids;
               Ret (kids, self)
           | Some kids => kids ← py_iter (Some kids); Ret (kids, self)
           | None => Ret ([], self)
           end;
         for_each (fun self kid => _collect_pages fuel self (Some kid)) kids self
       else Ret self) = Ret self' -> inert_reader self').
  { intros d Hd Hbody. destruct (negb _); [injection Hbody as <-; exact Hself |].
    cbv zeta in Hbody. destruct (is_name _ (u "Page")).
    { apply bind_Ret in Hbody as (page & Hpage & Hbody).
      unfold new_page in Hpage. apply bind_Ret in Hpage as (items & Hitems & Hpage).
      injection Hpage as <-.
      assert (Hitems' : inert_dict items).
      { eapply dict_update_inert; [| exact Hd | exact Hitems]. split; reflexivity. }
      destruct (_pages self) as [collected |] eqn:Hp; [| discriminate].
      injection Hbody as <-. destruct Hself as [Hcache Hpages]. split; [exact Hcache |].
      simpl. intros c [= <-]. apply Forall_app. split; [exact (Hpages _ Hp) |].
      constructor; [exact Hitems' | constructor]. }
    destruct (is_name _ (u "Pages")); [| injection Hbody as <-; exact Hself].
    apply bind_Ret in Hbody as ([kids s1] & Hkids & Hbody).
    assert (Hk : s1 = self /\ forall kid, kid ∈ kids ->
                                          has_indirect kid = false /\ has_stream kid = false).
    { destruct (dict_get d (u "/Kids")) as [kidsobj |] eqn:Hget.
      2:{ injection Hkids as <- <-. split; [reflexivity |].
          intros kid Hin. apply elem_of_nil in Hin. contradiction. }
      destruct (dict_get_inert _ _ _ Hd Hget) as [Hi Hs].
      assert (Hplain : (l ← py_iter (Some kidsobj); Ret (l, self)) = Ret (kids, s1) ->
                       s1 = self /\ forall kid, kid ∈ kids ->
                         has_indirect kid = false /\ has_stream kid = false).
      { intros Hl. apply bind_Ret in Hl as (l & Hiter & Hl). injection Hl as <- <-.
        split; [reflexivity |]. exact (py_iter_inert _ _ Hi Hs Hiter). }
      destruct kidsobj; try exact (Hplain Hkids). discriminate. }
    destruct Hk as [-> Hk].
    eapply (for_each_invariant inert_reader); [| exact Hself | exact Hbody].
    intros s kid s' Hin Hs Hc. destruct (Hk kid Hin) as [Hi Hst].
    exact (IH _ _ _ Hs (inert_plain _ Hi Hst) Hc). }
  destruct node as [| | | | | | | d | d raw decoded |];
    try (destruct Hnode; discriminate); rewrite ret_bind in H;
    try (injection H as <-; exact Hself).
  - exact (Hdict d Hnode H).
  - exact (Hdict d Hnode H).
Qed.

#[local] Opaque _collect_pages.

Lemma pages_inert fuel self l self' :
  inert_reader self -> pages fuel self = Ret (l, self') ->
  Forall (fun page => inert_dict (page_items page)) l.
Proof.
  intros Hself H. pose proof (pages_cached _ _ _ _ H) as Hcached.
  assert (Hself' : inert_reader self').
  { unfold pages in H. destruct (_pages self) as [cached |]; [injection H as _ <-; exact Hself |].
    cbv zeta in H.
    assert (H0 : inert_reader (set_pages self (Some []))).
    { destruct Hself as [Hcache _]. split; [exact Hcache |]. simpl. intros c [= <-]. constructor. }
    assert (Hdone : forall s, inert_reader s -> Ret (default [] (_pages s), s) = Ret (l, self') ->
                              inert_reader self').
    { intros s Hs [= _ <-]. exact Hs. }
    destruct (_trailer _) as [trailer |]; [| exact (Hdone _ H0 H)].
    destruct (negb (truthy trailer)); [exact (Hdone _ H0 H) |].
    apply bind_Ret in H as (root_ref & _ & H).
    destruct root_ref as [root_ref |]; [| exact (Hdone _ H0 H)].
    destruct (negb (truthy root_ref)); [exact (Hdone _ H0 H) |].
    apply bind_Ret in H as ([root s1] & Hroot & H).
    destruct (get_object_inert _ _ _ _ _ H0 Hroot) as [Hs1 _].
    destruct root as [root |]; [| exact (Hdone _ Hs1 H)].
    destruct (negb (truthy root)); [exact (Hdone _ Hs1 H) |].
    apply bind_Ret in H as (pages_ref & _ & H).
    destruct pages_ref as [pages_ref |]; [| exact (Hdone _ Hs1 H)].
    destruct (negb (truthy pages_ref)); [exact (Hdone _ Hs1 H) |].
    apply bind_Ret in H as ([pgs s2] & Hpgs & H).
    destruct (get_object_inert _ _ _ _ _ Hs1 Hpgs) as [Hs2 Hnode].
    destruct (negb (py_truthy pgs)); [exact (Hdone _ Hs2 H) |].
    apply bind_Ret in H as (s3 & Hc & H).
    destruct pgs as [node |].
    - exact (Hdone _ (collect_inert _ _ _ _ Hs2 (Hnode _ eq_refl) Hc) H).
    - assert (Hnone : s3 = s2).
      { destruct fuel as [| fuel]; [discriminate |]. rewrite collect_pages_unfold in Hc.
        rewrite ret_bind in Hc. injection Hc as <-. reflexivity. }
      subst s3. exact (Hdone _ Hs2 H). }
  destruct Hself' as [_ Hpages]. apply Hpages. exact Hcached.
Qed.

#[local] Transparent get_object py_iter _collect_pages.

Lemma content_of_inert zlib fuel s page :
  inert_dict (page_items page) -> _get_content_stream zlib fuel s page = Ret ([], s).
Proof.
  intros Hpage. unfold _get_content_stream.
  destruct (dict_get (page_items page) (u "/Contents")) as [contents |] eqn:Hget; [| reflexivity].
  destruct (dict_get_inert _ _ _ Hpage Hget) as [Hi Hs].
  destruct contents; try discriminate; try reflexivity.
  rewrite ret_bind.
  assert (Hloop : forall l acc, existsb has_indirect l = false -> existsb has_stream l = false ->
            for_each (fun (acc : list bytes * PdfReader) (item : PdfObject) =>
                        '(item, self) ←
                          match item with
                          | IndirectObject n g p =>
                              IndirectObject_get_object fuel acc.2 n g p
                          | _ => Ret (Some item, acc.2)
                          end;
                        match item with
                        | Some (StreamObject d raw decoded) =>
                            '(data, _) ← decode_data zlib d raw decoded;
                            Ret (acc.1 ++ [data], self)
                        | _ => Ret (acc.1, self)
                        end) l acc = Ret acc).
  { induction l as [| item l IH]; intros acc Hli Hls; [reflexivity |].
    simpl in Hli, Hls. apply orb_false_iff in Hli as [Hitem Hli].
    apply orb_false_iff in Hls as [Hitems Hls]. simpl for_each.
    destruct item; try discriminate; rewrite !ret_bind; destruct acc; apply IH; assumption. }
  rewrite (Hloop _ _ Hi Hs). reflexivity.
Qed.

Lemma parse_xref_cache zlib fuel :
  forall self offset self',
    _parse_xref zlib fuel self offset = Ret self' -> _objects self' = _objects self.
Proof.
  induction fuel as [| fuel IH]; intros self offset self' H; simpl in H; [discriminate |].
  destruct (startswith _ _).
  - unfold _parse_xref_table in H. apply bind_Ret in H as ([idx s1] & Hentries & H).
    assert (Hs1 : _objects s1 = _objects self).
    { unfold xref_table_entries in Hentries.
      apply bind_Ret in Hentries as ([i x] & _ & Hentries). injection Hentries as _ <-.
      reflexivity. }
    destruct (re_trailer _) as [group |]; [| injection H as <-; exact Hs1].
    cbv zeta in H. apply bind_Ret in H as ([trailer stop] & _ & H).
    destruct (truthy trailer); [| injection H as <-; exact Hs1].
    apply bind_Ret in H as (prev & _ & H).
    destruct prev as [prev |]; [| injection H as <-; exact Hs1].
    destruct (truthy prev); [| injection H as <-; exact Hs1].
    apply bind_Ret in H as (prev_offset & _ & H). rewrite (IH _ _ _ H). exact Hs1.
  - unfold _parse_xref_stream in H. apply bind_Ret in H as ([d s1] & Hentries & H).
    assert (Hs1 : _objects s1 = _objects self).
    { unfold xref_stream_entries in Hentries.
      apply bind_Ret in Hentries as ([[obj stop] s0] & Hobj & Hentries).
      pose proof (parse_indirect_object_state _ _ _ _ _ _ Hobj) as ->.
      destruct obj as [[| | | | | | | | items raw decoded |] |]; try discriminate.
      apply bind_Ret in Hentries as ([data obj'] & _ & Hentries).
      cbv zeta in Hentries.
      apply bind_Ret in Hentries as (w & _ & Hentries).
      apply bind_Ret in Hentries as (size & _ & Hentries).
      apply bind_Ret in Hentries as (subsections & _ & Hentries).
      apply bind_Ret in Hentries as ([i x] & _ & Hentries). injection Hentries as _ <-.
      reflexivity. }
    destruct (dict_get d (u "/Prev")) as [prev |]; [| injection H as <-; exact Hs1].
    destruct (truthy prev); [| injection H as <-; exact Hs1].
    apply bind_Ret in H as (prev_offset & _ & H). rewrite (IH _ _ _ H). exact Hs1.
Qed.

Lemma init_inert zlib fuel stream password self :
  __init__ zlib fuel stream password = Ret self -> inert_reader self.
Proof.
  unfold __init__. intros H. destruct stream as [| c stream]; [discriminate |].
  apply bind_Ret in H as (s1 & Hparse & H).
  assert (Hs1 : _objects s1 = ∅ /\ _pages s1 = None).
  { unfold _parse in Hparse. destruct (re_startxref _) as [startxref |]; [| discriminate].
    apply bind_Ret in Hparse as (s0 & Hxref & Hparse).
    pose proof (parse_xref_cache _ _ _ _ _ Hxref) as Hcache.
    pose proof (keeps_flags_chain _ _ _ _ _ Hxref) as (_ & _ & _ & Hp).
    assert (Hs0 : _objects s0 = ∅ /\ _pages s0 = None) by (split; [exact Hcache | exact Hp]).
    destruct (_trailer s0) as [trailer |]; [| injection Hparse as <-; exact Hs0].
    destruct (truthy trailer); [| injection Hparse as <-; exact Hs0].
    apply bind_Ret in Hparse as (encrypt & _ & Hparse).
    destruct (py_truthy encrypt); injection Hparse as <-; exact Hs0. }
  assert (Hself : _objects self = ∅ /\ _pages self = None).
  { destruct password as [[| ch password] |]; try (injection H as <-; exact Hs1).
    destruct (_is_encrypted s1) eqn:He; injection H as <-; [| exact Hs1].
    unfold decrypt. rewrite He. exact Hs1. }
  destruct Hself as [Ho Hp]. split.
  - intros n o. rewrite Ho, lookup_empty. discriminate.
  - rewrite Hp. discriminate.
Qed.

(** X20: no page of a document that was read has any text.  On a reader
    that [__init__] returned, every page [pages] lists has an empty content
    stream, and [extract_text] gives the empty string for it: the parser
    turns every reference to a content stream into a bare number, and a
    page's /Contents entry is never a stream or a reference to one. *)
Theorem read_pages_have_no_text zlib text_of_content fuel stream password self
  fuel1 l self1 page fuel2 s :
  __init__ zlib fuel stream password = Ret self ->
  pages fuel1 self = Ret (l, self1) ->
  page ∈ l ->
  _get_content_stream zlib fuel2 s page = Ret ([], s) /\
  extract_text zlib text_of_content fuel2 s page = Ret ([], s).
Proof.
  intros Hinit Hpages Hin.
  pose proof (pages_inert _ _ _ _ (init_inert _ _ _ _ _ Hinit) Hpages) as Hall.
  rewrite Forall_forall in Hall. specialize (Hall page Hin).
  unfold extract_text. rewrite (content_of_inert zlib fuel2 s page Hall). split; reflexivity.
Qed.

Lemma read_pages_have_no_text_witness :
  exists self page self1,
    __init__ no_zlib 2 inline_page_pdf None = Ret self /\
    pages 3 self = Ret ([page], self1) /\
    dict_get (page_items page) (u "/Contents") = Some (number_of 4) /\
    extract_text no_zlib (fun content => latin1 content) 2 self1 page = Ret ([], self1).
Proof.
  destruct (__init__ no_zlib 2 inline_page_pdf None) as [self | |] eqn:Einit;
    [| vm_compute in Einit; discriminate..].
  destruct (pages 3 self) as [[l self1] | |] eqn:Epages;
    [| exfalso; revert Epages; vm_compute in Einit; injection Einit as <-;
       vm_compute; discriminate..].
  assert (Hl : exists page, l = [page] /\
                            dict_get (page_items page) (u "/Contents") = Some (number_of 4)).
  { revert Epages. vm_compute in Einit. injection Einit as <-. vm_compute.
    intros [= <- _]. eexists. split; reflexivity. }
  destruct Hl as (page & -> & Hcontents).
  exists self, page, self1. split; [reflexivity |]. split; [exact Epages |].
  split; [exact Hcontents |].
  exact (proj2 (read_pages_have_no_text no_zlib (fun content => latin1 content) 2
                  inline_page_pdf None self 3 [page] self1 page 2 self1
                  Einit Epages (list_elem_of_here _ _))).
Defined.
